(** * maibot-bgg-plugin: the board-game resolution pipeline

    A shallow embedding of the plugin's Python sources
    ([bgg_client.py], [ddg_client.py], [web_client.py], [register.py],
    [utils.py], [plugin.py]) and the properties of the resolution
    pipeline stated against it.

    Conventions of the embedding:
    - a Python [str] is the list of its Unicode code points;
    - a Python [int] is a [Z];
    - a JSON-like dynamic value is a [pyval];
    - an effectful function is a computation in the monad [M], which
      threads the outside world, may raise a Python exception and
      records every awaited call in a trace;
    - a request is its URL and its parameters: the headers, the
      timeout and the [proxy] and [api_token] arguments are left out,
      and so is the construction of the HTTP client;
    - the alias dictionary maps names to strings, as the registration
      command writes it;
    - logging and the [verbose] flag have no effect on results and are
      left out. *)

From Stdlib Require Import String Ascii ZArith NArith Lia List Permutation Sorted.
From Stdlib Require Import Floats.PrimFloat.
From Stdlib Require Uint63.
From stdpp Require Import base decidable option list gmap.
Import ListNotations.

Local Open Scope N_scope.
Local Open Scope list_scope.
Set Warnings "-register-all".

(** ** Python strings *)

Module Py.

(** A code point, and a [str] as the sequence of its code points. *)
Abbreviation char := N (only parsing).
Abbreviation str := (list N) (only parsing).

(** String literals of the sources are written as UTF-8 text and
    decoded into code points. [utf8_go acc k bs] decodes the bytes [bs],
    [k] continuation bytes of the current code point (accumulated in
    [acc]) being still expected. *)
Fixpoint utf8_go (acc : N) (k : nat) (bs : list N) : str :=
  match bs with
  | [] => []
  | b :: bs' =>
      match k with
      | O =>
          if b <? 128 then b :: utf8_go 0 0 bs'
          else if b <? 224 then utf8_go (b - 192) 1 bs'
          else if b <? 240 then utf8_go (b - 224) 2 bs'
          else utf8_go (b - 240) 3 bs'
      | S O => (acc * 64 + (b - 128)) :: utf8_go 0 0 bs'
      | S k' => utf8_go (acc * 64 + (b - 128)) k' bs'
      end
  end.

Definition bytes_of (s : string) : list N :=
  map N_of_ascii (list_ascii_of_string s).

Definition u (s : string) : str := utf8_go 0 0 (bytes_of s).

(** Literals are compared by evaluation ([vm_compute]), never by
    unfolding the decoder during unification. *)
#[global] Opaque u.

(** [len(s)], [s == t], [not s]. *)
Definition len (s : str) : Z := Z.of_nat (length s).
Definition eqb (s t : str) : bool := bool_decide (s = t).
Definition is_empty (s : str) : bool :=
  match s with [] => true | _ => false end.
Definition truthy (s : str) : bool := negb (is_empty s).

(** [s.startswith(p)]. *)
Fixpoint startswith (s p : str) {struct p} : bool :=
  match p, s with
  | [], _ => true
  | _ :: _, [] => false
  | c :: p', d :: s' => (c =? d) && startswith s' p'
  end.

(** [x in s] for strings: [x] occurs in [s] as a substring. *)
Fixpoint contains (s x : str) : bool :=
  startswith s x ||
  match s with
  | [] => false
  | _ :: s' => contains s' x
  end.

(** [s.find(x)]: index of the first occurrence, [-1] when there is none. *)
Fixpoint find_from (i : Z) (s x : str) : Z :=
  if startswith s x then i
  else match s with
       | [] => (-1)%Z
       | _ :: s' => find_from (i + 1)%Z s' x
       end.
Definition find (s x : str) : Z := find_from 0%Z s x.

(** [s[a:b]] for non-negative bounds. *)
Definition slice (s : str) (a b : Z) : str :=
  firstn (Z.to_nat (b - a)) (skipn (Z.to_nat a) s).

(** [s.replace(old, new)]: every non-overlapping occurrence of [old],
    leftmost first.  [skip] counts the characters of a matched
    occurrence that are still to be dropped.  An empty [old] matches
    between any two characters and at both ends. *)
Fixpoint replace_go (old new : str) (skip : nat) (s : str) : str :=
  match s with
  | [] => []
  | c :: s' =>
      match skip with
      | S k => replace_go old new k s'
      | O =>
          if startswith s old
          then new ++ replace_go old new (length old - 1) s'
          else c :: replace_go old new 0 s'
      end
  end.

Definition replace (s old new : str) : str :=
  match old with
  | [] => new ++ flat_map (fun c => c :: new) s
  | _ => replace_go old new 0 s
  end.

(** [s.split(sep)] for a non-empty separator. *)
Fixpoint split_go (sep : str) (skip : nat) (cur : str) (s : str) : list str :=
  match s with
  | [] => [rev cur]
  | c :: s' =>
      match skip with
      | S k => split_go sep k cur s'
      | O =>
          if startswith s sep
          then rev cur :: split_go sep (length sep - 1) [] s'
          else split_go sep 0 (c :: cur) s'
      end
  end.

Definition split (s sep : str) : list str := split_go sep 0 [] s.

(** [l[i]] for a non-negative index, [None] standing for [IndexError]. *)
Definition index {A} (l : list A) (i : nat) : option A := nth_error l i.

(** [str(n)] for a natural number: its decimal digits. *)
Fixpoint digits_go (fuel : nat) (n : N) (acc : str) : str :=
  match fuel with
  | O => acc
  | S fuel' =>
      let acc' := (48 + n mod 10) :: acc in
      if n <? 10 then acc' else digits_go fuel' (n / 10) acc'
  end.
Definition str_of_N (n : N) : str := digits_go (S (N.to_nat n)) n [].

(** What depends on the Unicode character database of the interpreter:
    [str.lower], [str.title], and the character classes behind
    [str.strip], [str.isdigit] and [str.isalnum]. *)
Class Unicode := {
  lower : str -> str;
  title : str -> str;
  isspace : char -> bool;
  isdigit_char : char -> bool;
  isalnum_char : char -> bool
}.

Section WithUnicode.
Context `{Unicode}.

(** [s.strip()], [s.isdigit()]. *)
Fixpoint lstrip (s : str) : str :=
  match s with
  | [] => []
  | c :: s' => if isspace c then lstrip s' else s
  end.
Definition rstrip (s : str) : str := rev (lstrip (rev s)).
Definition strip (s : str) : str := rstrip (lstrip s).

Definition isdigit (s : str) : bool :=
  truthy s && forallb isdigit_char s.

End WithUnicode.

(** The database restricted to what the sources' own literals and the
    examples below exercise: ASCII letters and digits, and the
    whitespace code points.  It agrees with CPython on every string
    made of ASCII and CJK characters. *)
Definition ascii_lower_char (c : char) : char :=
  if (65 <=? c) && (c <=? 90) then c + 32 else c.
Definition ascii_is_alpha (c : char) : bool :=
  ((65 <=? c) && (c <=? 90)) || ((97 <=? c) && (c <=? 122)).
Definition ascii_is_digit (c : char) : bool := (48 <=? c) && (c <=? 57).
Fixpoint ascii_title_go (prev_cased : bool) (s : str) : str :=
  match s with
  | [] => []
  | c :: s' =>
      (if ascii_is_alpha c
       then if prev_cased then ascii_lower_char c
            else (if (97 <=? c) && (c <=? 122) then c - 32 else c)
       else c) :: ascii_title_go (ascii_is_alpha c) s'
  end.
Definition unicode_isspace (c : char) : bool :=
  ((9 <=? c) && (c <=? 13)) || ((28 <=? c) && (c <=? 32))
  || (c =? 133) || (c =? 160) || (c =? 5760)
  || ((8192 <=? c) && (c <=? 8202))
  || (c =? 8232) || (c =? 8233) || (c =? 8239) || (c =? 8287) || (c =? 12288).

#[global] Instance basic_unicode : Unicode := {|
  lower := map ascii_lower_char;
  title := ascii_title_go false;
  isspace := unicode_isspace;
  isdigit_char := ascii_is_digit;
  isalnum_char := fun c => ascii_is_alpha c || ascii_is_digit c
|}.

End Py.

Import Py.

(** ** Dynamic values and dictionaries *)

(** A value as [json.loads] produces it and as the result records hold
    it.  A [dict] keeps its keys in insertion order. *)
Inductive pyval : Type :=
| PNone
| PBool (b : bool)
| PInt (z : Z)
| PFloat (f : PrimFloat.float)
| PStr (s : str)
| PList (l : list pyval)
| PDict (d : list (str * pyval)).

Abbreviation dict := (list (str * pyval)) (only parsing).

(** [d.get(k)], [None] when the key is absent. *)
Fixpoint dict_get (d : dict) (k : str) : option pyval :=
  match d with
  | [] => None
  | (k', v) :: d' => if Py.eqb k' k then Some v else dict_get d' k
  end.

(** [d.get(k, default)]. *)
Definition dict_get_default (d : dict) (k : str) (default : pyval) : pyval :=
  match dict_get d k with Some v => v | None => default end.

(** [d[k] = v]: an existing key keeps its place. *)
Fixpoint dict_set (d : dict) (k : str) (v : pyval) : dict :=
  match d with
  | [] => [(k, v)]
  | (k', v') :: d' =>
      if Py.eqb k' k then (k, v) :: d' else (k', v') :: dict_set d' k v
  end.

(** Truth value of an object ([if x:], [not x]). *)
Definition is_true (v : pyval) : bool :=
  match v with
  | PNone => false
  | PBool b => b
  | PInt z => negb (z =? 0)%Z
  | PFloat f => negb (PrimFloat.eqb f PrimFloat.zero)
  | PStr s => Py.truthy s
  | PList l => match l with [] => false | _ => true end
  | PDict d => match d with [] => false | _ => true end
  end.

(** Truth value of an [Optional[dict]]. *)
Definition opt_dict_true (o : option dict) : bool :=
  match o with
  | Some (_ :: _) => true
  | _ => false
  end.

(** ** Exceptions, outcomes and the effect monad *)

(** The exceptions of the pipeline; all derive from [Exception].
    [ServiceError] stands for whatever an awaited collaborator raises
    (transport failure, provider error). *)
Inductive exn : Type :=
| ValueError (msg : str)
| UnboundLocalError (name : str)
| ServiceError (msg : str).

Inductive outcome (A : Type) : Type :=
| Return (a : A)
| Raised (e : exn).
Arguments Return {A} a.
Arguments Raised {A} e.

(** An HTTP response: [resp.status_code] and [resp.text]. *)
Record response : Type := { status_code : Z; text : str }.

(** A language-model configuration is opaque to the plugin. *)
Abbreviation model_config := N (only parsing).

(** One awaited call of a collaborator together with what it gave. *)
Inductive event : Type :=
| EvDdgs (query : str) (r : outcome (list (str * str)))
| EvModels (r : outcome (list (str * model_config)))
| EvGenerate (prompt : str) (cfg : model_config) (r : outcome (bool * str))
| EvGet (url : str) (params : list (str * str)) (r : outcome response).

(** The collaborators, over a state [W] of the outside world:
    - [load_alias]: [utils.load_alias], the content of [data/alias.json]
      ([{}] when the file is missing or unreadable);
    - [ddgs_text]: [DDGS(proxy).text(query, region, max_results=20)], the
      (title, body) pairs of the hits;
    - [get_available_models], [generate_with_model]: the [llm_api] of
      the host; the latter gives [(success, response)];
    - [client_get]: [httpx.AsyncClient.get(url, params=...)]. *)
Class Services (W : Type) : Type := {
  load_alias : W -> gmap str str;
  ddgs_text : str -> W -> outcome (list (str * str)) * W;
  get_available_models : W -> outcome (list (str * model_config)) * W;
  generate_with_model : str -> model_config -> W -> outcome (bool * str) * W;
  client_get : str -> list (str * str) -> W -> outcome response * W
}.

Section Monad.
Context {W : Type}.

(** A computation: from the world to an outcome, the new world and the
    calls it made, oldest first. *)
Definition M (A : Type) : Type := W -> outcome A * W * list event.

Definition ret {A} (a : A) : M A := fun w => (Return a, w, []).
Definition raise {A} (e : exn) : M A := fun w => (Raised e, w, []).

Definition bind {A B} (m : M A) (k : A -> M B) : M B :=
  fun w =>
    match m w with
    | (Return a, w1, t1) =>
        match k a w1 with (r, w2, t2) => (r, w2, t1 ++ t2) end
    | (Raised e, w1, t1) => (Raised e, w1, t1)
    end.

(** [try: m except Exception as e: h e]. *)
Definition try_except {A} (m : M A) (h : exn -> M A) : M A :=
  fun w =>
    match m w with
    | (Return a, w1, t1) => (Return a, w1, t1)
    | (Raised e, w1, t1) =>
        match h e w1 with (r, w2, t2) => (r, w2, t1 ++ t2) end
    end.

(** An awaited call: run it on the world and record it. *)
Definition call {A} (f : W -> outcome A * W) (ev : outcome A -> event) : M A :=
  fun w => match f w with (r, w') => (r, w', [ev r]) end.

Definition result_of {A} (x : outcome A * W * list event) : outcome A := x.1.1.

(** The record a run returned, if it returned one. *)
Definition result_of_return {A} (x : outcome (option A) * W * list event) : option A :=
  match x.1.1 with
  | Return (Some a) => Some a
  | _ => None
  end.
Definition trace_of {A} (x : outcome A * W * list event) : list event := x.2.

End Monad.

Declare Scope py_scope.
Delimit Scope py_scope with py.
Notation "x <- m ;; k" := (bind m (fun x => k))
  (at level 100, m at next level, right associativity) : py_scope.
Local Open Scope py_scope.

(** ** Parsing libraries *)

(** What [bgg_thing_details_api] reads off the [<item type='boardgame'>]
    node of a detail response, one field per key of the record it
    returns.  [tf_name] is [None] when the primary name node has no
    [value] attribute. *)
Record thing_fields : Type := {
  tf_name : option str;
  tf_year : str;
  tf_description : str;
  tf_min_players : str;
  tf_max_players : str;
  tf_min_time : str;
  tf_max_time : str;
  tf_min_age : str;
  tf_users_rated : str;
  tf_average : str;
  tf_avg_weight : str;
  tf_rank : str;
  tf_strategy_rank : str;
  tf_image : str;
  tf_categories : list str;
  tf_mechanics : list str;
  tf_best_numplayers : str;
  tf_language_dependence : str
}.

(** The parsers the clients call, as functions of the text parsed:
    - [et_items_v2]: [ET.fromstring] and, for every
      [.//item[@type='boardgame']], its [id] attribute and the [value]
      of its primary name ([""] for what is absent); [None] is
      [ET.ParseError];
    - [et_items_v1]: the same for the [boardgame] children, [objectid]
      and the text of the primary name;
    - [et_thing]: the fields of the detail item; [None] when the
      document does not parse, has no boardgame item, or a field
      conversion raises;
    - [soup_anchors]: [soup.find_all("a", href=True)] as (href, text);
    - [soup_scripts]: [script.string or ""] of every [script] element;
    - [soup_ld_json]: the [string] of the first
      [script type="application/ld+json"], if there is such an element;
    - [json_loads]: [json.loads], [None] being [JSONDecodeError];
    - [float_of_str]: [float(s)], [None] being [ValueError];
    - [format_2f]: [f"{x:.2f}"];
    - [py_str]: [str(v)];
    - [html_unescape]: [html.unescape];
    - [status_raises]: whether [resp.raise_for_status()] raises for
      the status code. *)
Class Libs : Type := {
  et_items_v2 : str -> option (list (str * str));
  et_items_v1 : str -> option (list (str * str));
  et_thing : str -> option thing_fields;
  soup_anchors : str -> list (str * str);
  soup_scripts : str -> list str;
  soup_ld_json : str -> option (option str);
  json_loads : str -> option pyval;
  float_of_str : str -> option PrimFloat.float;
  format_2f : PrimFloat.float -> str;
  py_str : pyval -> str;
  html_unescape : str -> str;
  status_raises : Z -> bool
}.

(** ** utils.py: endpoints *)

Definition BGG_API_SEARCH_V2 : str := u "https://boardgamegeek.com/xmlapi2/search".
Definition BGG_API_SEARCH_V1 : str := u "https://boardgamegeek.com/xmlapi/search".
Definition BGG_API_THING : str := u "https://boardgamegeek.com/xmlapi2/thing".
Definition BGG_SEARCH_URL : str := u "https://boardgamegeek.com/geeksearch.php".
Definition BGG_BASE_URL : str := u "https://boardgamegeek.com".

(** ** bgg_client.py: scoring and ranking *)

(** A scored search result: the record
    [{"id": .., "name": .., "score": .., "source": ..}]. *)
Record scored : Type := {
  sc_id : str;
  sc_name : str;
  sc_score : Z;
  sc_source : str
}.

(** The markers of [is_likely_primary] and the edition suffixes it
    removes, in the order of the source. *)
Definition NON_PRIMARY_MARKERS : list str :=
  [u "promo"; u "expansion"; u "exp."; u " – "; u ": "; u " - "].

Definition EDITION_SUFFIXES : list str :=
  [u ": second edition";
   u " – second edition";
   u ": 2nd edition";
   u " – 2nd edition";
   u ": 3rd edition";
   u " – 3rd edition";
   u " (second edition)";
   u " (3rd edition)"].

Section Scoring.
Context `{Unicode}.

(** [for suffix in (...): name_stripped = name_stripped.replace(suffix, "")]. *)
Definition strip_editions (name_lower : str) : str :=
  fold_left (fun name_stripped suffix => replace name_stripped suffix [])
            EDITION_SUFFIXES name_lower.

(** [is_likely_primary(name, query)], the score accumulated statement
    by statement. *)
Definition is_likely_primary (name query : str) : Z :=
  let score := 0%Z in
  let name_lower := lower name in
  let query_lower := lower query in
  let score :=
    if Py.eqb name_lower query_lower then (score + 100)%Z
    else if startswith name_lower query_lower then (score + 80)%Z
    else score in
  let score :=
    if existsb (fun x => contains name_lower x) NON_PRIMARY_MARKERS
    then (score - 50)%Z else score in
  let name_stripped := strip_editions name_lower in
  let score :=
    if Py.eqb name_stripped query_lower || startswith name_stripped query_lower
    then (score + 70)%Z else score in
  score.

(** The loop of [collect_from_api2] / [collect_from_api1] over the
    parsed items: [if it_id and name: items_with_score.append(...)]. *)
Definition collect_items (source : str) (query : str)
    (items : list (str * str)) : list scored :=
  flat_map (fun it =>
    let it_id := it.1 in
    let name := it.2 in
    if Py.truthy it_id && Py.truthy name
    then [{| sc_id := it_id; sc_name := name;
             sc_score := is_likely_primary name query;
             sc_source := source |}]
    else []) items.

End Scoring.

(** [sorted(candidates, key=lambda x: x["score"], reverse=True)]:
    [insert_desc x l] puts [x] in front of the first element whose
    score does not exceed its own. *)
Fixpoint insert_desc (x : scored) (l : list scored) : list scored :=
  match l with
  | [] => [x]
  | y :: l' =>
      if (sc_score y <=? sc_score x)%Z then x :: y :: l'
      else y :: insert_desc x l'
  end.

Definition sorted_by_score_desc (l : list scored) : list scored :=
  fold_right insert_desc [] l.

(** ** bgg_client.py: the player-count poll of a detail item *)

(** A [results] node of the poll [suggested_numplayers]:
    [result_node.get("numplayers", "")], and for its
    [.//result[@value='Best']], when there is one,
    [best_result.get("numvotes", "0")]. *)
Record results_node : Type := {
  rn_numplayers : str;
  rn_best_numvotes : option str
}.

Section Polls.
(** [int(s)]; [None]: [ValueError]. *)
Variable int_of_str : str -> option Z.

(** [int(best_result.get("numvotes", "0") or "0")]. *)
Definition numvotes_of (numvotes_attr : str) : option Z :=
  int_of_str (if Py.truthy numvotes_attr then numvotes_attr else u "0").

(** The loop over the [results] nodes, from the state
    [(best_votes, best_numplayers)]; [None]: a conversion raised. *)
Fixpoint best_loop (nodes : list results_node) (best_votes : Z) (best_numplayers : str)
    : option (Z * str) :=
  match nodes with
  | [] => Some (best_votes, best_numplayers)
  | result_node :: rest =>
      let numplayers := rn_numplayers result_node in
      match rn_best_numvotes result_node with
      | None => best_loop rest best_votes best_numplayers
      | Some attr =>
          match numvotes_of attr with
          | None => None
          | Some numvotes =>
              if (numvotes >? best_votes)%Z
              then best_loop rest numvotes numplayers
              else best_loop rest best_votes best_numplayers
          end
      end
  end.

(** [best_numplayers] as [bgg_thing_details_api] computes it from the
    poll, [None] for the poll when the item has none; the result is
    [None] when a conversion raised, which the function's handler turns
    into its own [None]. *)
Definition best_numplayers_of (best_poll : option (list results_node)) : option str :=
  match best_poll with
  | None => Some []
  | Some nodes => option_map snd (best_loop nodes 0 [])
  end.

(** The Best votes of a node, when it has a Best result whose votes
    convert. *)
Definition best_votes_of (node : results_node) : option Z :=
  match rn_best_numvotes node with
  | None => None
  | Some attr => numvotes_of attr
  end.

End Polls.

(** ** bgg_client.py: the structured client *)

Section StructuredClient.
Context `{Unicode} `{Libs} {W : Type} `{Services W}.

(** [await client.get(url, params=params, ...)]. *)
Definition get (url : str) (params : list (str * str)) : M (W:=W) response :=
  call (client_get url params) (EvGet url params).

(** The record [bgg_thing_details_api] returns for an item. *)
Definition thing_record (game_id : str) (f : thing_fields) : dict :=
  [ (u "bgg_id", PStr game_id);
    (u "name", match tf_name f with Some n => PStr n | None => PNone end);
    (u "year", PStr (tf_year f));
    (u "description", PStr (tf_description f));
    (u "min_players", PStr (tf_min_players f));
    (u "max_players", PStr (tf_max_players f));
    (u "min_time", PStr (tf_min_time f));
    (u "max_time", PStr (tf_max_time f));
    (u "min_age", PStr (tf_min_age f));
    (u "users_rated", PStr (tf_users_rated f));
    (u "average", PStr (tf_average f));
    (u "avg_weight", PStr (tf_avg_weight f));
    (u "rank", PStr (tf_rank f));
    (u "strategy_rank", PStr (tf_strategy_rank f));
    (u "image", PStr (tf_image f));
    (u "bgg_url", PStr (u "https://boardgamegeek.com/boardgame/" ++ game_id));
    (u "categories", PList (map PStr (tf_categories f)));
    (u "mechanics", PList (map PStr (tf_mechanics f)));
    (u "best_numplayers", PStr (tf_best_numplayers f));
    (u "language_dependence", PStr (tf_language_dependence f)) ].

(** What [bgg_thing_details_api] makes of a response. *)
Definition thing_of_response (game_id : str) (resp : response) : option dict :=
  if negb (status_code resp =? 200)%Z then None
  else match et_thing (text resp) with
       | None => None
       | Some f => Some (thing_record game_id f)
       end.

(** [bgg_thing_details_api(game_id, client)]: every exception is caught
    and gives [None]. *)
Definition bgg_thing_details_api (game_id : str) : M (W:=W) (option dict) :=
  try_except
    (resp <- get BGG_API_THING [(u "id", game_id); (u "stats", u "1")] ;;
     ret (thing_of_response game_id resp))
    (fun _ => ret None).

(** [for cand in candidates: details = await bgg_thing_details_api(..);
    if details: return game_id]. [None]: the loop ran to its end. *)
Fixpoint probe (candidates : list scored) : M (W:=W) (option str) :=
  match candidates with
  | [] => ret None
  | cand :: rest =>
      let game_id := sc_id cand in
      details <- bgg_thing_details_api game_id ;;
      if opt_dict_true details then ret (Some game_id) else probe rest
  end.

Definition collect_from_api2 (body query : str) : list scored :=
  match et_items_v2 body with
  | None => []
  | Some items => collect_items (u "V2") query items
  end.

Definition collect_from_api1 (body query : str) : list scored :=
  match et_items_v1 body with
  | None => []
  | Some items => collect_items (u "V1") query items
  end.

(** One tier of [bgg_search_api_by_name]: the body of its [try], from
    the request to the probing loop.  [None]: the tier returned
    nothing and control falls through to what follows it. *)
Definition search_tier (url : str) (params : list (str * str))
    (collect : str -> list scored) : M (W:=W) (option str) :=
  try_except
    (resp <- get url params ;;
     if (status_code resp =? 200)%Z then
       let candidates := collect (text resp) in
       match candidates with
       | [] => ret None
       | _ => probe (sorted_by_score_desc candidates)
       end
     else ret None)
    (fun _ => ret None).

(** [bgg_search_api_by_name(query, client)]. *)
Definition bgg_search_api_by_name (query : str) : M (W:=W) (option str) :=
  r2 <- search_tier BGG_API_SEARCH_V2
          [(u "query", query); (u "type", u "boardgame")]
          (fun body => collect_from_api2 body query) ;;
  match r2 with
  | Some game_id => ret (Some game_id)
  | None =>
      r1 <- search_tier BGG_API_SEARCH_V1 [(u "search", query)]
              (fun body => collect_from_api1 body query) ;;
      match r1 with
      | Some game_id => ret (Some game_id)
      | None => ret None
      end
  end.

End StructuredClient.

(** ** web_client.py: the scraping client *)

(** Operations on dynamic values inside the [try] of
    [bgg_thing_details]; [None] stands for the exception the operation
    raises on a value of the wrong type, which the enclosing handler
    turns into "no result". *)
Definition py_get (v : pyval) (k : str) (default : pyval) : option pyval :=
  match v with
  | PDict d => Some (dict_get_default d k default)
  | _ => None
  end.

Definition py_index (v : pyval) (i : nat) : option pyval :=
  match v with
  | PList l => nth_error l i
  | PStr s => match nth_error s i with Some c => Some (PStr [c]) | None => None end
  | _ => None
  end.

Definition py_len (v : pyval) : option Z :=
  match v with
  | PList l => Some (Z.of_nat (length l))
  | PStr s => Some (len s)
  | PDict d => Some (Z.of_nat (length d))
  | _ => None
  end.

(** The elements a [for] loop over the value visits. *)
Definition py_iter (v : pyval) : option (list pyval) :=
  match v with
  | PList l => Some l
  | PStr s => Some (map (fun c => PStr [c]) s)
  | PDict d => Some (map (fun kv => PStr kv.1) d)
  | _ => None
  end.

Definition py_eq_str (v : pyval) (s : str) : bool :=
  match v with
  | PStr t => Py.eqb t s
  | _ => false
  end.

(** The record [{"id": .., "name": .., "url": ..}] of a search hit. *)
Record search_hit : Type := {
  hit_id : str;
  hit_name : str;
  hit_url : str
}.

Section ScrapingClient.
Context `{Unicode} `{Libs} {W : Type} `{Services W}.

(** The anchor loop of [bgg_search_by_name]: the first anchor whose
    href names a game page with a numeric id gives
    [(bgg_id, game_name, game_link)]. *)
Fixpoint first_game_anchor (anchors : list (str * str)) : option (str * str * str) :=
  match anchors with
  | [] => None
  | (href, a_text) :: rest =>
      if contains href (u "/boardgame/")
         && negb (contains href (u "/boardgamegame"))
         && negb (contains href (u "/boardgameexpansion"))
      then
        let parts := split href (u "/") in
        if (3 <=? Z.of_nat (length parts))%Z then
          match Py.index parts 2 with
          | Some potential_id =>
              if isdigit potential_id then
                let game_name := strip a_text in
                let game_name :=
                  if Py.is_empty game_name && (3 <? Z.of_nat (length parts))%Z
                  then match Py.index parts 3 with
                       | Some slug => title (replace slug (u "-") (u " "))
                       | None => game_name
                       end
                  else game_name in
                Some (potential_id, game_name, href)
              else first_game_anchor rest
          | None => first_game_anchor rest
          end
        else first_game_anchor rest
      else first_game_anchor rest
  end.

(** What [bgg_search_by_name] makes of the page it fetched. *)
Definition hit_of_page (page : str) : option search_hit :=
  match first_game_anchor (soup_anchors page) with
  | None => None
  | Some (bgg_id, game_name, game_link) =>
      let game_link :=
        if startswith game_link (u "/") then BGG_BASE_URL ++ game_link
        else game_link in
      Some {| hit_id := bgg_id; hit_name := game_name; hit_url := game_link |}
  end.

(** What the scraping search makes of the outcome of its request: a
    transport error, a status [raise_for_status] rejects and a page
    without a game anchor all give [None]. *)
Definition hit_of_outcome (r : outcome response) : option search_hit :=
  match r with
  | Raised _ => None
  | Return resp =>
      if status_raises (status_code resp) then None
      else hit_of_page (text resp)
  end.

Definition web_search_params (query : str) : list (str * str) :=
  [(u "action", u "search"); (u "q", query); (u "objecttype", u "boardgame")].

(** [bgg_search_by_name(query, client)]. *)
Definition bgg_search_by_name (query : str) : M (W:=W) (option search_hit) :=
  try_except
    (resp <- get BGG_SEARCH_URL (web_search_params query) ;;
     if status_raises (status_code resp)
     then raise (ServiceError (u "raise_for_status"))
     else ret (hit_of_page (text resp)))
    (fun _ => ret None).

(** The script loop of [bgg_thing_details]: the JSON between the two
    markers of the first script that has both and whose slice parses. *)
Fixpoint find_script_data (scripts : list str) : option pyval :=
  match scripts with
  | [] => None
  | script_text :: rest =>
      if contains script_text (u "GEEK.geekitemPreload")
         && contains script_text (u "GEEK.geekitemSettings")
      then
        let start := (find script_text (u "GEEK.geekitemPreload = ")
                      + len (u "GEEK.geekitemPreload = "))%Z in
        let end_ := (find script_text (u "GEEK.geekitemSettings = ") - 3)%Z in
        if (0 <? start)%Z && (start <? end_)%Z then
          match json_loads (slice script_text start end_) with
          | Some v => Some v
          | None => find_script_data rest
          end
        else find_script_data rest
      else find_script_data rest
  end.

(** [avgweight_str] as computed from [stats.get("avgweight", "0")]. *)
Definition avgweight_str (avgweight : pyval) : str :=
  match avgweight with
  | PStr s =>
      if Py.truthy s then
        match float_of_str s with
        | Some avgweight_val => format_2f avgweight_val
        | None => u "N/A"
        end
      else u "N/A"
  | _ => u "N/A"
  end.

(** [html.unescape(d or "")] on a dynamic value: the function tests
    ['&' not in s] first and gives [s] back unchanged when the test
    succeeds, so a list or a dictionary without ["&"] passes through;
    any other value that is not a string raises. *)
Definition unescape_val (d : pyval) : option pyval :=
  if negb (is_true d) then Some (PStr (html_unescape []))
  else match d with
       | PStr s => Some (PStr (html_unescape s))
       | PList l =>
           if existsb (fun x => py_eq_str x (u "&")) l then None else Some d
       | PDict kv =>
           if existsb (fun x => Py.eqb x.1 (u "&")) kv then None else Some d
       | _ => None
       end.

(** The linked-data block: [(game_name_en, game_image, description)]. *)
Definition ld_fields (page : str) : option (pyval * pyval * pyval) :=
  match soup_ld_json page with
  | None => Some (PStr [], PStr [], PStr [])
  | Some None => None
  | Some (Some ld_text) =>
      match json_loads ld_text with
      | None => Some (PStr [], PStr [], PStr [])
      | Some ld_data =>
          game_name_en ← py_get ld_data (u "name") (PStr []);
          game_image ← py_get ld_data (u "image") (PStr []);
          d ← py_get ld_data (u "description") (PStr []);
          description ← unescape_val d;
          Some (game_name_en, game_image, description)
      end
  end.

(** The loop over [item.get("links", [])]: [(categories, mechanics)]. *)
Fixpoint collect_links (links : list pyval) : list pyval * list pyval :=
  match links with
  | [] => ([], [])
  | link :: rest =>
      let '(categories, mechanics) := collect_links rest in
      match link with
      | PDict d =>
          let link_type := dict_get_default d (u "type") (PStr []) in
          let link_name := dict_get_default d (u "name") (PStr []) in
          if py_eq_str link_type (u "boardgamecategory")
          then (link_name :: categories, mechanics)
          else if py_eq_str link_type (u "boardgamemechanic")
          then (categories, link_name :: mechanics)
          else (categories, mechanics)
      | _ => (categories, mechanics)
      end
  end.

(** What [bgg_thing_details] makes of the page it fetched. *)
Definition details_of_page (game_url search_name page : str) : option dict :=
  script_data ← find_script_data (soup_scripts page);
  if negb (is_true script_data) then None else
  item ← py_get script_data (u "item") (PDict []);
  stats ← py_get item (u "stats") (PDict []);
  rank_info ← py_get item (u "rankinfo") (PList []);
  overall_rank ← (if is_true rank_info
                  then r0 ← py_index rank_info 0; py_get r0 (u "rank") PNone
                  else Some (PStr (u "N/A")));
  n ← py_len rank_info;
  strategy_rank ← (if (1 <? n)%Z
                   then r1 ← py_index rank_info 1; py_get r1 (u "rank") PNone
                   else Some (PStr (u "N/A")));
  '(game_name_en, game_image, description) ← ld_fields page;
  let game_name_en :=
    if negb (is_true game_name_en) && Py.truthy search_name
    then PStr search_name else game_name_en in
  avgweight ← py_get stats (u "avgweight") (PStr (u "0"));
  item_links ← py_get item (u "links") (PList []);
  links ← py_iter item_links;
  let '(categories, mechanics) := collect_links links in
  objectid ← py_get item (u "objectid") (PStr []);
  yearpublished ← py_get item (u "yearpublished") (PStr []);
  minplayers ← py_get item (u "minplayers") (PStr (u "?"));
  maxplayers ← py_get item (u "maxplayers") (PStr (u "?"));
  minplaytime ← py_get item (u "minplaytime") (PStr (u "?"));
  maxplaytime ← py_get item (u "maxplaytime") (PStr (u "?"));
  minage ← py_get item (u "minage") (PStr (u "?"));
  Some [ (u "bgg_id", PStr (py_str objectid));
         (u "name", game_name_en);
         (u "year", PStr (py_str yearpublished));
         (u "description", description);
         (u "min_players", PStr (py_str minplayers));
         (u "max_players", PStr (py_str maxplayers));
         (u "min_time", PStr (py_str minplaytime));
         (u "max_time", PStr (py_str maxplaytime));
         (u "min_age", PStr (py_str minage));
         (u "users_rated", PStr (u "0"));
         (u "average", PStr (u "0"));
         (u "avg_weight", PStr (avgweight_str avgweight));
         (u "rank", PStr (py_str overall_rank));
         (u "strategy_rank", PStr (py_str strategy_rank));
         (u "image", game_image);
         (u "bgg_url", PStr game_url);
         (u "categories", PList categories);
         (u "mechanics", PList mechanics);
         (u "best_numplayers", PStr []);
         (u "language_dependence", PStr []) ].

(** [bgg_thing_details(game_url, client, search_name)]. *)
Definition bgg_thing_details (game_url search_name : str) : M (W:=W) (option dict) :=
  try_except
    (resp <- get game_url [] ;;
     if status_raises (status_code resp)
     then raise (ServiceError (u "raise_for_status"))
     else ret (details_of_page game_url search_name (text resp)))
    (fun _ => ret None).

End ScrapingClient.

(** ** ddg_client.py: candidate extraction by web search and language model *)

(** The two [return] statements of [fetch_english_candidates_from_ddg]:
    [return []] and [return unique_candidates, cn_name]. *)
Inductive ddg_return : Type :=
| BareList
| Pair (unique_candidates : list str) (cn_name : str).

Definition nl : str := [10].

Definition COMMON_TERMS_TO_FILTER : list str :=
  [u "tabletop game"; u "board game"; u "boardgame"; u "card game";
   u "dice game"; u "party game"; u "strategy game"; u "family game";
   u "game"; u "tabletop"].

Definition PROMPT_HEAD : str :=
  u "从以下搜索结果中提取桌游的英文名称。" ++ nl ++
  u "注意：" ++ nl ++
  u "1. 请提取具体的桌游名称，不要提取通用词汇（如'tabletop game'、'board game'等）" ++ nl ++
  u "2. 优先从标题中提取，标题无英文则检查摘要" ++ nl ++
  u "3. 英文名称通常包含多个单词，不是单个通用词" ++ nl ++
  u "4. 忽略搜索结果中的广告、无关内容" ++ nl ++
  u "5. 同时提取中文名称" ++ nl ++
  nl ++
  u "输出格式（严格按照此格式）：" ++ nl ++
  u "中文名：[中文名称]" ++ nl ++
  u "英文名：[英文名称]" ++ nl ++
  nl ++
  u "搜索结果如下：" ++ nl ++ nl.

(** [for idx, r in enumerate(results): prompt += ...]. *)
Fixpoint prompt_results (idx : N) (results : list (str * str)) : str :=
  match results with
  | [] => []
  | (r_title, r_body) :: rest =>
      (u "结果 " ++ str_of_N (idx + 1) ++ u ":" ++ nl ++
       u "标题：" ++ r_title ++ nl ++
       u "摘要：" ++ slice r_body 0 200 ++ u "..." ++ nl ++ nl)
      ++ prompt_results (idx + 1) rest
  end.

Definition build_prompt (results : list (str * str)) : str :=
  PROMPT_HEAD ++ prompt_results 0 results.

(** [models[key]] and [key in models] on the ordered dictionary of
    available models. *)
Fixpoint models_get (models : list (str * model_config)) (key : str)
    : option model_config :=
  match models with
  | [] => None
  | (name, conf) :: rest =>
      if Py.eqb name key then Some conf else models_get rest key
  end.

(** The fallback loop:
    [for name, conf in models.items(): if name != "replay": model_config = conf; break]. *)
Fixpoint fallback_model (models : list (str * model_config))
    : option (str * model_config) :=
  match models with
  | [] => None
  | (name, conf) :: rest =>
      if negb (Py.eqb name (u "replay")) then Some (name, conf)
      else fallback_model rest
  end.

(** The model selection; [None]: [model_config] was never assigned. *)
Definition select_model (models : list (str * model_config))
    : option model_config :=
  let target_key := u "utils" in
  match models_get models target_key with
  | Some conf => Some conf
  | None => option_map snd (fallback_model models)
  end.

(** The de-duplication loop, [seen] being the names already kept. *)
Fixpoint unique_go (seen : list str) (names : list str) : list str :=
  match names with
  | [] => []
  | name :: rest =>
      if existsb (Py.eqb name) seen then unique_go seen rest
      else name :: unique_go (name :: seen) rest
  end.

Section Extraction.
Context `{Unicode}.

(** [[line.strip() for line in llm_response.split("\n") if line.strip()]]. *)
Definition response_lines (llm_response : str) : list str :=
  flat_map (fun line => if Py.truthy (strip line) then [strip line] else [])
           (split llm_response nl).

(** The test an extracted English name has to pass. *)
Definition keep_en_name (en_name : str) : bool :=
  let en_name_lower := strip (lower en_name) in
  negb (existsb (Py.eqb en_name_lower) COMMON_TERMS_TO_FILTER)
  && (3 <=? len en_name)%Z
  && negb (startswith en_name_lower (u "http")).

(** The loop over the lines, from the state [(cn_name, en_candidates)]. *)
Fixpoint parse_lines (lines : list str) (cn_name : str) (en_candidates : list str)
    : str * list str :=
  match lines with
  | [] => (cn_name, en_candidates)
  | line :: rest =>
      if startswith line (u "中文名：") then
        parse_lines rest (strip (replace line (u "中文名：") [])) en_candidates
      else if startswith line (u "英文名：") then
        let en_name := strip (replace line (u "英文名：") []) in
        if Py.truthy en_name && keep_en_name en_name
        then parse_lines rest cn_name (en_candidates ++ [en_name])
        else parse_lines rest cn_name en_candidates
      else parse_lines rest cn_name en_candidates
  end.

(** From the model's answer to the end of the function. *)
Definition extract_from_response (success : bool) (llm_response : str)
    : outcome ddg_return :=
  if negb success || negb (Py.truthy llm_response)
     || negb (Py.truthy (strip llm_response))
  then Raised (ValueError (u "LLM生成失败或返回空结果"))
  else
    let '(cn_name, en_candidates) := parse_lines (response_lines llm_response) [] [] in
    match en_candidates with
    | [] => Raised (ValueError (u "LLM未提取到有效英文名"))
    | _ => Return (Pair (unique_go [] en_candidates) cn_name)
    end.

Context {W : Type} `{Services W}.

(** [fetch_english_candidates_from_ddg(keyword, proxy)].  The handler
    of its [try] logs and re-raises, so it changes no outcome. *)
Definition fetch_english_candidates_from_ddg (keyword : str)
    : M (W:=W) ddg_return :=
  try_except
    (let search_query := keyword ++ u "的英文名是什么" in
     results <- call (ddgs_text search_query) (EvDdgs search_query) ;;
     models <- call get_available_models EvModels ;;
     match models with
     | [] => ret BareList
     | _ =>
         match select_model models with
         | None => raise (UnboundLocalError (u "model_config"))
         | Some model_config =>
             let prompt := build_prompt results in
             r <- call (generate_with_model prompt model_config)
                       (EvGenerate prompt model_config) ;;
             match extract_from_response r.1 r.2 with
             | Return v => ret v
             | Raised e => raise e
             end
         end
     end)
    (fun e => raise e).

End Extraction.

(** ** bgg_client.py: the resolver *)

(** The provenance a record is tagged with. *)
Definition name_source (from_alias : bool) : str :=
  if from_alias then u "词典" else u "DDG+AI".

Definition source_api (from_alias : bool) : str :=
  if from_alias then u "词典→BGG_API" else u "DDG+AI→BGG_API".
Definition source_llm_only (from_alias : bool) : str :=
  if from_alias then u "词典→仅LLM" else u "DDG+AI→仅LLM".
Definition source_scraped (from_alias : bool) : str :=
  if from_alias then u "词典→网页抓取" else u "DDG+AI→网页抓取".
Definition source_web_search (from_alias : bool) : str :=
  if from_alias then u "词典→网页搜索" else u "DDG+AI→网页搜索".

(** The assignments made to a detail record before it is returned. *)
Definition tag_details (details : dict) (final_query cn_name : str)
    (source : str) (from_alias : bool) (bgg_source : str) : dict :=
  let details := dict_set details (u "_final_query") (PStr final_query) in
  let details := dict_set details (u "cn_name") (PStr cn_name) in
  let details := dict_set details (u "_source") (PStr source) in
  let details := dict_set details (u "_name_source") (PStr (name_source from_alias)) in
  dict_set details (u "_bgg_source") (PStr bgg_source).

(** The record returned when no scraping search gave a hit. *)
Definition failure_no_hit (candidates : list str) (extracted_cn_name : str)
    (from_alias : bool) : dict :=
  [ (u "name", PStr (match candidates with c :: _ => c | [] => [] end));
    (u "cn_name", PStr extracted_cn_name);
    (u "bgg_failed", PBool true);
    (u "_source", PStr (source_llm_only from_alias));
    (u "_name_source", PStr (name_source from_alias));
    (u "_bgg_source", PStr (u "仅LLM")) ].

(** The record returned when a hit was found and its page gave nothing. *)
Definition failure_hit_only (search_result : search_hit) (extracted_cn_name : str)
    (from_alias : bool) : dict :=
  [ (u "name", PStr (hit_name search_result));
    (u "bgg_id", PStr (hit_id search_result));
    (u "cn_name", PStr extracted_cn_name);
    (u "bgg_url", PStr (hit_url search_result));
    (u "bgg_failed", PBool true);
    (u "_source", PStr (source_web_search from_alias));
    (u "_name_source", PStr (name_source from_alias));
    (u "_bgg_source", PStr (u "网页搜索")) ].

Section Resolver.
Context `{Unicode} `{Libs} {W : Type} `{Services W}.

(** The candidates read off the alias entry [raw]:
    [[c.strip() for c in raw.split("|") if c.strip()]]. *)
Definition alias_candidates (raw : str) : list str :=
  flat_map (fun c => if Py.truthy (strip c) then [strip c] else [])
           (split raw (u "|")).

(** Candidate extraction, the head of [resolve_boardgame_by_cn_name] up
    to the test of the candidate list:
    [(candidates, from_alias, extracted_cn_name)].  Unpacking the
    extractor's return value into two names raises [ValueError] on the
    bare list. *)
Definition extract_candidates (cn_name : str) : M (W:=W) (list str * bool * str) :=
  fun w =>
    let alias_dict := load_alias w in
    let raw := strip (default [] (alias_dict !! cn_name)) in
    let '(candidates, from_alias) :=
      if Py.truthy raw then (alias_candidates raw, true) else ([], false) in
    let extracted_cn_name := cn_name in
    match candidates with
    | [] =>
        (r <- fetch_english_candidates_from_ddg (cn_name ++ u " 桌游") ;;
         match r with
         | Pair ddg_candidates extracted_cn_name =>
             ret (candidates ++ ddg_candidates, from_alias, extracted_cn_name)
         | BareList =>
             raise (ValueError (u "not enough values to unpack (expected 2, got 0)"))
         end) w
    | _ => ret (candidates, from_alias, extracted_cn_name) w
    end.

(** The first loop: every candidate against the structured API.
    [None]: the loop ran to its end without returning. *)
Fixpoint api_loop (candidates : list str) (from_alias : bool)
    (extracted_cn_name : str) : M (W:=W) (option dict) :=
  match candidates with
  | [] => ret None
  | q :: rest =>
      r <- try_except
             (game_id <- bgg_search_api_by_name q ;;
              match game_id with
              | Some game_id =>
                  if Py.truthy game_id then
                    details <- bgg_thing_details_api game_id ;;
                    match details with
                    | Some d =>
                        if opt_dict_true details
                        then ret (Some (tag_details d q extracted_cn_name
                                          (source_api from_alias) from_alias
                                          (u "BGG_API")))
                        else ret None
                    | None => ret None
                    end
                  else ret None
              | None => ret None
              end)
             (fun _ => ret None) ;;
      match r with
      | Some details => ret (Some details)
      | None => api_loop rest from_alias extracted_cn_name
      end
  end.

(** The second loop: the scraping search, broken at the first hit;
    [(search_result, final_query)]. *)
Fixpoint scrape_loop (candidates : list str) : M (W:=W) (option (search_hit * str)) :=
  match candidates with
  | [] => ret None
  | q :: rest =>
      result <- bgg_search_by_name q ;;
      match result with
      | Some search_result => ret (Some (search_result, q))
      | None => scrape_loop rest
      end
  end.

(** The resolver from the candidate list on. *)
Definition resolve_candidates (candidates : list str) (from_alias : bool)
    (extracted_cn_name : str) : M (W:=W) (option dict) :=
  match candidates with
  | [] => ret None
  | _ =>
      r <- api_loop candidates from_alias extracted_cn_name ;;
      match r with
      | Some details => ret (Some details)
      | None =>
          found <- scrape_loop candidates ;;
          match found with
          | None =>
              ret (Some (failure_no_hit candidates extracted_cn_name from_alias))
          | Some (search_result, final_query) =>
              details <- bgg_thing_details (hit_url search_result)
                                           (hit_name search_result) ;;
              match details with
              | Some d =>
                  if opt_dict_true details
                  then ret (Some (tag_details d final_query extracted_cn_name
                                    (source_scraped from_alias) from_alias
                                    (u "网页抓取")))
                  else ret (Some (failure_hit_only search_result
                                    extracted_cn_name from_alias))
              | None =>
                  ret (Some (failure_hit_only search_result
                               extracted_cn_name from_alias))
              end
          end
      end
  end.

(** [resolve_boardgame_by_cn_name(cn_name, proxy)]. *)
Definition resolve_boardgame_by_cn_name (cn_name : str) : M (W:=W) (option dict) :=
  x <- extract_candidates cn_name ;;
  match x with
  | (candidates, from_alias, extracted_cn_name) =>
      resolve_candidates candidates from_alias extracted_cn_name
  end.

End Resolver.

(** ** register.py: the registration command *)

(** A JSON value that is no dictionary, as far as the command can tell
    them apart: a list, a string, or an atom ([null], a boolean or a
    number). *)
Inductive other_json : Type :=
| OtherList (l : list pyval)
| OtherStr (s : str)
| OtherAtom.

(** The alias file [data/alias.json]: absent; unreadable or not JSON;
    the JSON of a dictionary from names to strings; or the JSON of a
    value that is no dictionary. *)
Inductive alias_file : Type :=
| FileMissing
| FileCorrupt
| FileDict (d : gmap str str)
| FileOther (v : other_json).

(** What [load_alias_from_file] returns. *)
Inductive loaded_alias : Type :=
| LoadedDict (d : gmap str str)
| LoadedOther (v : other_json).

(** How the file system answers a write: it goes through, it fails
    before the file is opened for writing, or it fails after the file
    was truncated. *)
Inductive write_result : Type :=
| WriteDone
| WriteFailsEarly
| WriteFailsTruncated.

(** The answers of the outside during one command: of the file system
    to a write and to a removal, and of the host to the [n]-th
    [await self.send_text(...)] of the run, counted from 0 ([None]: the
    send returns; [Some e]: it raises [e]). *)
Record io_env : Type := {
  io_write : write_result;
  io_remove_fails : bool;
  io_send : nat -> option exn
}.

(** [save_alias(alias)]: the whole file is overwritten. *)
Definition save_alias (io : io_env) (alias : gmap str str) (f : alias_file)
    : bool * alias_file :=
  match io_write io with
  | WriteDone => (true, FileDict alias)
  | WriteFailsEarly => (false, f)
  | WriteFailsTruncated => (false, FileCorrupt)
  end.

(** [load_alias_from_file()]: whatever [json.load] gives, [{}] when the
    file is absent or the reading raises. *)
Definition load_alias_from_file (f : alias_file) : loaded_alias :=
  match f with
  | FileMissing | FileCorrupt => LoadedDict ∅
  | FileDict d => LoadedDict d
  | FileOther v => LoadedOther v
  end.

(** [clear_alias_file()]. *)
Definition clear_alias_file (io : io_env) (f : alias_file) : bool * alias_file :=
  match f with
  | FileMissing => (false, f)
  | _ => if io_remove_fails io then (false, f) else (true, FileMissing)
  end.

Definition DELETE_WORDS : list str :=
  [u "删除"; u "delete"; u "remove"; u "del"].

(** What escapes [execute]: the exception of an awaited [send_text], or
    the [AttributeError] or [TypeError] of an operation on an alias
    file that holds no dictionary. *)
Inductive command_exn : Type :=
| SendError (e : exn)
| AttributeError
| TypeError.

(** How [execute] ends: it returns its tuple or raises. *)
Inductive command_outcome : Type :=
| Returns (t : bool * str * bool)
| Raises (e : command_exn).

(** A run of [execute]: how it ends, the alias file afterwards and the
    texts passed to [send_text], oldest first. *)
Record command_result : Type := {
  cr_return : command_outcome;
  cr_file : alias_file;
  cr_sent : list str
}.

(** [await self.send_text(text); return t], the send being the [n]-th
    of the run, after the texts [sent]. *)
Definition send_then_return (io : io_env) (n : nat) (sent : list str) (text : str)
    (t : bool * str * bool) (f : alias_file) : command_result :=
  {| cr_return := match io_send io n with
                  | None => Returns t
                  | Some e => Raises (SendError e)
                  end;
     cr_file := f;
     cr_sent := sent ++ [text] |}.

(** The same inside the [try] of step 6, where the send is the first
    of the run: when it raises, the handler sends the internal-error
    text and returns. *)
Definition send_in_try (io : io_env) (text : str) (t : bool * str * bool)
    (f : alias_file) : command_result :=
  match io_send io 0 with
  | None => {| cr_return := Returns t; cr_file := f; cr_sent := [text] |}
  | Some _ =>
      send_then_return io 1 [text] (u "⚠️ 内部错误，请联系管理员。")
        (true, u "内部错误", false) f
  end.

(** A run that ends with an exception raised before any send. *)
Definition escapes (e : command_exn) (f : alias_file) : command_result :=
  {| cr_return := Raises e; cr_file := f; cr_sent := [] |}.

(** [cn_name in existing_alias] on a value that is no dictionary;
    [None]: [TypeError], the value is not iterable. *)
Definition other_contains (v : other_json) (cn_name : str) : option bool :=
  match v with
  | OtherList l =>
      Some (existsb (fun x => match x with
                              | PStr s => Py.eqb s cn_name
                              | _ => false
                              end) l)
  | OtherStr s => Some (contains s cn_name)
  | OtherAtom => None
  end.

Section Register.
Context `{Unicode}.

(** [BoardgameRegisterCommand.execute] on the two groups the command
    pattern matched. *)
Definition execute (io : io_env) (cn_group en_group : str) (f : alias_file)
    : command_result :=
  let cn_name := strip cn_group in
  let en_name := strip en_group in
  if Py.eqb cn_name (u "清空") then
    let '(ok, f') := clear_alias_file io f in
    if ok
    then send_then_return io 0 [] (u "✅ 已清空损坏的数据，请重新登记")
           (true, u "数据已清空", true) f'
    else send_then_return io 0 [] (u "❌ 清空数据失败")
           (true, u "清空失败", true) f'
  else if existsb (Py.eqb (lower en_name)) DELETE_WORDS then
    if negb (Py.truthy cn_name)
    then send_then_return io 0 [] (u "❌ 删除格式：`/桌游登记 中文名/删除`")
           (true, u "删除格式错误", true) f
    else
      match load_alias_from_file f with
      | LoadedDict existing_alias =>
          match existing_alias !! cn_name with
          | Some _ =>
              let '(ok, f') := save_alias io (delete cn_name existing_alias) f in
              if ok
              then send_then_return io 0 []
                     (u "✅ 已删除桌游「" ++ cn_name ++ u "」的登记记录")
                     (true, u "删除成功", true) f'
              else send_then_return io 0 [] (u "❌ 删除失败，请重试。")
                     (true, u "删除失败", false) f'
          | None =>
              send_then_return io 0 []
                (u "⚠️ 该游戏「" ++ cn_name ++ u "」未在词典中，无需删除")
                (true, u "记录不存在", false) f
          end
      | LoadedOther v =>
          match other_contains v cn_name with
          | None => escapes TypeError f
          | Some true =>
              (* [existing_alias.pop(cn_name)] on a list or a string *)
              match v with
              | OtherStr _ => escapes AttributeError f
              | _ => escapes TypeError f
              end
          | Some false =>
              send_then_return io 0 []
                (u "⚠️ 该游戏「" ++ cn_name ++ u "」未在词典中，无需删除")
                (true, u "记录不存在", false) f
          end
      end
  else if negb (Py.truthy cn_name)
  then send_then_return io 0 [] (u "❌ 请提供中文名，格式：`/桌游登记 中文名/英文名`")
         (true, u "格式错误", true) f
  else if negb (Py.truthy en_name)
  then send_then_return io 0 [] (u "❌ 请提供英文名，格式：`/桌游登记 中文名/英文名`")
         (true, u "格式错误", true) f
  else if negb (existsb isalnum_char en_name)
  then send_then_return io 0 []
         (u "❌ 英文名格式不正确，请输入有效的英文名（至少包含一个字母），"
          ++ u "或使用 `/桌游登记 中文名/删除` 来删除记录")
         (true, u "英文名格式错误", true) f
  else
    match load_alias_from_file f with
    | LoadedOther _ =>
        (* [existing_alias.get(cn_name)], before the [try] *)
        escapes AttributeError f
    | LoadedDict existing_alias =>
        let existing_en := existing_alias !! cn_name in
        match existing_en with
        | Some ((_ :: _) as en) =>
            send_in_try io
              (u "⚠️ 该游戏「" ++ cn_name ++ u "」已在词典中，现有英文名为："
               ++ en ++ nl
               ++ u "请发送 `/桌游登记 " ++ cn_name ++ u "/删除`"
               ++ u "删除现有记录后再重新录入")
              (true, u "记录已存在", false) f
        | _ =>
            let new_alias : gmap str str := {[ cn_name := en_name ]} in
            let '(ok, f') := save_alias io new_alias f in
            if ok
            then send_in_try io (u "✅ 成功登记：" ++ cn_name ++ u " → " ++ en_name)
                   (true, u "成功登记", true) f'
            else send_in_try io (u "❌ 保存失败，请重试。")
                   (true, u "保存失败", false) f'
        end
    end.

End Register.

(** ** plugin.py: the model of the translation step *)

(** The fallback loop of [BoardgameCommand.execute]:
    [for name_cfg, conf in models.items():
       if name_cfg != "embedding": model_config = conf; break]. *)
Fixpoint translation_fallback (models : list (str * model_config))
    : option model_config :=
  match models with
  | [] => None
  | (name_cfg, conf) :: rest =>
      if negb (Py.eqb name_cfg (u "embedding")) then Some conf
      else translation_fallback rest
  end.

(** The model selection of the translation step; [None]:
    [model_config] stays [None]. *)
Definition select_translation_model (models : list (str * model_config))
    : option model_config :=
  let target_key := u "utils" in
  match models_get models target_key with
  | Some conf => Some conf
  | None => translation_fallback models
  end.

(** ** plugin.py: the query tool *)

(** What [BoardgameQueryTool.execute] returns, apart from the constant
    [name]: the [content], and the [data] of a game answer. *)
Record tool_answer : Type := {
  ta_content : str;
  ta_data : option dict
}.

Section QueryTool.
Context `{Unicode} `{Libs} {W : Type} `{Services W}.

(** The rest of [execute], from the reading of [year] to the end: it
    formats a game record and awaits nothing. *)
Variable game_answer : str -> dict -> outcome tool_answer.

(** [BoardgameQueryTool.execute] on [function_args.get("query", "")]. *)
Definition tool_execute (query_arg : str) : M (W:=W) tool_answer :=
  let query := strip query_arg in
  if negb (Py.truthy query) then
    ret {| ta_content := u "查询失败：未提供桌游名称。"; ta_data := None |}
  else
    details <- resolve_boardgame_by_cn_name query ;;
    match details with
    | Some ((_ :: _) as details) =>
        let bgg_failed := dict_get_default details (u "bgg_failed") (PBool false) in
        if is_true bgg_failed then
          let en_name := dict_get_default details (u "name") (PStr []) in
          let cn_name := dict_get_default details (u "cn_name") (PStr query) in
          ret {| ta_content :=
                   u "找到了桌游「" ++ py_str cn_name ++ u "」（英文名："
                   ++ py_str en_name ++ u "），"
                   ++ u "但暂时无法从 BGG 获取详细信息（评分、排名、人数等）。";
                 ta_data := None |}
        else fun w => (game_answer query details, w, [])
    | _ =>
        ret {| ta_content :=
                 u "未找到桌游「" ++ query
                 ++ u "」的相关信息，请尝试更换更准确的名称。";
               ta_data := None |}
    end.

End QueryTool.

(** ** Vocabulary of the properties *)

(** [p] is a prefix of [s]; [x] occurs in [s]. *)
Definition is_prefix (p s : str) : Prop := exists t, s = p ++ t.
Definition occurs_in (x s : str) : Prop := exists a b, s = a ++ x ++ b.

(** The three terms of the catalog score. *)
Inductive match_bonus (name_lower query_lower : str) : Z -> Prop :=
| bonus_exact :
    name_lower = query_lower -> match_bonus name_lower query_lower 100
| bonus_prefix :
    name_lower <> query_lower -> is_prefix query_lower name_lower ->
    match_bonus name_lower query_lower 80
| bonus_none :
    ~ is_prefix query_lower name_lower -> match_bonus name_lower query_lower 0.

Inductive marker_penalty (name_lower : str) : Z -> Prop :=
| penalty_marker marker :
    In marker NON_PRIMARY_MARKERS -> occurs_in marker name_lower ->
    marker_penalty name_lower (-50)
| penalty_none :
    (forall marker, In marker NON_PRIMARY_MARKERS -> ~ occurs_in marker name_lower) ->
    marker_penalty name_lower 0.

Inductive edition_bonus (name_stripped query_lower : str) : Z -> Prop :=
| edition_match :
    name_stripped = query_lower \/ is_prefix query_lower name_stripped ->
    edition_bonus name_stripped query_lower 70
| edition_none :
    name_stripped <> query_lower -> ~ is_prefix query_lower name_stripped ->
    edition_bonus name_stripped query_lower 0.

(** Ranking: the list is ordered by score, highest first. *)
Definition descending (l : list scored) : Prop :=
  StronglySorted (fun a b => (sc_score b <= sc_score a)%Z) l.

(** The candidates of a list that have the score [s], in their order. *)
Definition with_score (s : Z) (l : list scored) : list scored :=
  filter (fun c => sc_score c = s) l.

Section TraceVocabulary.
Context `{Unicode} `{Libs}.

(** What a detail request of the structured API gave for [game_id]. *)
Definition thing_of_outcome (game_id : str) (r : outcome response) : option dict :=
  match r with
  | Return resp => thing_of_response game_id resp
  | Raised _ => None
  end.

(** The detail request for a scored candidate, and whether the event
    is that request and gave a usable record. *)
Definition thing_params (game_id : str) : list (str * str) :=
  [(u "id", game_id); (u "stats", u "1")].

Definition probe_event (ok : bool) (cand : scored) (ev : event) : Prop :=
  exists r, ev = EvGet BGG_API_THING (thing_params (sc_id cand)) r
            /\ opt_dict_true (thing_of_outcome (sc_id cand) r) = ok.

(** What one tier of the structured search does with the candidates
    it [collected]: they are ranked by a stable descending sort on the
    score, and the detail requests [tr] go down the ranked list, one
    candidate after the other; [res] is the id of the first candidate
    whose request gave a usable record, and nothing when all failed. *)
Definition ranked_and_probed (collected : list scored) (tr : list event)
    (res : option str) : Prop :=
  exists ranked failed tr_failed,
    Permutation collected ranked
    /\ descending ranked
    /\ (forall s, with_score s ranked = with_score s collected)
    /\ Forall2 (probe_event false) failed tr_failed
    /\ ((ranked = failed /\ tr = tr_failed /\ res = None)
        \/ (exists cand rest ev,
              ranked = failed ++ cand :: rest
              /\ probe_event true cand ev
              /\ tr = tr_failed ++ [ev]
              /\ res = Some (sc_id cand))).

(** A request to one of the three endpoints of the structured API. *)
Definition is_api_call (ev : event) : bool :=
  match ev with
  | EvGet url _ _ =>
      Py.eqb url BGG_API_SEARCH_V2 || Py.eqb url BGG_API_SEARCH_V1
      || Py.eqb url BGG_API_THING
  | _ => false
  end.

(** A request to the web search page. *)
Definition is_scrape_search (ev : event) : bool :=
  match ev with
  | EvGet url _ _ => Py.eqb url BGG_SEARCH_URL
  | _ => false
  end.

(** The primary structured search for the candidate [q]. *)
Definition api_search_for (q : str) (ev : event) : Prop :=
  exists r, ev = EvGet BGG_API_SEARCH_V2 [(u "query", q); (u "type", u "boardgame")] r.

(** The scraping search for the candidate [q], with the hit it gave. *)
Definition scrape_search_for (q : str) (found : option search_hit) (ev : event) : Prop :=
  exists r, ev = EvGet BGG_SEARCH_URL (web_search_params q) r
            /\ hit_of_outcome r = found.

(** The hit of a scraping search event, if it is one and gave one. *)
Definition scrape_hit (ev : event) : option search_hit :=
  match ev with
  | EvGet url _ r => if Py.eqb url BGG_SEARCH_URL then hit_of_outcome r else None
  | _ => None
  end.

(** What the scraping detail makes of the outcome of its request. *)
Definition details_of_outcome (game_url search_name : str) (r : outcome response)
    : option dict :=
  match r with
  | Raised _ => None
  | Return resp =>
      if status_raises (status_code resp) then None
      else details_of_page game_url search_name (text resp)
  end.

(** An event of a scraping search that found nothing. *)
Definition missed (ev : event) : Prop :=
  is_scrape_search ev = true /\ scrape_hit ev = None.

(** The phases of a resolution from a non-empty candidate list. *)
Inductive resolution (cands : list str) (from_alias : bool) (ecn : str)
    : dict -> list event -> list event -> list event -> Prop :=
| res_api tr_api q game_id f :
    In q cands ->
    resolution cands from_alias ecn
      (tag_details (thing_record game_id f) q ecn
         (source_api from_alias) from_alias (u "BGG_API"))
      tr_api [] []
| res_no_hit tr_api tr_miss :
    (forall q, In q cands -> exists ev, In ev tr_api /\ api_search_for q ev) ->
    resolution cands from_alias ecn
      (failure_no_hit cands ecn from_alias) tr_api tr_miss []
| res_scraped tr_api tr_miss hit q ev rd d0 :
    (forall q, In q cands -> exists ev, In ev tr_api /\ api_search_for q ev) ->
    In q cands ->
    scrape_search_for q (Some hit) ev ->
    details_of_outcome (hit_url hit) (hit_name hit) rd = Some d0 ->
    resolution cands from_alias ecn
      (tag_details d0 q ecn (source_scraped from_alias) from_alias (u "网页抓取"))
      tr_api tr_miss [ev; EvGet (hit_url hit) [] rd]
| res_hit_only tr_api tr_miss hit q ev rd :
    (forall q, In q cands -> exists ev, In ev tr_api /\ api_search_for q ev) ->
    In q cands ->
    scrape_search_for q (Some hit) ev ->
    resolution cands from_alias ecn
      (failure_hit_only hit ecn from_alias)
      tr_api tr_miss [ev; EvGet (hit_url hit) [] rd].

(** A call of the web-search / language-model path. *)
Definition is_extraction_call (ev : event) : bool :=
  match ev with
  | EvDdgs _ _ | EvModels _ | EvGenerate _ _ _ => true
  | EvGet _ _ _ => false
  end.

End TraceVocabulary.

Section AliasVocabulary.
Context `{Unicode} {W : Type} `{Services W}.

(** The alias entry of a name, trimmed: [alias_dict.get(cn_name, "").strip()]. *)
Definition alias_raw (cn_name : str) (w : W) : str :=
  strip (default [] (load_alias w !! cn_name)).

End AliasVocabulary.

Section PageVocabulary.
Context `{Unicode} `{Libs}.

(** The average-weight value of a page: [stats.get("avgweight", "0")]
    of the item of its script data. *)
Definition page_avgweight (page : str) : option pyval :=
  script_data ← find_script_data (soup_scripts page);
  item ← py_get script_data (u "item") (PDict []);
  stats ← py_get item (u "stats") (PDict []);
  py_get stats (u "avgweight") (PStr (u "0")).

(** The average weight as the specification words it: the value
    formatted to two decimal places whenever it is parseable as a
    number, whether it arrives as a string or as a JSON number, and
    ["N/A"] otherwise. *)
Definition claimed_avg_weight (v : pyval) : str :=
  match v with
  | PStr s =>
      match float_of_str s with
      | Some f => format_2f f
      | None => u "N/A"
      end
  | PFloat f => format_2f f
  | PInt z => format_2f (PrimFloat.of_uint63 (Uint63.of_Z z))
  | _ => u "N/A"
  end.

End PageVocabulary.

(** The two kinds of record the resolver returns. *)
Definition is_failure_record (d : dict) : Prop :=
  dict_get d (u "bgg_failed") = Some (PBool true).

Definition is_game_record (d : dict) : Prop :=
  dict_get d (u "bgg_failed") = None
  /\ (exists v, dict_get d (u "bgg_id") = Some v)
  /\ (dict_get d (u "_bgg_source") = Some (PStr (u "BGG_API"))
      \/ dict_get d (u "_bgg_source") = Some (PStr (u "网页抓取"))).

(** The name a record carries. *)
Definition record_name (d : dict) : option pyval := dict_get d (u "name").

(** ** Scenarios *)

(** A world that answers every call from fixed tables: the content of
    the alias file, what the search and language-model services give,
    and the response of each request by URL and parameters (a request
    the table does not list fails to connect). *)
Record scenario : Type := {
  sn_alias : gmap str str;
  sn_ddgs : outcome (list (str * str));
  sn_models : outcome (list (str * model_config));
  sn_generate : outcome (bool * str);
  sn_routes : list (str * list (str * str) * outcome response)
}.

Fixpoint route (routes : list (str * list (str * str) * outcome response))
    (url : str) (params : list (str * str)) : outcome response :=
  match routes with
  | [] => Raised (ServiceError (u "connection failed"))
  | (url', params', r) :: rest =>
      if bool_decide (url' = url /\ params' = params) then r
      else route rest url params
  end.

#[local] Instance scenario_services : Services scenario := {|
  load_alias w := sn_alias w;
  ddgs_text _ w := (sn_ddgs w, w);
  get_available_models w := (sn_models w, w);
  generate_with_model _ _ w := (sn_generate w, w);
  client_get url params w := (route (sn_routes w) url params, w)
|}.

(** The documents of the scenarios and what the parsers read off them. *)
Definition dq : str := [34].
Definition quoted (s : string) : str := dq ++ u s ++ dq.

Definition XML_SEARCH_CATAN : str :=
  u "<items><item type='boardgame' id='13'><name type='primary' value='Catan'/></item></items>".
Definition XML_THING_CATAN : str :=
  u "<items><item type='boardgame' id='13'><name type='primary' value='Catan'/><yearpublished value='1995'/></item></items>".
Definition PAGE_HIT_NAMED : str := u "<a href='/boardgame/13/catan'>Catan</a>".
Definition PAGE_HIT_BARE : str := u "<a href='/boardgame/13'></a>".

Definition JSON_WEIGHT_NUMBER : str :=
  u "{" ++ quoted "item" ++ u ":{" ++ quoted "stats" ++ u ":{"
  ++ quoted "avgweight" ++ u ":2.5}}}".
Definition JSON_WEIGHT_STRING : str :=
  u "{" ++ quoted "item" ++ u ":{" ++ quoted "stats" ++ u ":{"
  ++ quoted "avgweight" ++ u ":" ++ quoted "2.5000" ++ u "}}}".

Definition script_of (json : str) : str :=
  u "GEEK.geekitemPreload = " ++ json ++ u ";" ++ [10; 9]
  ++ u "GEEK.geekitemSettings = {};".
Definition page_of (json : str) : str :=
  u "<script>" ++ script_of json ++ u "</script>".

Definition CATAN_FIELDS : thing_fields := {|
  tf_name := Some (u "Catan");
  tf_year := u "1995"; tf_description := [];
  tf_min_players := u "?"; tf_max_players := u "?";
  tf_min_time := u "?"; tf_max_time := u "?"; tf_min_age := u "?";
  tf_users_rated := u "?"; tf_average := u "?"; tf_avg_weight := u "?";
  tf_rank := u "N/A"; tf_strategy_rank := u "N/A"; tf_image := [];
  tf_categories := []; tf_mechanics := [];
  tf_best_numplayers := []; tf_language_dependence := []
|}.

Definition weight_json (v : pyval) : pyval :=
  PDict [(u "item", PDict [(u "stats", PDict [(u "avgweight", v)])])].

(** The parsers on the documents above; any other text is one they
    reject or find nothing in. *)
#[local] Instance scenario_libs : Libs := {|
  et_items_v2 body :=
    if Py.eqb body XML_SEARCH_CATAN then Some [(u "13", u "Catan")] else None;
  et_items_v1 _ := None;
  et_thing body :=
    if Py.eqb body XML_THING_CATAN then Some CATAN_FIELDS else None;
  soup_anchors page :=
    if Py.eqb page PAGE_HIT_NAMED then [(u "/boardgame/13/catan", u "Catan")]
    else if Py.eqb page PAGE_HIT_BARE then [(u "/boardgame/13", [])]
    else [];
  soup_scripts page :=
    if Py.eqb page (page_of JSON_WEIGHT_NUMBER) then [script_of JSON_WEIGHT_NUMBER]
    else if Py.eqb page (page_of JSON_WEIGHT_STRING) then [script_of JSON_WEIGHT_STRING]
    else [];
  soup_ld_json _ := None;
  json_loads s :=
    if Py.eqb s JSON_WEIGHT_NUMBER then Some (weight_json (PFloat 2.5%float))
    else if Py.eqb s JSON_WEIGHT_STRING then Some (weight_json (PStr (u "2.5000")))
    else None;
  float_of_str s :=
    if Py.eqb s (u "2.5000") then Some 2.5%float
    else if Py.eqb s (u "0") then Some 0%float
    else None;
  format_2f f :=
    if PrimFloat.eqb f 2.5%float then u "2.50"
    else if PrimFloat.eqb f 0%float then u "0.00"
    else [];
  py_str v :=
    match v with
    | PStr s => s
    | PNone => u "None"
    | PInt z => str_of_N (Z.to_N z)
    | _ => []
    end;
  html_unescape s := s;
  status_raises code := negb ((200 <=? code)%Z && (code <? 300)%Z)
|}.

Definition ok (body : str) : outcome response :=
  Return {| status_code := 200; text := body |}.

(** The alias file of the scenarios. *)
Definition ALIASES : gmap str str :=
  <[ u "山屋惊魂" := u "Betrayal at House on the Hill" ]>
  (<[ u "卡坦岛" := u " Catan | Settlers of Catan " ]>
  (<[ u "空" := u "|" ]> ∅)).

(** The structured API is down; the web search finds nothing for
    ["Catan"] and an anchor without text or slug for
    ["Settlers of Catan"]; the page of the hit is unreachable. *)
Definition world_scrape_hit_only : scenario := {|
  sn_alias := ALIASES;
  sn_ddgs := Raised (ServiceError (u "unused"));
  sn_models := Return [];
  sn_generate := Raised (ServiceError (u "unused"));
  sn_routes :=
    [ (BGG_SEARCH_URL, web_search_params (u "Catan"), ok (u "<html></html>"));
      (BGG_SEARCH_URL, web_search_params (u "Settlers of Catan"), ok PAGE_HIT_BARE) ]
|}.

(** The structured API answers for ["Catan"]. *)
Definition world_api : scenario := {|
  sn_alias := ALIASES;
  sn_ddgs := Raised (ServiceError (u "unused"));
  sn_models := Return [];
  sn_generate := Raised (ServiceError (u "unused"));
  sn_routes :=
    [ (BGG_API_SEARCH_V2, [(u "query", u "Catan"); (u "type", u "boardgame")],
       ok XML_SEARCH_CATAN);
      (BGG_API_THING, thing_params (u "13"), ok XML_THING_CATAN) ]
|}.

(** No alias; the language model answers as the prompt asks. *)
Definition world_llm (models : list (str * model_config))
    (answer : bool * str) : scenario := {|
  sn_alias := ALIASES;
  sn_ddgs := Return [(u "卡坦岛 - 桌游", u "Catan (The Settlers of Catan)")];
  sn_models := Return models;
  sn_generate := Return answer;
  sn_routes := []
|}.

(** The page of a game, served at [GAME_URL]. *)
Definition GAME_URL : str := u "https://boardgamegeek.com/boardgame/13/catan".

Definition world_page (page : str) : scenario := {|
  sn_alias := ALIASES;
  sn_ddgs := Raised (ServiceError (u "unused"));
  sn_models := Return [];
  sn_generate := Raised (ServiceError (u "unused"));
  sn_routes := [ (GAME_URL, [], ok page) ]
|}.

(** The trace of the resolution of ["卡坦岛"] in
    [world_scrape_hit_only]: what precedes the scraping search that
    gives the hit, that search, and what follows it. *)
Definition CONNECTION_FAILED : outcome response :=
  Raised (ServiceError (u "connection failed")).

Definition TRACE_BEFORE_HIT : list event :=
  [ EvGet BGG_API_SEARCH_V2 [(u "query", u "Catan"); (u "type", u "boardgame")]
      CONNECTION_FAILED;
    EvGet BGG_API_SEARCH_V1 [(u "search", u "Catan")] CONNECTION_FAILED;
    EvGet BGG_API_SEARCH_V2
      [(u "query", u "Settlers of Catan"); (u "type", u "boardgame")]
      CONNECTION_FAILED;
    EvGet BGG_API_SEARCH_V1 [(u "search", u "Settlers of Catan")] CONNECTION_FAILED;
    EvGet BGG_SEARCH_URL (web_search_params (u "Catan")) (ok (u "<html></html>")) ].

Definition HIT_EVENT : event :=
  EvGet BGG_SEARCH_URL (web_search_params (u "Settlers of Catan")) (ok PAGE_HIT_BARE).

Definition TRACE_AFTER_HIT : list event :=
  [ EvGet (u "https://boardgamegeek.com/boardgame/13") [] CONNECTION_FAILED ].

Definition BARE_HIT : search_hit :=
  {| hit_id := u "13"; hit_name := [];
     hit_url := u "https://boardgamegeek.com/boardgame/13" |}.

(** The primary search answers with status 500. *)
Definition world_primary_500 : scenario := {|
  sn_alias := ALIASES;
  sn_ddgs := Raised (ServiceError (u "unused"));
  sn_models := Return [];
  sn_generate := Raised (ServiceError (u "unused"));
  sn_routes :=
    [ (BGG_API_SEARCH_V2, [(u "query", u "Catan"); (u "type", u "boardgame")],
       Return {| status_code := 500; text := u "Internal Server Error" |}) ]
|}.

Definition LLM_ANSWER : str :=
  u "中文名：卡坦岛" ++ nl ++ u "英文名：Catan" ++ nl ++ u "英文名：board game"
  ++ nl ++ u "英文名：Catan".

(** [int] on a non-empty string of ASCII digits; the scenarios convert
    no other string. *)
Fixpoint digits_value (s : str) (acc : Z) : option Z :=
  match s with
  | [] => Some acc
  | c :: rest =>
      if ((48 <=? c) && (c <=? 57))%N
      then digits_value rest (10 * acc + Z.of_N (c - 48))
      else None
  end.

Definition int_of_digits (s : str) : option Z :=
  match s with
  | [] => None
  | _ => digits_value s 0
  end.

Definition POLL_CATAN : list results_node :=
  [ {| rn_numplayers := u "2"; rn_best_numvotes := Some (u "5") |};
    {| rn_numplayers := u "3"; rn_best_numvotes := Some (u "120") |};
    {| rn_numplayers := u "4"; rn_best_numvotes := Some (u "120") |};
    {| rn_numplayers := u "4+"; rn_best_numvotes := None |};
    {| rn_numplayers := u "5"; rn_best_numvotes := Some [] |} ].

(** The file system writes and removes, and every send goes through. *)
Definition IO_OK : io_env :=
  {| io_write := WriteDone; io_remove_fails := false; io_send := fun _ => None |}.

(** The write goes through and the first send raises. *)
Definition IO_SEND_FAILS : io_env :=
  {| io_write := WriteDone; io_remove_fails := false;
     io_send := fun n => match n with
                         | O => Some (ServiceError (u "send failed"))
                         | _ => None
                         end |}.

(** ** Tactics *)

(** Two results that differ in a literal cannot be equal. *)
Ltac literal_clash H :=
  exfalso; injection H as H; vm_compute in H; discriminate H.

(** Every way the sends of a command can go. *)
Ltac run_sends :=
  unfold send_in_try, send_then_return, escapes;
  repeat match goal with
         | |- context [io_send ?io ?n] => destruct (io_send io n) eqn:?
         end;
  cbn [cr_return cr_file cr_sent].

(** The branch at hand does not end with the report assumed. *)
Ltac no_such_report :=
  run_sends; intros Hret; first [discriminate Hret | literal_clash Hret].

(** Evaluate the comparisons of key literals in the goal. *)
Ltac eval_keys :=
  repeat match goal with
         | |- context [Py.eqb (u ?a) (u ?b)] =>
             let b0 := eval vm_compute in (Py.eqb (u a) (u b)) in
             replace (Py.eqb (u a) (u b)) with b0 by (vm_compute; reflexivity)
         end.

(** * Properties *)

(** ** Strings *)

Lemma eqb_true (s t : str) : Py.eqb s t = true <-> s = t.
Proof. unfold Py.eqb. apply bool_decide_eq_true. Qed.

Lemma eqb_false (s t : str) : Py.eqb s t = false <-> s <> t.
Proof. unfold Py.eqb. apply bool_decide_eq_false. Qed.

Lemma eqb_refl (s : str) : Py.eqb s s = true.
Proof. now apply eqb_true. Qed.

Lemma startswith_spec (s p : str) : startswith s p = true <-> is_prefix p s.
Proof.
  revert s. induction p as [|c p IH]; intros s; simpl.
  - split; [intros _; now exists s | reflexivity].
  - destruct s as [|d s].
    + split; [discriminate | intros [t Ht]; discriminate].
    + rewrite andb_true_iff, N.eqb_eq, IH. split.
      * intros [-> [t ->]]. now exists t.
      * intros [t Ht]. injection Ht as -> ->. split; [reflexivity | now exists t].
Qed.

Lemma contains_spec (s x : str) : contains s x = true <-> occurs_in x s.
Proof.
  induction s as [|d s IH].
  - simpl. rewrite orb_false_r, startswith_spec. split.
    + intros [t Ht]. now exists [], t.
    + intros [a [b Hab]]. destruct a; [now exists b | discriminate].
  - change (contains (d :: s) x)
      with (startswith (d :: s) x || contains s x).
    rewrite orb_true_iff, startswith_spec, IH. split.
    + intros [[t Ht] | [a [b Hab]]].
      * now exists [], t.
      * exists (d :: a), b. now rewrite Hab.
    + intros [a [b Hab]]. destruct a as [|a0 a].
      * left. now exists b.
      * right. injection Hab as -> ->. now exists a, b.
Qed.

Lemma existsb_contains (s : str) (xs : list str) :
  existsb (fun x => contains s x) xs = true
  <-> exists x, In x xs /\ occurs_in x s.
Proof.
  rewrite existsb_exists. split; intros [x [Hin Hx]]; exists x; split; trivial;
    now apply contains_spec.
Qed.

(** The string functions on the literals of the sources. *)
Example string_functions :
  u "桌游" = [26700; 28216]
  /\ u " – " = [32; 8211; 32]
  /\ split (u "a|b||c") (u "|") = [u "a"; u "b"; []; u "c"]
  /\ split (u "/boardgame/13/catan") (u "/") = [[]; u "boardgame"; u "13"; u "catan"]
  /\ replace (u "a: second edition: second edition b") (u ": second edition") [] = u "a b"
  /\ find (u "abcabc") (u "ca") = 2%Z
  /\ find (u "abc") (u "x") = (-1)%Z
  /\ strip (u "  x y ") = u "x y"
  /\ str_of_N 120 = u "120"
  /\ title (replace (u "ticket-to-ride") (u "-") (u " ")) = u "Ticket To Ride".
Proof. vm_compute. repeat split. Qed.

(** ** C4: the catalog score *)

Section ScoreProperties.
Context `{Unicode}.

Lemma match_bonus_of (n q : str) :
  match_bonus n q
    (if Py.eqb n q then 100 else if startswith n q then 80 else 0)%Z.
Proof.
  destruct (Py.eqb n q) eqn:E.
  - apply bonus_exact. now apply eqb_true.
  - apply eqb_false in E. destruct (startswith n q) eqn:P.
    + apply bonus_prefix; [assumption | now apply startswith_spec].
    + apply bonus_none. intros Hp. apply startswith_spec in Hp. congruence.
Qed.

Lemma marker_penalty_of (n : str) :
  marker_penalty n
    (if existsb (fun x => contains n x) NON_PRIMARY_MARKERS then -50 else 0)%Z.
Proof.
  destruct (existsb _ _) eqn:E.
  - apply existsb_contains in E as [x [Hin Hx]]. now apply penalty_marker with x.
  - apply penalty_none. intros x Hin Hx.
    assert (existsb (fun x => contains n x) NON_PRIMARY_MARKERS = true) as E'
      by (apply existsb_contains; now exists x).
    congruence.
Qed.

Lemma edition_bonus_of (n q : str) :
  edition_bonus n q (if Py.eqb n q || startswith n q then 70 else 0)%Z.
Proof.
  destruct (Py.eqb n q || startswith n q) eqn:E.
  - apply edition_match. apply orb_true_iff in E as [E | E].
    + left. now apply eqb_true.
    + right. now apply startswith_spec.
  - apply orb_false_iff in E as [E1 E2]. apply edition_none.
    + now apply eqb_false.
    + intros Hp. apply startswith_spec in Hp. congruence.
Qed.

(** C4. For every name and query the catalog score is the sum of three
    independent terms: the match bonus (100 for a case-insensitive
    exact match, else 80 for a case-insensitive prefix match, else 0);
    the marker penalty (-50 when the lowercased name contains one of
    the six markers, else 0); and the edition bonus (70 when the
    lowercased name with the edition suffixes removed equals or
    prefix-matches the lowercased query, else 0).  Being a function of
    its two arguments, the score is deterministic. *)
Theorem score_is_sum_of_three_terms (name query : str) :
  exists m p e : Z,
    is_likely_primary name query = (m + p + e)%Z
    /\ match_bonus (lower name) (lower query) m
    /\ marker_penalty (lower name) p
    /\ edition_bonus (strip_editions (lower name)) (lower query) e.
Proof.
  exists (if Py.eqb (lower name) (lower query) then 100
          else if startswith (lower name) (lower query) then 80 else 0)%Z,
         (if existsb (fun x => contains (lower name) x) NON_PRIMARY_MARKERS
          then -50 else 0)%Z,
         (if Py.eqb (strip_editions (lower name)) (lower query)
             || startswith (strip_editions (lower name)) (lower query)
          then 70 else 0)%Z.
  split; [| split; [apply match_bonus_of | split;
                    [apply marker_penalty_of | apply edition_bonus_of]]].
  unfold is_likely_primary.
  destruct (Py.eqb (lower name) (lower query));
    [| destruct (startswith (lower name) (lower query))];
    destruct (existsb _ NON_PRIMARY_MARKERS);
    destruct (Py.eqb (strip_editions (lower name)) (lower query)
              || startswith (strip_editions (lower name)) (lower query));
    reflexivity.
Qed.

End ScoreProperties.

(** The score on the scenario of the specification and on names that
    carry an edition suffix. *)
Example score_examples :
  @is_likely_primary basic_unicode (u "Catan") (u "catan") = 170%Z
  /\ @is_likely_primary basic_unicode (u "Catan: Seafarers") (u "Catan") = 100%Z
  /\ @is_likely_primary basic_unicode (u "Catan Promo Card") (u "Catan") = 100%Z
  /\ @is_likely_primary basic_unicode (u "Agricola (Second Edition)") (u "Agricola") = 150%Z
  /\ @is_likely_primary basic_unicode (u "Descent: Second Edition") (u "Descent") = 100%Z
  /\ @is_likely_primary basic_unicode (u "Monopoly") (u "Catan") = 0%Z.
Proof. vm_compute. repeat split. Qed.

(** ** C5: ranking and probing *)

Lemma insert_desc_perm (x : scored) (l : list scored) :
  Permutation (x :: l) (insert_desc x l).
Proof.
  induction l as [|y l IH]; simpl.
  - reflexivity.
  - destruct (sc_score y <=? sc_score x)%Z.
    + reflexivity.
    + rewrite perm_swap. now apply perm_skip.
Qed.

Lemma sorted_by_score_desc_perm (l : list scored) :
  Permutation l (sorted_by_score_desc l).
Proof.
  induction l as [|x l IH]; simpl.
  - reflexivity.
  - rewrite <- insert_desc_perm. now apply perm_skip.
Qed.

Lemma insert_desc_descending (x : scored) (l : list scored) :
  descending l -> descending (insert_desc x l).
Proof.
  unfold descending. induction l as [|y l IH]; intros Hl; simpl.
  - constructor; constructor.
  - apply StronglySorted_inv in Hl as [Hl Hy].
    destruct (sc_score y <=? sc_score x)%Z eqn:E.
    + apply Z.leb_le in E. constructor.
      * now constructor.
      * constructor; [assumption |].
        eapply Forall_impl; [exact Hy |]. simpl. intros a Ha. lia.
    + apply Z.leb_gt in E. constructor; [now apply IH |].
      assert (Forall (fun b => (sc_score b <= sc_score y)%Z) (x :: l)) as Hx
        by (constructor; [lia | assumption]).
      rewrite Forall_forall in Hx |- *. intros b Hb. apply Hx.
      now rewrite <- (insert_desc_perm x l) in Hb.
Qed.

Lemma sorted_by_score_desc_descending (l : list scored) :
  descending (sorted_by_score_desc l).
Proof.
  induction l as [|x l IH]; simpl.
  - constructor.
  - now apply insert_desc_descending.
Qed.

(** Inserting an element passes it over strictly higher scores only,
    so the candidates of any one score keep their order. *)
Lemma with_score_insert_desc (s : Z) (x : scored) (l : list scored) :
  with_score s (insert_desc x l) = with_score s (x :: l).
Proof.
  unfold with_score. induction l as [|y l IH]; simpl.
  - reflexivity.
  - destruct (sc_score y <=? sc_score x)%Z eqn:E; [reflexivity |].
    apply Z.leb_gt in E. rewrite (filter_cons _ y (insert_desc x l)), IH.
    rewrite !filter_cons.
    destruct (decide (sc_score y = s)), (decide (sc_score x = s)); trivial.
    lia.
Qed.

Lemma with_score_sorted (s : Z) (l : list scored) :
  with_score s (sorted_by_score_desc l) = with_score s l.
Proof.
  induction l as [|x l IH]; simpl; [reflexivity |].
  rewrite with_score_insert_desc. unfold with_score in *.
  rewrite !filter_cons, IH. reflexivity.
Qed.

Section ProbeProperties.
Context `{Unicode} `{Libs} {W : Type} `{Services W}.

(** One detail request: what it returns and what it records. *)
Lemma bgg_thing_details_api_run (game_id : str) (w : W) :
  bgg_thing_details_api game_id w =
    (Return (thing_of_outcome game_id (client_get BGG_API_THING (thing_params game_id) w).1),
     (client_get BGG_API_THING (thing_params game_id) w).2,
     [EvGet BGG_API_THING (thing_params game_id)
            (client_get BGG_API_THING (thing_params game_id) w).1]).
Proof.
  unfold bgg_thing_details_api, try_except, bind, get, call, ret, thing_params.
  destruct (client_get BGG_API_THING _ w) as [[resp | e] w']; reflexivity.
Qed.

(** The probing loop visits the candidates in the order of its
    argument and stops at the first whose detail request succeeds. *)
Lemma probe_in_order (cands : list scored) (w : W) :
  exists failed tr_failed,
    Forall2 (probe_event false) failed tr_failed
    /\ ((result_of (probe cands w) = Return None
         /\ cands = failed
         /\ trace_of (probe cands w) = tr_failed)
        \/ (exists cand rest ev,
              cands = failed ++ cand :: rest
              /\ probe_event true cand ev
              /\ trace_of (probe cands w) = tr_failed ++ [ev]
              /\ result_of (probe cands w) = Return (Some (sc_id cand)))).
Proof.
  revert w. induction cands as [|c cands IH]; intros w.
  - exists [], []. split; [constructor |]. left. repeat split.
  - change (probe (c :: cands) w)
      with (bind (bgg_thing_details_api (sc_id c))
              (fun details => if opt_dict_true details
                              then ret (Some (sc_id c)) else probe cands) w).
    unfold bind. rewrite bgg_thing_details_api_run.
    set (r := (client_get BGG_API_THING (thing_params (sc_id c)) w).1).
    set (w1 := (client_get BGG_API_THING (thing_params (sc_id c)) w).2).
    destruct (opt_dict_true (thing_of_outcome (sc_id c) r)) eqn:Hok.
    + exists [], []. split; [constructor |]. right.
      exists c, cands, (EvGet BGG_API_THING (thing_params (sc_id c)) r).
      repeat split. now exists r.
    + destruct (IH w1) as (failed & trf & Hf & Hcase).
      exists (c :: failed),
             (EvGet BGG_API_THING (thing_params (sc_id c)) r :: trf).
      split; [constructor; [now exists r | assumption] |].
      destruct (probe cands w1) as [[res w2] tr] eqn:Hp.
      unfold result_of, trace_of in *. simpl in *.
      destruct Hcase as [(Hr & Hc & Ht) | (cand & rest & ev & Hc & He & Ht & Hr)].
      * left. subst. repeat split.
      * right. exists cand, rest, ev. subst. repeat split; assumption.
Qed.

End ProbeProperties.

(** The example of the specification: for the scores [50, 80, 80, 30]
    the two candidates of score 80 keep their order. *)
Example ranking_50_80_80_30 :
  let c (i : string) (s : Z) :=
    {| sc_id := u i; sc_name := u i; sc_score := s; sc_source := u "V2" |} in
  sorted_by_score_desc
    [c "a"%string 50%Z; c "b"%string 80%Z; c "c"%string 80%Z; c "d"%string 30%Z]
  = [c "b"%string 80%Z; c "c"%string 80%Z; c "a"%string 50%Z; c "d"%string 30%Z].
Proof. reflexivity. Qed.

(** ** C7: the fallback model *)

Lemma fallback_model_spec (models : list (str * model_config)) :
  match fallback_model models with
  | Some (name, conf) =>
      name <> u "replay"
      /\ exists pre post,
           models = pre ++ (name, conf) :: post
           /\ Forall (fun p => p.1 = u "replay") pre
  | None => Forall (fun p => p.1 = u "replay") models
  end.
Proof.
  induction models as [|[name conf] models IH]; simpl.
  - constructor.
  - destruct (Py.eqb name (u "replay")) eqn:E; simpl.
    + apply eqb_true in E.
      destruct (fallback_model models) as [[name' conf'] |].
      * destruct IH as (Hne & pre & post & -> & Hpre).
        split; [assumption |].
        exists ((name, conf) :: pre), post. split; [reflexivity |].
        now constructor.
      * now constructor.
    + apply eqb_false in E. split; [assumption |].
      exists [], models. split; [reflexivity | constructor].
Qed.

(** What the fallback of the extractor does.  When the key ["utils"]
    is not among the available models, the model used is the first
    available one, in the order of the dictionary, whose name is not
    ["replay"]: every model before it is named ["replay"], and nothing
    else is excluded.  When every available model is named ["replay"],
    no model is selected. *)
Lemma first_model_not_named_replay (models : list (str * model_config)) :
  models_get models (u "utils") = None ->
  match fallback_model models with
  | Some (name, conf) =>
      select_model models = Some conf
      /\ name <> u "replay"
      /\ exists pre post,
           models = pre ++ (name, conf) :: post
           /\ Forall (fun p => p.1 = u "replay") pre
  | None =>
      select_model models = None
      /\ Forall (fun p => p.1 = u "replay") models
  end.
Proof.
  intros Hutils. pose proof (fallback_model_spec models) as Hspec.
  unfold select_model. rewrite Hutils.
  destruct (fallback_model models) as [[name conf] |]; simpl.
  - destruct Hspec as (Hne & Hsplit). repeat split; assumption.
  - split; [reflexivity | assumption].
Qed.

(** C7.  With the models [embedding] and [chat] available, in this
    order, and no [utils], the extractor falls back to the model named
    ["embedding"], which the claim excludes.  On the same models the
    fallback of the translation step, which runs the same loop,
    passes over ["embedding"] and selects [chat]: the exclusion is
    made there and missed in the extractor. *)
Theorem fallback_selects_embedding :
  models_get [(u "embedding", 7); (u "chat", 9)] (u "utils") = None
  /\ fallback_model [(u "embedding", 7); (u "chat", 9)] = Some (u "embedding", 7)
  /\ select_model [(u "embedding", 7); (u "chat", 9)] = Some 7
  /\ select_translation_model [(u "embedding", 7); (u "chat", 9)] = Some 9.
Proof. vm_compute. repeat split. Qed.

(** ** C9: registering a new alias *)

Section RegisterProperties.
Context `{Unicode}.

(** C9. When the registration command adds an alias (it reports
    [成功登记]), the alias file holds exactly the one new pair
    afterwards: every alias registered before is gone from it. *)
Theorem register_overwrites_all_aliases
    (io : io_env) (cn_group en_group : str) (f : alias_file) :
  cr_return (execute io cn_group en_group f) = Returns (true, u "成功登记", true) ->
  cr_file (execute io cn_group en_group f)
    = FileDict {[ strip cn_group := strip en_group ]}
  /\ exists d,
       load_alias_from_file (cr_file (execute io cn_group en_group f)) = LoadedDict d
       /\ d !! strip cn_group = Some (strip en_group)
       /\ forall k, k <> strip cn_group -> d !! k = None.
Proof.
  intros Hret.
  assert (cr_file (execute io cn_group en_group f)
          = FileDict {[ strip cn_group := strip en_group ]}) as Hfile.
  { revert Hret. unfold execute.
    destruct (Py.eqb (strip cn_group) (u "清空")).
    { destruct (clear_alias_file io f) as [[|] f']; no_such_report. }
    destruct (existsb (Py.eqb (lower (strip en_group))) DELETE_WORDS).
    { destruct (negb (Py.truthy (strip cn_group))); [no_such_report |].
      destruct (load_alias_from_file f) as [d | v].
      - destruct (d !! strip cn_group); [| no_such_report].
        unfold save_alias. destruct (io_write io); no_such_report.
      - destruct (other_contains v (strip cn_group)) as [[|] |];
          [destruct v | |]; no_such_report. }
    destruct (negb (Py.truthy (strip cn_group))); [no_such_report |].
    destruct (negb (Py.truthy (strip en_group))); [no_such_report |].
    destruct (negb (existsb isalnum_char (strip en_group))); [no_such_report |].
    destruct (load_alias_from_file f) as [d | v]; [| no_such_report].
    assert (forall text,
              cr_return (let '(ok, f') :=
                           save_alias io {[ strip cn_group := strip en_group ]} f in
                         if ok
                         then send_in_try io text (true, u "成功登记", true) f'
                         else send_in_try io (u "❌ 保存失败，请重试。")
                                (true, u "保存失败", false) f')
              = Returns (true, u "成功登记", true) ->
              cr_file (let '(ok, f') :=
                         save_alias io {[ strip cn_group := strip en_group ]} f in
                       if ok
                       then send_in_try io text (true, u "成功登记", true) f'
                       else send_in_try io (u "❌ 保存失败，请重试。")
                              (true, u "保存失败", false) f')
              = FileDict {[ strip cn_group := strip en_group ]}) as Hsave.
    { intros text. unfold save_alias. destruct (io_write io); run_sends;
        intros Hret; first [reflexivity | discriminate Hret | literal_clash Hret]. }
    destruct (d !! strip cn_group) as [[|e0 en] |].
    - apply Hsave.
    - no_such_report.
    - apply Hsave. }
  split; [exact Hfile |].
  rewrite Hfile. cbn [load_alias_from_file]. eexists. split; [reflexivity |].
  split; [apply lookup_singleton_eq |].
  intros k Hk. now apply lookup_singleton_ne.
Qed.

End RegisterProperties.

(** ** Runs of the effect monad *)

Section MonadProperties.
Context {W : Type}.

Lemma bind_return {A B} (m : M (W:=W) A) (k : A -> M B) w a w1 t1 :
  m w = (Return a, w1, t1) ->
  bind m k w = ((k a w1).1.1, (k a w1).1.2, t1 ++ (k a w1).2).
Proof. unfold bind. intros ->. now destruct (k a w1) as [[r w2] t2]. Qed.

Lemma bind_raised {A B} (m : M (W:=W) A) (k : A -> M B) w e w1 t1 :
  m w = (Raised e, w1, t1) -> bind m k w = (Raised e, w1, t1).
Proof. unfold bind. now intros ->. Qed.

Lemma try_except_return {A} (m : M (W:=W) A) h w a w1 t1 :
  m w = (Return a, w1, t1) -> try_except m h w = (Return a, w1, t1).
Proof. unfold try_except. now intros ->. Qed.

End MonadProperties.

(** The endpoints are pairwise distinct, and none of them contains the
    path of a game page. *)
Lemma endpoints_distinct :
  Py.eqb BGG_SEARCH_URL BGG_API_SEARCH_V2 = false
  /\ Py.eqb BGG_SEARCH_URL BGG_API_SEARCH_V1 = false
  /\ Py.eqb BGG_SEARCH_URL BGG_API_THING = false
  /\ Py.eqb BGG_API_SEARCH_V2 BGG_SEARCH_URL = false
  /\ Py.eqb BGG_API_SEARCH_V1 BGG_SEARCH_URL = false
  /\ Py.eqb BGG_API_THING BGG_SEARCH_URL = false.
Proof. vm_compute. repeat split. Qed.

Section ClientRuns.
Context `{Unicode} `{Libs} {W : Type} `{Services W}.

Lemma api_call_is_no_scrape_search (ev : event) :
  is_api_call ev = true -> is_scrape_search ev = false.
Proof.
  destruct ev as [| | |url params r]; simpl; try reflexivity.
  intros Hapi. apply eqb_false. intros ->.
  revert Hapi. vm_compute. discriminate.
Qed.

Lemma search_v2_is_api_call (params : list (str * str)) (r : outcome response) :
  is_api_call (EvGet BGG_API_SEARCH_V2 params r) = true.
Proof. vm_compute. reflexivity. Qed.

Lemma search_v1_is_api_call (params : list (str * str)) (r : outcome response) :
  is_api_call (EvGet BGG_API_SEARCH_V1 params r) = true.
Proof. vm_compute. reflexivity. Qed.

Lemma thing_is_api_call (params : list (str * str)) (r : outcome response) :
  is_api_call (EvGet BGG_API_THING params r) = true.
Proof. vm_compute. reflexivity. Qed.

(** The probing loop returns, and requests nothing but details. *)
Lemma probe_run (cands : list scored) (w : W) :
  exists res w' tr,
    probe cands w = (Return res, w', tr)
    /\ Forall (fun ev => is_api_call ev = true) tr.
Proof.
  revert w. induction cands as [|c cands IH]; intros w.
  - exists None, w, []. split; [reflexivity | constructor].
  - change (probe (c :: cands) w)
      with (bind (bgg_thing_details_api (sc_id c))
              (fun details => if opt_dict_true details
                              then ret (Some (sc_id c)) else probe cands) w).
    unfold bind. rewrite bgg_thing_details_api_run.
    set (r := (client_get BGG_API_THING (thing_params (sc_id c)) w).1).
    set (w1 := (client_get BGG_API_THING (thing_params (sc_id c)) w).2).
    assert (is_api_call (EvGet BGG_API_THING (thing_params (sc_id c)) r) = true)
      as Hev by exact (thing_is_api_call _ _).
    destruct (opt_dict_true (thing_of_outcome (sc_id c) r)).
    + exists (Some (sc_id c)), w1, [EvGet BGG_API_THING (thing_params (sc_id c)) r].
      split; [reflexivity | constructor; [exact Hev | constructor]].
    + destruct (IH w1) as (res & w2 & tr & -> & Htr).
      exists res, w2, (EvGet BGG_API_THING (thing_params (sc_id c)) r :: tr).
      split; [reflexivity | constructor; [exact Hev | exact Htr]].
Qed.

(** One tier of the structured search returns, and its trace is its
    search request followed by detail requests. *)
Lemma search_tier_run (url : str) (params : list (str * str))
    (collect : str -> list scored) (w : W) :
  exists res w' r rest,
    search_tier url params collect w = (Return res, w', EvGet url params r :: rest)
    /\ Forall (fun ev => is_api_call ev = true) rest.
Proof.
  unfold search_tier, try_except, bind, get, call.
  destruct (client_get url params w) as [[resp | e] w1].
  - destruct (status_code resp =? 200)%Z.
    + destruct (collect (text resp)) as [|c cs] eqn:Ecol.
      * exists None, w1, (Return resp), []. split; [reflexivity | constructor].
      * destruct (probe_run (sorted_by_score_desc (c :: cs)) w1)
          as (res & w2 & tr & -> & Htr).
        exists res, w2, (Return resp), tr. split; [reflexivity | exact Htr].
    + exists None, w1, (Return resp), []. split; [reflexivity | constructor].
  - exists None, w1, (Raised e), []. split; [reflexivity | constructor].
Qed.

(** The structured search for a candidate returns; its first request
    is the primary search for the candidate, and all its requests go
    to the structured API. *)
Lemma bgg_search_api_by_name_run (q : str) (w : W) :
  exists res w' r rest,
    bgg_search_api_by_name q w
    = (Return res, w',
       EvGet BGG_API_SEARCH_V2 [(u "query", q); (u "type", u "boardgame")] r :: rest)
    /\ Forall (fun ev => is_api_call ev = true) rest.
Proof.
  unfold bgg_search_api_by_name, bind.
  pose proof (search_tier_run BGG_API_SEARCH_V2
                [(u "query", q); (u "type", u "boardgame")]
                (fun body => collect_from_api2 body q) w) as Hx.
  destruct Hx as (res2 & w2 & r2 & rest2 & -> & Hapi2).
  destruct res2 as [game_id |].
  - exists (Some game_id), w2, r2, rest2. unfold ret.
    rewrite app_nil_r. split; [reflexivity | exact Hapi2].
  - pose proof (search_tier_run BGG_API_SEARCH_V1 [(u "search", q)]
                  (fun body => collect_from_api1 body q) w2) as Hx.
    destruct Hx as (res1 & w1 & r1 & rest1 & -> & Hapi1).
    exists res1, w1, r2,
      (rest2 ++ EvGet BGG_API_SEARCH_V1 [(u "search", q)] r1 :: rest1).
    split.
    + unfold ret. destruct res1; rewrite app_nil_r; reflexivity.
    + apply Forall_app. split; [exact Hapi2 |].
      constructor; [| exact Hapi1].
      exact (search_v1_is_api_call _ _).
Qed.

(** One tier: after its search request, when the response has status
    200, the candidates collected from its body are ranked and
    probed. *)
Lemma search_tier_ranked (url : str) (params : list (str * str))
    (collect : str -> list scored) (w : W) :
  exists res w' r tr,
    search_tier url params collect w = (Return res, w', EvGet url params r :: tr)
    /\ forall resp,
         r = Return resp -> status_code resp = 200%Z ->
         ranked_and_probed (collect (text resp)) tr res.
Proof.
  unfold search_tier, try_except, bind, get, call.
  destruct (client_get url params w) as [[resp | e] w1].
  2: { exists None, w1, (Raised e), []. split; [reflexivity | discriminate]. }
  destruct (status_code resp =? 200)%Z eqn:Est.
  2: { exists None, w1, (Return resp), []. split; [reflexivity |].
       intros resp' [= <-] H200. apply Z.eqb_neq in Est. contradiction. }
  destruct (collect (text resp)) as [|c cs] eqn:Ecol.
  { exists None, w1, (Return resp), []. split; [reflexivity |].
    intros resp' [= <-] _. rewrite Ecol. exists [], [], [].
    split; [constructor |]. split; [constructor |].
    split; [reflexivity |]. split; [constructor |]. left. repeat split. }
  destruct (probe_in_order (sorted_by_score_desc (c :: cs)) w1)
    as (failed & trf & Hf & Hcase).
  destruct (probe (sorted_by_score_desc (c :: cs)) w1) as [[res w2] tr] eqn:Eprobe.
  unfold result_of, trace_of in Hcase. cbn [fst snd] in Hcase.
  assert (exists res', res = Return res') as [res' ->].
  { destruct Hcase as [(-> & _) | (cand & rest & ev & _ & _ & _ & ->)]; eauto. }
  exists res', w2, (Return resp), tr. unfold ret. cbn [app].
  split; [reflexivity |].
  intros resp' [= <-] _. rewrite Ecol.
  exists (sorted_by_score_desc (c :: cs)), failed, trf.
  split; [apply sorted_by_score_desc_perm |].
  split; [apply sorted_by_score_desc_descending |].
  split; [intros s0; apply with_score_sorted |].
  split; [exact Hf |].
  destruct Hcase as [(Hres & Hall & Htr) | (cand & rest & ev & Hsplit & Hev & Htr & Hres)].
  - left. injection Hres as ->. repeat split; assumption.
  - right. exists cand, rest, ev. injection Hres as ->. repeat split; assumption.
Qed.

(** C5. In each of the two tiers of the structured search, the
    candidates collected from a response of status 200 are ranked by a
    stable descending sort on the score: the ranked list is a
    permutation of the collected list, its scores descend, and the
    candidates of any one score stand in it in their order of
    discovery.  The detail requests that follow the search request
    visit the ranked list in order, one candidate after the other,
    and the tier gives the id of the first candidate whose detail
    request gives a usable record; when none does it has visited them
    all.  The search returns the id the primary tier gives, and
    otherwise runs the legacy tier in the same way and returns what
    that gives. *)
Theorem ranking_is_stable_and_probed_in_order (q : str) (w : W) :
  exists r2 tr2 res2 tail,
    trace_of (bgg_search_api_by_name q w)
    = EvGet BGG_API_SEARCH_V2 [(u "query", q); (u "type", u "boardgame")] r2
        :: tr2 ++ tail
    /\ (forall resp,
          r2 = Return resp -> status_code resp = 200%Z ->
          ranked_and_probed (collect_from_api2 (text resp) q) tr2 res2)
    /\ (forall game_id,
          res2 = Some game_id ->
          tail = []
          /\ result_of (bgg_search_api_by_name q w) = Return (Some game_id))
    /\ (res2 = None ->
        exists r1 tr1 res1,
          tail = EvGet BGG_API_SEARCH_V1 [(u "search", q)] r1 :: tr1
          /\ result_of (bgg_search_api_by_name q w) = Return res1
          /\ forall resp,
               r1 = Return resp -> status_code resp = 200%Z ->
               ranked_and_probed (collect_from_api1 (text resp) q) tr1 res1).
Proof.
  unfold bgg_search_api_by_name, bind, trace_of, result_of.
  pose proof (search_tier_ranked BGG_API_SEARCH_V2
                [(u "query", q); (u "type", u "boardgame")]
                (fun body => collect_from_api2 body q) w) as Hx.
  destruct Hx as (res2 & w2 & r2 & tr2 & -> & Hranked2).
  destruct res2 as [game_id |].
  - exists r2, tr2, (Some game_id), []. unfold ret. cbn [fst snd].
    split; [reflexivity |]. split; [exact Hranked2 |].
    split; [| discriminate]. intros g [= <-]. now split.
  - pose proof (search_tier_ranked BGG_API_SEARCH_V1 [(u "search", q)]
                  (fun body => collect_from_api1 body q) w2) as Hx.
    destruct Hx as (res1 & w1 & r1 & tr1 & -> & Hranked1).
    exists r2, tr2, None,
      (EvGet BGG_API_SEARCH_V1 [(u "search", q)] r1 :: tr1).
    split.
    { unfold ret. destruct res1; cbn [fst snd]; rewrite app_nil_r; reflexivity. }
    split; [exact Hranked2 |]. split; [discriminate |].
    intros _. exists r1, tr1, res1. split; [reflexivity |].
    split; [| exact Hranked1].
    unfold ret. destruct res1; reflexivity.
Qed.

End ClientRuns.

Section ResolverRuns.
Context `{Unicode} `{Libs} {W : Type} `{Services W}.

Lemma bgg_search_by_name_run (q : str) (w : W) :
  bgg_search_by_name q w =
    (Return (hit_of_outcome (client_get BGG_SEARCH_URL (web_search_params q) w).1),
     (client_get BGG_SEARCH_URL (web_search_params q) w).2,
     [EvGet BGG_SEARCH_URL (web_search_params q)
            (client_get BGG_SEARCH_URL (web_search_params q) w).1]).
Proof.
  unfold bgg_search_by_name, try_except, bind, get, call, ret, raise, hit_of_outcome.
  destruct (client_get BGG_SEARCH_URL _ w) as [[resp | e] w']; [| reflexivity].
  cbn [fst snd]. destruct (status_raises (status_code resp)); reflexivity.
Qed.

Lemma bgg_thing_details_run (game_url search_name : str) (w : W) :
  bgg_thing_details game_url search_name w =
    (Return (details_of_outcome game_url search_name (client_get game_url [] w).1),
     (client_get game_url [] w).2,
     [EvGet game_url [] (client_get game_url [] w).1]).
Proof.
  unfold bgg_thing_details, try_except, bind, get, call, ret, raise, details_of_outcome.
  destruct (client_get game_url [] w) as [[resp | e] w']; [| reflexivity].
  cbn [fst snd]. destruct (status_raises (status_code resp)); reflexivity.
Qed.

(** A usable record of the structured API is the record built from
    the fields of the item. *)
Lemma thing_of_outcome_some (game_id : str) (r : outcome response) (d : dict) :
  thing_of_outcome game_id r = Some d -> exists f, d = thing_record game_id f.
Proof.
  destruct r as [resp | e]; [| discriminate]. unfold thing_of_outcome, thing_of_response.
  destruct (negb (status_code resp =? 200)%Z); [discriminate |].
  destruct (et_thing (text resp)) as [f |]; [| discriminate].
  intros [= <-]. now exists f.
Qed.

(** The first loop returns; it talks to the structured API only; when
    it runs to its end every candidate had its primary search; and a
    record it returns is a tagged record of the structured API. *)
Lemma api_loop_run (cands : list str) (from_alias : bool) (ecn : str) (w : W) :
  exists res w' tr,
    api_loop cands from_alias ecn w = (Return res, w', tr)
    /\ Forall (fun ev => is_api_call ev = true) tr
    /\ (res = None ->
        forall q, In q cands -> exists ev, In ev tr /\ api_search_for q ev)
    /\ (forall d, res = Some d ->
        exists q game_id f,
          In q cands
          /\ d = tag_details (thing_record game_id f) q ecn
                   (source_api from_alias) from_alias (u "BGG_API")).
Proof.
  revert w. induction cands as [|q cands IH]; intros w.
  - exists None, w, []. split; [reflexivity |]. split; [constructor |].
    split; [intros _ q [] | discriminate].
  - cbn [api_loop]. unfold try_except, bind.
    pose proof (bgg_search_api_by_name_run q w) as Hs.
    destruct Hs as (sres & w1 & r & rest & -> & Hrest).
    set (ev0 := EvGet BGG_API_SEARCH_V2 [(u "query", q); (u "type", u "boardgame")] r).
    assert (is_api_call ev0 = true) as Hev0 by exact (search_v2_is_api_call _ _).
    assert (api_search_for q ev0) as Hfor by (now exists r).
    assert (forall w2 tr2,
              Forall (fun ev => is_api_call ev = true) tr2 ->
              exists res w' tr,
                (let '(r0, w3, t3) := api_loop cands from_alias ecn w2 in
                 (r0, w3, ((ev0 :: rest) ++ tr2) ++ t3)) = (Return res, w', tr)
                /\ Forall (fun ev => is_api_call ev = true) tr
                /\ (res = None ->
                    forall q0, In q0 (q :: cands) ->
                      exists ev, In ev tr /\ api_search_for q0 ev)
                /\ (forall d, res = Some d ->
                    exists q0 game_id f,
                      In q0 (q :: cands)
                      /\ d = tag_details (thing_record game_id f) q0 ecn
                               (source_api from_alias) from_alias (u "BGG_API")))
      as Hnext.
    { intros w2 tr2 Htr2.
      destruct (IH w2) as (res & w3 & tr & -> & Hapi & Hnone & Hsome).
      exists res, w3, (((ev0 :: rest) ++ tr2) ++ tr). split; [reflexivity |].
      split.
      { apply Forall_app. split; [| exact Hapi].
        apply Forall_app. split; [| exact Htr2]. now constructor. }
      split.
      - intros Hres q0 [<- | Hin].
        + exists ev0. split; [| exact Hfor]. apply in_or_app. left.
          apply in_or_app. left. now left.
        + destruct (Hnone Hres q0 Hin) as (ev & Hev & Hq).
          exists ev. split; [| exact Hq]. apply in_or_app. now right.
      - intros d Hd. destruct (Hsome d Hd) as (q0 & gid & f & Hin & ->).
        exists q0, gid, f. split; [now right | reflexivity]. }
    destruct sres as [game_id |].
    + destruct (Py.truthy game_id).
      * unfold bind. rewrite bgg_thing_details_api_run.
        set (rd := (client_get BGG_API_THING (thing_params game_id) w1).1).
        set (w2 := (client_get BGG_API_THING (thing_params game_id) w1).2).
        assert (is_api_call (EvGet BGG_API_THING (thing_params game_id) rd) = true)
          as Hevd by exact (thing_is_api_call _ _).
        destruct (thing_of_outcome game_id rd) as [d0 |] eqn:Ed.
        -- destruct (opt_dict_true (Some d0)).
           ++ unfold ret. cbn beta iota.
              destruct (thing_of_outcome_some _ _ _ Ed) as [f ->].
              eexists _, _, _. split; [reflexivity |]. split.
              { rewrite !app_nil_r. apply Forall_app. split.
                - now constructor.
                - constructor; [exact Hevd | constructor]. }
              split; [discriminate |].
              intros d [= <-]. exists q, game_id, f. split; [now left | reflexivity].
           ++ unfold ret. cbn beta iota.
              destruct (Hnext w2 [EvGet BGG_API_THING (thing_params game_id) rd])
                as (res & w3 & tr & Heq & Hrestn).
              { constructor; [exact Hevd | constructor]. }
              exists res, w3, tr. split; [| exact Hrestn].
              rewrite <- Heq. rewrite !app_nil_r. reflexivity.
        -- unfold ret. cbn beta iota.
           destruct (Hnext w2 [EvGet BGG_API_THING (thing_params game_id) rd])
             as (res & w3 & tr & Heq & Hrestn).
           { constructor; [exact Hevd | constructor]. }
           exists res, w3, tr. split; [| exact Hrestn].
           rewrite <- Heq. rewrite !app_nil_r. reflexivity.
      * unfold ret. cbn beta iota.
        destruct (Hnext w1 []) as (res & w3 & tr & Heq & Hrestn); [constructor |].
        exists res, w3, tr. split; [| exact Hrestn].
        rewrite <- Heq. rewrite !app_nil_r. reflexivity.
    + unfold ret. cbn beta iota.
      destruct (Hnext w1 []) as (res & w3 & tr & Heq & Hrestn); [constructor |].
      exists res, w3, tr. split; [| exact Hrestn].
      rewrite <- Heq. rewrite !app_nil_r. reflexivity.
Qed.

Lemma search_event_is_scrape_search (params : list (str * str)) (r : outcome response) :
  is_scrape_search (EvGet BGG_SEARCH_URL params r) = true
  /\ scrape_hit (EvGet BGG_SEARCH_URL params r) = hit_of_outcome r.
Proof. unfold is_scrape_search, scrape_hit. now rewrite eqb_refl. Qed.

(** The second loop returns; its trace is one scraping search per
    candidate tried, all without a hit except the last one when the
    loop gives a hit. *)
Lemma scrape_loop_run (cands : list str) (w : W) :
  exists res w' tr_miss tr_hit,
    scrape_loop cands w = (Return res, w', tr_miss ++ tr_hit)
    /\ Forall missed tr_miss
    /\ ((res = None /\ tr_hit = [])
        \/ (exists hit q ev,
              res = Some (hit, q) /\ In q cands /\ tr_hit = [ev]
              /\ scrape_search_for q (Some hit) ev)).
Proof.
  revert w. induction cands as [|q cands IH]; intros w.
  - exists None, w, [], []. split; [reflexivity |]. split; [constructor |].
    left. now split.
  - cbn [scrape_loop]. unfold bind. rewrite bgg_search_by_name_run.
    set (r := (client_get BGG_SEARCH_URL (web_search_params q) w).1).
    set (w1 := (client_get BGG_SEARCH_URL (web_search_params q) w).2).
    destruct (search_event_is_scrape_search (web_search_params q) r) as [Hs Hh].
    destruct (hit_of_outcome r) as [hit |] eqn:Ehit.
    + exists (Some (hit, q)), w1, [], [EvGet BGG_SEARCH_URL (web_search_params q) r].
      split; [reflexivity |]. split; [constructor |]. right.
      exists hit, q, (EvGet BGG_SEARCH_URL (web_search_params q) r).
      split; [reflexivity |]. split; [now left |]. split; [reflexivity |].
      now exists r.
    + destruct (IH w1) as (res & w2 & tm & th & -> & Hm & Hcase).
      exists res, w2, (EvGet BGG_SEARCH_URL (web_search_params q) r :: tm), th.
      split; [reflexivity |]. split; [constructor; [now split | exact Hm] |].
      destruct Hcase as [[-> ->] | (hit & q0 & ev & -> & Hin & -> & Hfor)].
      * left. now split.
      * right. exists hit, q0, ev. split; [reflexivity |].
        split; [now right |]. now split.
Qed.

(** From a non-empty candidate list the resolver returns a record, and
    its trace is: requests to the structured API, then scraping
    searches without a hit, then at most one scraping search with a
    hit followed by the request of the page it found. *)
Lemma resolve_candidates_run (cands : list str) (from_alias : bool) (ecn : str) (w : W) :
  cands <> [] ->
  exists d w' tr_api tr_miss tr_tail,
    resolve_candidates cands from_alias ecn w
    = (Return (Some d), w', tr_api ++ tr_miss ++ tr_tail)
    /\ Forall (fun ev => is_api_call ev = true) tr_api
    /\ Forall missed tr_miss
    /\ resolution cands from_alias ecn d tr_api tr_miss tr_tail
    /\ exists ares w1,
         api_loop cands from_alias ecn w = (Return ares, w1, tr_api)
         /\ (ares <> None -> tr_miss = [] /\ tr_tail = []).
Proof.
  intros Hne. unfold resolve_candidates.
  destruct cands as [|c0 cs]; [congruence |]. set (cands := c0 :: cs).
  unfold bind.
  destruct (api_loop_run cands from_alias ecn w)
    as (ares & w1 & tr_api & Eapi & Hapi & Hnone & Hsome).
  rewrite Eapi.
  destruct ares as [d |].
  - destruct (Hsome d eq_refl) as (q & gid & f & Hin & ->).
    eexists _, w1, tr_api, [], []. unfold ret. split; [reflexivity |].
    split; [exact Hapi |]. split; [constructor |].
    split; [now apply res_api |].
    eexists _, w1. split; [reflexivity | now split].
  - specialize (Hnone eq_refl).
    destruct (scrape_loop_run cands w1) as (sres & w2 & tm & th & -> & Hm & Hcase).
    destruct Hcase as [[-> ->] | (hit & q & ev & -> & Hin & -> & Hfor)].
    + eexists _, w2, tr_api, tm, []. unfold ret.
      split; [rewrite !app_nil_r; reflexivity |].
      split; [exact Hapi |]. split; [exact Hm |].
      split; [now apply res_no_hit |].
      exists None, w1. split; [reflexivity | congruence].
    + unfold bind. rewrite bgg_thing_details_run.
      set (rd := (client_get (hit_url hit) [] w2).1).
      set (w3 := (client_get (hit_url hit) [] w2).2).
      destruct (details_of_outcome (hit_url hit) (hit_name hit) rd) as [d0 |] eqn:Ed.
      * destruct (opt_dict_true (Some d0)); unfold ret; cbn beta iota.
        -- eexists _, w3, tr_api, tm, [ev; EvGet (hit_url hit) [] rd].
           split; [rewrite !app_nil_r, <- !app_assoc; reflexivity |].
           split; [exact Hapi |]. split; [exact Hm |].
           split; [eapply res_scraped; eassumption |].
           exists None, w1. split; [reflexivity | congruence].
        -- eexists _, w3, tr_api, tm, [ev; EvGet (hit_url hit) [] rd].
           split; [rewrite !app_nil_r, <- !app_assoc; reflexivity |].
           split; [exact Hapi |]. split; [exact Hm |].
           split; [eapply res_hit_only; eassumption |].
           exists None, w1. split; [reflexivity | congruence].
      * unfold ret; cbn beta iota.
        eexists _, w3, tr_api, tm, [ev; EvGet (hit_url hit) [] rd].
        split; [rewrite !app_nil_r, <- !app_assoc; reflexivity |].
        split; [exact Hapi |]. split; [exact Hm |].
        split; [eapply res_hit_only; eassumption |].
        exists None, w1. split; [reflexivity | congruence].
Qed.

End ResolverRuns.

(** ** Where the page of a hit lives *)

Section HitProperties.
Context `{Unicode} `{Libs}.

Lemma first_game_anchor_href (anchors : list (str * str)) bgg_id game_name href :
  first_game_anchor anchors = Some (bgg_id, game_name, href) ->
  contains href (u "/boardgame/") = true.
Proof.
  induction anchors as [|[href0 text0] rest IH]; [discriminate |].
  cbn [first_game_anchor].
  destruct (contains href0 (u "/boardgame/")
            && negb (contains href0 (u "/boardgamegame"))
            && negb (contains href0 (u "/boardgameexpansion"))) eqn:E;
    [| exact IH].
  destruct (3 <=? Z.of_nat (length (split href0 (u "/"))))%Z; [| exact IH].
  destruct (Py.index (split href0 (u "/")) 2) as [pid |]; [| exact IH].
  destruct (isdigit pid); [| exact IH].
  intros [= <- <- <-].
  apply andb_true_iff in E as [E _]. now apply andb_true_iff in E as [E _].
Qed.

(** A link with a game path is none of the fixed endpoints, absolute
    or completed with the base URL. *)
Lemma game_link_not_endpoint (href suffix : str) :
  contains href (u "/boardgame/") = true ->
  contains suffix (u "/boardgame/") = false ->
  contains (BGG_BASE_URL ++ suffix) (u "/boardgame/") = false ->
  (if startswith href (u "/") then BGG_BASE_URL ++ href else href)
  <> BGG_BASE_URL ++ suffix.
Proof.
  intros Hhref Hsuf Hfull. destruct (startswith href (u "/")).
  - intros Heq. apply app_inv_head in Heq. congruence.
  - intros Heq. congruence.
Qed.

Lemma hit_url_not_endpoint (page : str) (hit : search_hit) :
  hit_of_page page = Some hit ->
  hit_url hit <> BGG_SEARCH_URL
  /\ hit_url hit <> BGG_API_SEARCH_V2
  /\ hit_url hit <> BGG_API_SEARCH_V1
  /\ hit_url hit <> BGG_API_THING.
Proof.
  unfold hit_of_page.
  destruct (first_game_anchor (soup_anchors page)) as [[[bgg_id game_name] href] |] eqn:E;
    [| discriminate].
  apply first_game_anchor_href in E. intros [= <-]. cbn [hit_url].
  repeat split.
  - change BGG_SEARCH_URL with (u "https://boardgamegeek.com/geeksearch.php").
    replace (u "https://boardgamegeek.com/geeksearch.php")
      with (BGG_BASE_URL ++ u "/geeksearch.php") by (vm_compute; reflexivity).
    apply game_link_not_endpoint; [exact E | vm_compute; reflexivity ..].
  - change BGG_API_SEARCH_V2 with (u "https://boardgamegeek.com/xmlapi2/search").
    replace (u "https://boardgamegeek.com/xmlapi2/search")
      with (BGG_BASE_URL ++ u "/xmlapi2/search") by (vm_compute; reflexivity).
    apply game_link_not_endpoint; [exact E | vm_compute; reflexivity ..].
  - change BGG_API_SEARCH_V1 with (u "https://boardgamegeek.com/xmlapi/search").
    replace (u "https://boardgamegeek.com/xmlapi/search")
      with (BGG_BASE_URL ++ u "/xmlapi/search") by (vm_compute; reflexivity).
    apply game_link_not_endpoint; [exact E | vm_compute; reflexivity ..].
  - change BGG_API_THING with (u "https://boardgamegeek.com/xmlapi2/thing").
    replace (u "https://boardgamegeek.com/xmlapi2/thing")
      with (BGG_BASE_URL ++ u "/xmlapi2/thing") by (vm_compute; reflexivity).
    apply game_link_not_endpoint; [exact E | vm_compute; reflexivity ..].
Qed.

(** The request of the page of a hit is neither a scraping search nor
    a request to the structured API. *)
Lemma page_request_is_no_search (r : outcome response) (hit : search_hit)
    (rd : outcome response) :
  hit_of_outcome r = Some hit ->
  is_scrape_search (EvGet (hit_url hit) [] rd) = false
  /\ is_api_call (EvGet (hit_url hit) [] rd) = false.
Proof.
  unfold hit_of_outcome. destruct r as [resp | e]; [| discriminate].
  destruct (status_raises (status_code resp)); [discriminate |].
  intros Hhit. apply hit_url_not_endpoint in Hhit as (H1 & H2 & H3 & H4).
  unfold is_scrape_search, is_api_call.
  apply eqb_false in H1, H2, H3, H4. now rewrite H1, H2, H3, H4.
Qed.

Lemma scrape_search_is_no_api_call (ev : event) :
  is_scrape_search ev = true -> is_api_call ev = false.
Proof.
  destruct ev as [| | |url params r]; cbn [is_scrape_search is_api_call];
    try reflexivity.
  intros Hs. apply eqb_true in Hs. subst url. vm_compute. reflexivity.
Qed.

End HitProperties.

(** ** Candidate extraction *)

Lemma unique_go_Forall (P : str -> Prop) (seen names : list str) :
  Forall P names -> Forall P (unique_go seen names).
Proof.
  revert seen. induction names as [|name rest IH]; intros seen Hn; simpl.
  - constructor.
  - apply Forall_cons in Hn as [Hname Hrest].
    destruct (existsb (Py.eqb name) seen); [now apply IH |].
    constructor; [exact Hname | now apply IH].
Qed.

Lemma unique_go_first (name : str) (rest : list str) :
  unique_go [] (name :: rest) = name :: unique_go [name] rest.
Proof. reflexivity. Qed.

Section ExtractionProperties.
Context `{Unicode}.

Lemma parse_lines_nonempty_names (lines : list str) (cn : str) (acc : list str) :
  Forall (fun c => c <> []) acc ->
  Forall (fun c => c <> []) (parse_lines lines cn acc).2.
Proof.
  revert cn acc. induction lines as [|line rest IH]; intros cn acc Hacc.
  - exact Hacc.
  - cbn [parse_lines].
    destruct (startswith line (u "中文名：")); [now apply IH |].
    destruct (startswith line (u "英文名：")); [| now apply IH].
    destruct (Py.truthy (strip (replace line (u "英文名：") []))
              && keep_en_name (strip (replace line (u "英文名：") []))) eqn:E;
      [| now apply IH].
    apply IH. apply Forall_app. split; [exact Hacc |].
    constructor; [| constructor].
    apply andb_true_iff in E as [E _]. intros Hnil. rewrite Hnil in E. discriminate.
Qed.

(** What the extractor returns from an answer of the model is a pair
    whose candidate list is non-empty and holds no empty name. *)
Lemma extract_from_response_return (success : bool) (llm_response : str) v :
  extract_from_response success llm_response = Return v ->
  exists cands cn,
    v = Pair cands cn /\ cands <> [] /\ Forall (fun c => c <> []) cands.
Proof.
  unfold extract_from_response.
  destruct (negb success || negb (Py.truthy llm_response)
            || negb (Py.truthy (strip llm_response))); [discriminate |].
  assert (Forall (fun c : str => c <> []) []) as Hnil by constructor.
  pose proof (parse_lines_nonempty_names (response_lines llm_response) [] []
                Hnil) as Hnames.
  destruct (parse_lines (response_lines llm_response) [] []) as [cn ens].
  cbn [snd] in Hnames. destruct ens as [|e0 es]; [discriminate |].
  intros [= <-]. exists (unique_go [] (e0 :: es)), cn.
  split; [reflexivity |]. split.
  - rewrite unique_go_first. discriminate.
  - now apply unique_go_Forall.
Qed.

(** The three ways the answer of the model makes extraction fail. *)
Lemma extract_from_response_raises (success : bool) (llm_response : str) :
  success = false \/ strip llm_response = []
  \/ (parse_lines (response_lines llm_response) [] []).2 = [] ->
  exists msg, extract_from_response success llm_response = Raised (ValueError msg).
Proof.
  unfold extract_from_response. intros Hfail.
  destruct (negb success || negb (Py.truthy llm_response)
            || negb (Py.truthy (strip llm_response))) eqn:E; [eauto |].
  apply orb_false_iff in E as [E E3]. apply orb_false_iff in E as [E1 E2].
  destruct Hfail as [-> | [Hs | Hp]].
  - discriminate.
  - rewrite Hs in E3. discriminate.
  - destruct (parse_lines (response_lines llm_response) [] []) as [cn ens].
    cbn [snd] in Hp. subst ens. eauto.
Qed.

Lemma alias_candidates_nonempty_names (raw : str) :
  Forall (fun c => c <> []) (alias_candidates raw).
Proof.
  unfold alias_candidates. induction (split raw (u "|")) as [|c cs IH]; simpl.
  - constructor.
  - destruct (Py.truthy (strip c)) eqn:E; [| exact IH].
    constructor; [| exact IH]. intros Hnil. rewrite Hnil in E. discriminate.
Qed.

(** The list comprehension over the segments, as a filter of a map. *)
Lemma alias_candidates_filter (raw : str) :
  alias_candidates raw
  = filter (fun c => c <> []) (map strip (split raw (u "|"))).
Proof.
  unfold alias_candidates. induction (split raw (u "|")) as [|c cs IH]; simpl.
  - reflexivity.
  - rewrite filter_cons, IH. destruct (strip c) as [|x s]; simpl.
    + destruct (decide (@nil N <> [])); [congruence | reflexivity].
    + destruct (decide (x :: s <> [])); [reflexivity | congruence].
Qed.

Lemma strip_nil : strip [] = [].
Proof. reflexivity. Qed.

Lemma alias_candidates_nil : alias_candidates [] = [].
Proof. reflexivity. Qed.

Context {W : Type} `{Services W}.

(** The extractor, call by call. *)
Lemma fetch_run (keyword : str) (w : W) :
  fetch_english_candidates_from_ddg keyword w =
    let q := keyword ++ u "的英文名是什么" in
    match ddgs_text q w with
    | (Raised e, w1) => (Raised e, w1, [EvDdgs q (Raised e)])
    | (Return results, w1) =>
        match get_available_models w1 with
        | (Raised e, w2) =>
            (Raised e, w2, [EvDdgs q (Return results); EvModels (Raised e)])
        | (Return models, w2) =>
            match models with
            | [] => (Return BareList, w2,
                     [EvDdgs q (Return results); EvModels (Return [])])
            | _ =>
                match select_model models with
                | None =>
                    (Raised (UnboundLocalError (u "model_config")), w2,
                     [EvDdgs q (Return results); EvModels (Return models)])
                | Some cfg =>
                    match generate_with_model (build_prompt results) cfg w2 with
                    | (Raised e, w3) =>
                        (Raised e, w3,
                         [EvDdgs q (Return results); EvModels (Return models);
                          EvGenerate (build_prompt results) cfg (Raised e)])
                    | (Return a, w3) =>
                        (extract_from_response a.1 a.2, w3,
                         [EvDdgs q (Return results); EvModels (Return models);
                          EvGenerate (build_prompt results) cfg (Return a)])
                    end
                end
            end
        end
    end.
Proof.
  unfold fetch_english_candidates_from_ddg, try_except, bind, call, ret, raise.
  cbn zeta.
  destruct (ddgs_text (keyword ++ u "的英文名是什么") w) as [[results | e] w1];
    [| reflexivity].
  destruct (get_available_models w1) as [[models | e] w2]; [| reflexivity].
  destruct models as [|m ms]; [reflexivity |].
  destruct (select_model (m :: ms)) as [cfg |]; [| reflexivity].
  destruct (generate_with_model (build_prompt results) cfg w2) as [[a | e] w3];
    [| reflexivity].
  destruct (extract_from_response a.1 a.2); reflexivity.
Qed.

(** The extractor calls the search and language-model services only. *)
Lemma fetch_trace (keyword : str) (w : W) :
  Forall (fun ev => is_extraction_call ev = true)
         (trace_of (fetch_english_candidates_from_ddg keyword w)).
Proof.
  rewrite fetch_run. cbn zeta.
  destruct (ddgs_text _ w) as [[results | e] w1];
    [| repeat constructor].
  destruct (get_available_models w1) as [[models | e] w2]; [| repeat constructor].
  destruct models as [|m ms]; [repeat constructor |].
  destruct (select_model (m :: ms)) as [cfg |]; [| repeat constructor].
  destruct (generate_with_model (build_prompt results) cfg w2) as [[a | e] w3];
    repeat constructor.
Qed.

(** What the extractor returns is never a pair with an empty list. *)
Lemma fetch_return (keyword : str) (w : W) v w' tr :
  fetch_english_candidates_from_ddg keyword w = (Return v, w', tr) ->
  v = BareList
  \/ exists cands cn,
       v = Pair cands cn /\ cands <> [] /\ Forall (fun c => c <> []) cands.
Proof.
  rewrite fetch_run. cbn zeta.
  destruct (ddgs_text _ w) as [[results | e] w1]; [| discriminate].
  destruct (get_available_models w1) as [[models | e] w2]; [| discriminate].
  destruct models as [|m ms]; [intros [= <- <- <-]; now left |].
  destruct (select_model (m :: ms)) as [cfg |]; [| discriminate].
  destruct (generate_with_model (build_prompt results) cfg w2) as [[a | e] w3];
    [| discriminate].
  destruct (extract_from_response a.1 a.2) as [v0 |] eqn:E; [| discriminate].
  intros [= <- <- <-]. right. now apply extract_from_response_return in E.
Qed.

End ExtractionProperties.

(** ** C1, C10: the head of the resolver *)

Section ExtractCandidates.
Context `{Unicode} `{Libs} {W : Type} `{Services W}.

(** With a candidate in the alias entry nothing else is consulted. *)
Lemma extract_candidates_alias (cn : str) (w : W) :
  alias_candidates (alias_raw cn w) <> [] ->
  extract_candidates cn w
  = (Return (alias_candidates (alias_raw cn w), true, cn), w, []).
Proof.
  unfold extract_candidates, alias_raw. intros Hne.
  destruct (Py.truthy (strip (default [] (load_alias w !! cn)))) eqn:E.
  - destruct (alias_candidates (strip (default [] (load_alias w !! cn))));
      [congruence | reflexivity].
  - destruct (strip (default [] (load_alias w !! cn))); [| discriminate].
    now rewrite alias_candidates_nil in Hne.
Qed.

(** Without one, the outcome is that of the extractor, the bare list
    failing to unpack. *)
Lemma extract_candidates_ddg (cn : str) (w : W) :
  alias_candidates (alias_raw cn w) = [] ->
  extract_candidates cn w
  = match fetch_english_candidates_from_ddg (cn ++ u " 桌游") w with
    | (Return (Pair cands ecn), w', tr) =>
        (Return (cands, Py.truthy (alias_raw cn w), ecn), w', tr)
    | (Return BareList, w', tr) =>
        (Raised (ValueError (u "not enough values to unpack (expected 2, got 0)")),
         w', tr)
    | (Raised e, w', tr) => (Raised e, w', tr)
    end.
Proof.
  unfold extract_candidates, alias_raw. intros Hnil.
  destruct (Py.truthy (strip (default [] (load_alias w !! cn)))) eqn:E.
  - rewrite Hnil. unfold bind.
    destruct (fetch_english_candidates_from_ddg (cn ++ u " 桌游") w)
      as [[[[| cands ecn] | e] w'] tr]; unfold ret, raise; cbn beta iota;
      rewrite ?app_nil_r; reflexivity.
  - unfold bind.
    destruct (fetch_english_candidates_from_ddg (cn ++ u " 桌游") w)
      as [[[[| cands ecn] | e] w'] tr]; unfold ret, raise; cbn beta iota;
      rewrite ?app_nil_r; reflexivity.
Qed.

(** Extraction calls the search and language-model services only, and
    the candidates it returns are a non-empty list of non-empty names. *)
Lemma extract_candidates_run (cn : str) (w : W) :
  Forall (fun ev => is_extraction_call ev = true) (trace_of (extract_candidates cn w))
  /\ forall cands fa ecn w' tr,
       extract_candidates cn w = (Return (cands, fa, ecn), w', tr) ->
       cands <> [] /\ Forall (fun c => c <> []) cands.
Proof.
  destruct (alias_candidates (alias_raw cn w)) as [|c0 cs] eqn:E.
  - rewrite (extract_candidates_ddg cn w E).
    pose proof (fetch_trace (cn ++ u " 桌游") w) as Htr.
    pose proof (fetch_return (cn ++ u " 桌游") w) as Hret.
    destruct (fetch_english_candidates_from_ddg (cn ++ u " 桌游") w)
      as [[[v | e] w1] tr1].
    + destruct (Hret v w1 tr1 eq_refl) as [-> | (cands & ecn & -> & Hne & Hall)].
      * split; [exact Htr | discriminate].
      * split; [exact Htr |]. intros ? ? ? ? ? [= <- <- <- <- <-]. now split.
    + split; [exact Htr | discriminate].
  - assert (alias_candidates (alias_raw cn w) <> []) as Hne by (rewrite E; discriminate).
    rewrite (extract_candidates_alias cn w Hne). split; [constructor |].
    intros ? ? ? ? ? [= <- <- <- <- <-]. split; [exact Hne |].
    apply alias_candidates_nonempty_names.
Qed.

(** C1, as the code has it.  For every query whose alias entry holds
    at least one segment that is not blank, candidate extraction gives
    exactly the trimmed, non-empty pipe-separated segments of the
    trimmed entry, in their order, with [from_alias] true and the
    query as [extracted_cn_name]; it calls no service at all and
    leaves the world as it was. *)
Theorem alias_entry_short_circuits_extraction (cn entry : str) (w : W) :
  load_alias w !! cn = Some entry ->
  (exists c, In c (split (strip entry) (u "|")) /\ strip c <> []) ->
  extract_candidates cn w
  = (Return (filter (fun c => c <> []) (map strip (split (strip entry) (u "|"))),
             true, cn),
     w, []).
Proof.
  intros Hentry (c & Hin & Hc).
  assert (alias_raw cn w = strip entry) as Hraw
    by (unfold alias_raw; now rewrite Hentry).
  rewrite <- alias_candidates_filter, <- Hraw.
  apply extract_candidates_alias.
  rewrite Hraw, alias_candidates_filter. intros Hnil.
  assert (strip c ∈ filter (fun c => c <> []) (map strip (split (strip entry) (u "|"))))
    as Hmem.
  { apply list_elem_of_filter. split; [exact Hc |].
    apply list_elem_of_In, in_map, Hin. }
  rewrite Hnil in Hmem. now apply not_elem_of_nil in Hmem.
Qed.

(** C10. When the alias entry gives no candidate and the language-model
    service reports no available model, the extractor returns the bare
    empty list, and the resolver raises the [ValueError] of the failed
    unpacking instead of returning; it made no catalog request. *)
Theorem no_available_model_makes_resolver_raise (cn : str) (w : W)
    (results : list (str * str)) (w1 w2 : W) :
  alias_candidates (alias_raw cn w) = [] ->
  ddgs_text ((cn ++ u " 桌游") ++ u "的英文名是什么") w = (Return results, w1) ->
  get_available_models w1 = (Return [], w2) ->
  result_of (fetch_english_candidates_from_ddg (cn ++ u " 桌游") w) = Return BareList
  /\ result_of (resolve_boardgame_by_cn_name cn w)
     = Raised (ValueError (u "not enough values to unpack (expected 2, got 0)"))
  /\ Forall (fun ev => is_extraction_call ev = true)
            (trace_of (resolve_boardgame_by_cn_name cn w)).
Proof.
  intros Halias Hddg Hmodels.
  assert (fetch_english_candidates_from_ddg (cn ++ u " 桌游") w
          = (Return BareList, w2,
             [EvDdgs ((cn ++ u " 桌游") ++ u "的英文名是什么") (Return results);
              EvModels (Return [])])) as Hfetch.
  { rewrite fetch_run. cbn zeta. now rewrite Hddg, Hmodels. }
  split; [now rewrite Hfetch |].
  unfold resolve_boardgame_by_cn_name, bind.
  rewrite (extract_candidates_ddg cn w Halias), Hfetch.
  split; [reflexivity |]. repeat constructor.
Qed.

(** The resolver raises exactly when extraction does, and returns a
    record otherwise. *)
Lemma resolver_outcome (cn : str) (w : W) :
  (exists d, result_of (resolve_boardgame_by_cn_name cn w) = Return (Some d))
  \/ (exists e,
        result_of (extract_candidates cn w) = Raised e
        /\ result_of (resolve_boardgame_by_cn_name cn w) = Raised e
        /\ trace_of (resolve_boardgame_by_cn_name cn w)
           = trace_of (extract_candidates cn w)).
Proof.
  unfold resolve_boardgame_by_cn_name, bind.
  destruct (extract_candidates_run cn w) as [_ Hc].
  destruct (extract_candidates cn w) as [[[[[cands fa] ecn] | e] w1] tr0].
  - left. destruct (Hc cands fa ecn w1 tr0 eq_refl) as [Hne _].
    destruct (resolve_candidates_run cands fa ecn w1 Hne)
      as (d & w2 & ta & tm & tt & -> & _).
    now exists d.
  - right. exists e. repeat split.
Qed.

End ExtractCandidates.

(** *** The head of the resolver on the scenarios *)

Lemma alias_entry_short_circuits_extraction_witness :
  extract_candidates (u "卡坦岛") world_api
  = (Return (filter (fun c => c <> [])
               (map (strip)
                  (split (strip (u " Catan | Settlers of Catan "))
                     (u "|"))),
             true, u "卡坦岛"),
     world_api, []).
Proof.
  apply (alias_entry_short_circuits_extraction
           (u "卡坦岛") (u " Catan | Settlers of Catan ") world_api).
  - vm_compute. reflexivity.
  - exists (u "Catan "). split.
    + vm_compute. left. reflexivity.
    + vm_compute. discriminate.
Defined.

(** The scenario of the specification: the entry of ["山屋惊魂"] gives
    exactly its one name, and no service is called. *)
Example alias_scenario_betrayal :
  extract_candidates (u "山屋惊魂") world_api
  = (Return ([u "Betrayal at House on the Hill"], true, u "山屋惊魂"), world_api, []).
Proof. vm_compute. reflexivity. Qed.

(** C1 as stated fails: the entry ["|"] is a non-empty string, its
    trimmed segments are two empty names, and extraction goes through
    the web search and the language model and returns the model's
    candidate, still flagged as coming from the dictionary. *)
Lemma alias_entry_of_separators_reaches_search :
  load_alias (world_llm [(u "utils", 1)] (true, LLM_ANSWER)) !! u "空" = Some (u "|")
  /\ map (strip) (split (u "|") (u "|")) = [[]; []]
  /\ result_of (extract_candidates (u "空")
                  (world_llm [(u "utils", 1)] (true, LLM_ANSWER)))
     = Return ([u "Catan"], true, u "卡坦岛")
  /\ map is_extraction_call
       (trace_of (extract_candidates (u "空")
                    (world_llm [(u "utils", 1)] (true, LLM_ANSWER))))
     = [true; true; true].
Proof. vm_compute. repeat split. Qed.

Lemma no_available_model_makes_resolver_raise_witness :
  result_of (fetch_english_candidates_from_ddg
               (u "璀璨宝石" ++ u " 桌游") (world_llm [] (true, LLM_ANSWER)))
  = Return BareList
  /\ result_of (resolve_boardgame_by_cn_name
                  (u "璀璨宝石") (world_llm [] (true, LLM_ANSWER)))
     = Raised (ValueError (u "not enough values to unpack (expected 2, got 0)"))
  /\ Forall (fun ev => is_extraction_call ev = true)
       (trace_of (resolve_boardgame_by_cn_name
                    (u "璀璨宝石") (world_llm [] (true, LLM_ANSWER)))).
Proof.
  apply (no_available_model_makes_resolver_raise (u "璀璨宝石") (world_llm [] (true, LLM_ANSWER))
           [(u "卡坦岛 - 桌游", u "Catan (The Settlers of Catan)")]
           (world_llm [] (true, LLM_ANSWER)) (world_llm [] (true, LLM_ANSWER))).
  - vm_compute. reflexivity.
  - reflexivity.
  - reflexivity.
Defined.

(** C2 as stated fails: the language model reports failure, the
    extractor raises, and the resolver raises the same error instead
    of returning [None]. *)
Lemma failed_model_call_raises_from_resolver :
  result_of (resolve_boardgame_by_cn_name
               (u "璀璨宝石") (world_llm [(u "utils", 1)] (false, [])))
  = Raised (ValueError (u "LLM生成失败或返回空结果")).
Proof. vm_compute. reflexivity. Qed.

Lemma register_overwrites_all_aliases_witness :
  cr_file (execute IO_OK (u "璀璨宝石") (u " Splendor ") (FileDict ALIASES))
  = FileDict {[ strip (u "璀璨宝石") := strip (u " Splendor ") ]}
  /\ exists d,
       load_alias_from_file
         (cr_file (execute IO_OK (u "璀璨宝石") (u " Splendor ") (FileDict ALIASES)))
       = LoadedDict d
       /\ d !! strip (u "璀璨宝石") = Some (strip (u " Splendor "))
       /\ forall k, k <> strip (u "璀璨宝石") -> d !! k = None.
Proof.
  apply (register_overwrites_all_aliases IO_OK
           (u "璀璨宝石") (u " Splendor ") (FileDict ALIASES)).
  vm_compute. reflexivity.
Defined.

(** The registration of a new name on a file that holds three aliases:
    the three are gone afterwards. *)
Example register_drops_existing_aliases :
  load_alias_from_file (FileDict ALIASES) = LoadedDict ALIASES
  /\ ALIASES !! u "卡坦岛" = Some (u " Catan | Settlers of Catan ")
  /\ cr_file (execute IO_OK (u "璀璨宝石") (u "Splendor") (FileDict ALIASES))
     = FileDict {[ u "璀璨宝石" := u "Splendor" ]}
  /\ ({[ u "璀璨宝石" := u "Splendor" ]} : gmap str str) !! u "卡坦岛" = None.
Proof. vm_compute. repeat split. Qed.

(** ** C3: the order of the two loops *)

(** An element with the property [Q] of a list in three parts, the
    outer two free of [Q], lies in the middle part. *)
Lemma split_at_marked {A} (Q : A -> Prop) (l1 l2 l3 t1 t2 : list A) (x : A) :
  l1 ++ l2 ++ l3 = t1 ++ x :: t2 ->
  Forall (fun y => ~ Q y) l1 ->
  Forall (fun y => ~ Q y) l3 ->
  Q x ->
  exists m1 m2, l2 = m1 ++ x :: m2 /\ t1 = l1 ++ m1 /\ t2 = m2 ++ l3.
Proof.
  intros Heq H1 H3 Hx. revert t1 Heq.
  induction H1 as [|y l1 Hy H1 IH]; intros t1 Heq.
  - simpl in Heq. revert t1 Heq. induction l2 as [|y l2 IH2]; intros t1 Heq.
    + simpl in Heq. exfalso. rewrite Forall_forall in H3.
      apply (H3 x); [| exact Hx]. rewrite Heq. apply list_elem_of_In.
      apply in_or_app. right. now left.
    + destruct t1 as [|z t1]; simpl in Heq; injection Heq as -> Heq.
      * exists [], l2. now rewrite Heq.
      * destruct (IH2 t1 Heq) as (m1 & m2 & -> & -> & ->).
        now exists (z :: m1), m2.
  - destruct t1 as [|z t1]; simpl in Heq; injection Heq as -> Heq.
    + contradiction.
    + destruct (IH t1 Heq) as (m1 & m2 & -> & -> & ->).
      now exists m1, m2.
Qed.

Section LoopOrder.
Context `{Unicode} `{Libs} {W : Type} `{Services W}.

Lemma missed_is_no_hit (tr : list event) :
  Forall missed tr -> Forall (fun ev => ~ (scrape_hit ev <> None)) tr.
Proof.
  intros Hm. eapply Forall_impl; [exact Hm |].
  intros ev [_ Hnone] Hsome. congruence.
Qed.

Lemma extraction_is_no_search (tr : list event) :
  Forall (fun ev => is_extraction_call ev = true) tr ->
  Forall (fun ev => ~ (is_scrape_search ev = true)) tr.
Proof.
  intros Hx. eapply Forall_impl; [exact Hx |].
  intros [| | |url params r]; simpl; congruence.
Qed.

Lemma api_is_no_search (tr : list event) :
  Forall (fun ev => is_api_call ev = true) tr ->
  Forall (fun ev => ~ (is_scrape_search ev = true)) tr.
Proof.
  intros Hx. eapply Forall_impl; [exact Hx |].
  intros ev Hapi Hs. apply api_call_is_no_scrape_search in Hapi. congruence.
Qed.

(** C3. In every resolution run, a scraping search is issued only
    after the first loop has run over every candidate without giving a
    record: what precedes it in the trace is the extraction, then the
    complete run of the first loop, which holds a primary structured
    search for every candidate, then scraping searches that found
    nothing.  No request to the structured API follows it.  And when
    it returns a hit, no scraping search follows it: the second loop
    stops there, whatever the request of the page gives. *)
Theorem scraping_follows_api_and_stops_at_first_hit
    (cn : str) (w : W) (cands : list str) (from_alias : bool) (ecn : str)
    (w1 : W) (tr0 tr1 : list event) (ev : event) (tr2 : list event) :
  extract_candidates cn w = (Return (cands, from_alias, ecn), w1, tr0) ->
  trace_of (resolve_boardgame_by_cn_name cn w) = tr1 ++ ev :: tr2 ->
  is_scrape_search ev = true ->
  (exists w2 tr_api tr_miss,
     api_loop cands from_alias ecn w1 = (Return None, w2, tr_api)
     /\ tr1 = tr0 ++ tr_api ++ tr_miss
     /\ (forall q, In q cands -> exists ev', In ev' tr_api /\ api_search_for q ev')
     /\ Forall missed tr_miss)
  /\ (forall ev', In ev' tr2 -> is_api_call ev' = false)
  /\ (forall hit, scrape_hit ev = Some hit ->
      forall ev', In ev' tr2 -> is_scrape_search ev' = false).
Proof.
  intros Hext Htrace Hev.
  destruct (extract_candidates_run cn w) as [Hx Hc].
  rewrite Hext in Hx. unfold trace_of in Hx. cbn [snd] in Hx.
  destruct (Hc cands from_alias ecn w1 tr0 Hext) as [Hne _].
  destruct (resolve_candidates_run cands from_alias ecn w1 Hne)
    as (d & w2 & ta & tm & tt & Hrun & Hapi & Hmiss & Hres & ares & wa & Hloop & Hsome).
  unfold resolve_boardgame_by_cn_name, bind, trace_of in Htrace.
  rewrite Hext, Hrun in Htrace. cbn [snd] in Htrace.
  assert (Forall (fun y => ~ (is_scrape_search y = true)) (tr0 ++ ta)) as Hhead.
  { apply Forall_app. split;
      [now apply extraction_is_no_search | now apply api_is_no_search]. }
  assert (forall q, In q cands -> exists ev', In ev' ta /\ api_search_for q ev')
    as Hall by (inversion Hres; subst; try assumption;
                exfalso; rewrite !app_nil_r in Htrace;
                rewrite Forall_forall in Hhead;
                apply (Hhead ev); [| exact Hev];
                rewrite Htrace; apply list_elem_of_In, in_or_app; right; now left).
  assert (ares = None) as ->.
  { destruct ares as [d' |]; [| reflexivity]. exfalso.
    destruct Hsome as [-> ->]; [discriminate |].
    rewrite !app_nil_r in Htrace. rewrite Forall_forall in Hhead.
    apply (Hhead ev); [| exact Hev].
    rewrite Htrace. apply list_elem_of_In, in_or_app. right. now left. }
  assert (forall ev', In ev' tm -> is_api_call ev' = false /\ is_scrape_search ev' = true)
    as Htm.
  { intros ev' Hin. rewrite Forall_forall in Hmiss.
    apply list_elem_of_In, Hmiss in Hin as [Hs _].
    split; [now apply scrape_search_is_no_api_call | exact Hs]. }
  inversion Hres; subst.
  - (* the first loop gave the record *)
    exfalso. rewrite !app_nil_r in Htrace. rewrite Forall_forall in Hhead.
    apply (Hhead ev); [| exact Hev].
    rewrite Htrace. apply list_elem_of_In, in_or_app. right. now left.
  - (* no hit at all *)
    rewrite app_nil_r in Htrace.
    assert ((tr0 ++ ta) ++ tm ++ [] = tr1 ++ ev :: tr2) as Hsplit
      by (now rewrite app_nil_r, <- app_assoc).
    destruct (split_at_marked (fun y => is_scrape_search y = true)
                _ _ _ _ _ _ Hsplit Hhead ltac:(constructor) Hev)
      as (m1 & m2 & Hm & -> & ->).
    subst tm. apply Forall_app in Hmiss as [Hm1 Hm2].
    apply Forall_cons in Hm2 as [[_ Hnohit] Hm2].
    split; [| split].
    + exists wa, ta, m1. rewrite <- app_assoc. repeat split; assumption.
    + intros ev' Hin. rewrite app_nil_r in Hin.
      apply Htm. apply in_or_app. right. now right.
    + intros hit Hhit. congruence.
  - (* a hit, and its page gave a record *)
    match goal with Hfor : scrape_search_for _ (Some ?h) ?e |- _ =>
      destruct Hfor as (rh & -> & Hhit) end.
    destruct (page_request_is_no_search rh hit rd Hhit) as [Hps Hpa].
    destruct (search_event_is_scrape_search (web_search_params q) rh) as [Hes Heh].
    assert ((tr0 ++ ta) ++ (tm ++ [EvGet BGG_SEARCH_URL (web_search_params q) rh])
              ++ [EvGet (hit_url hit) [] rd] = tr1 ++ ev :: tr2) as Hsplit
      by (rewrite <- Htrace, <- !app_assoc; reflexivity).
    destruct (split_at_marked (fun y => is_scrape_search y = true)
                _ _ _ _ _ _ Hsplit Hhead
                ltac:(constructor; [congruence | constructor]) Hev)
      as (m1 & m2 & Hm & -> & ->).
    split; [| split].
    + destruct m2 as [|e2 m2'] using rev_ind.
      * apply app_inj_tail in Hm as [-> <-].
        exists wa, ta, m1. rewrite <- app_assoc. repeat split; assumption.
      * rewrite app_comm_cons, app_assoc in Hm. apply app_inj_tail in Hm as [-> <-].
        apply Forall_app in Hmiss as [Hm1 _].
        exists wa, ta, m1. rewrite <- app_assoc. repeat split; assumption.
    + intros ev' Hin. apply in_app_or in Hin as [Hin | [<- | []]]; [| exact Hpa].
      assert (In ev' (tm ++ [EvGet BGG_SEARCH_URL (web_search_params q) rh])) as Hin'
        by (rewrite Hm; apply in_or_app; right; now right).
      apply in_app_or in Hin' as [Hin' | [<- | []]].
      * now apply Htm.
      * now apply scrape_search_is_no_api_call.
    + intros hit' Hhit'.
      assert (tm ++ [EvGet BGG_SEARCH_URL (web_search_params q) rh] ++ []
              = m1 ++ ev :: m2) as Hsplit2 by (now rewrite app_nil_r).
      destruct (split_at_marked (fun y => scrape_hit y <> None)
                  _ _ _ _ _ _ Hsplit2 (missed_is_no_hit _ Hmiss)
                  ltac:(constructor) ltac:(congruence))
        as (n1 & n2 & Hn & _ & ->).
      destruct n1 as [|a n1]; [| destruct n1; discriminate].
      injection Hn as _ <-.
      intros ev' [<- | []]. exact Hps.
  - (* a hit, and its page gave nothing *)
    match goal with Hfor : scrape_search_for _ (Some ?h) ?e |- _ =>
      destruct Hfor as (rh & -> & Hhit) end.
    destruct (page_request_is_no_search rh hit rd Hhit) as [Hps Hpa].
    destruct (search_event_is_scrape_search (web_search_params q) rh) as [Hes Heh].
    assert ((tr0 ++ ta) ++ (tm ++ [EvGet BGG_SEARCH_URL (web_search_params q) rh])
              ++ [EvGet (hit_url hit) [] rd] = tr1 ++ ev :: tr2) as Hsplit
      by (rewrite <- Htrace, <- !app_assoc; reflexivity).
    destruct (split_at_marked (fun y => is_scrape_search y = true)
                _ _ _ _ _ _ Hsplit Hhead
                ltac:(constructor; [congruence | constructor]) Hev)
      as (m1 & m2 & Hm & -> & ->).
    split; [| split].
    + destruct m2 as [|e2 m2'] using rev_ind.
      * apply app_inj_tail in Hm as [-> <-].
        exists wa, ta, m1. rewrite <- app_assoc. repeat split; assumption.
      * rewrite app_comm_cons, app_assoc in Hm. apply app_inj_tail in Hm as [-> <-].
        apply Forall_app in Hmiss as [Hm1 _].
        exists wa, ta, m1. rewrite <- app_assoc. repeat split; assumption.
    + intros ev' Hin. apply in_app_or in Hin as [Hin | [<- | []]]; [| exact Hpa].
      assert (In ev' (tm ++ [EvGet BGG_SEARCH_URL (web_search_params q) rh])) as Hin'
        by (rewrite Hm; apply in_or_app; right; now right).
      apply in_app_or in Hin' as [Hin' | [<- | []]].
      * now apply Htm.
      * now apply scrape_search_is_no_api_call.
    + intros hit' Hhit'.
      assert (tm ++ [EvGet BGG_SEARCH_URL (web_search_params q) rh] ++ []
              = m1 ++ ev :: m2) as Hsplit2 by (now rewrite app_nil_r).
      destruct (split_at_marked (fun y => scrape_hit y <> None)
                  _ _ _ _ _ _ Hsplit2 (missed_is_no_hit _ Hmiss)
                  ltac:(constructor) ltac:(congruence))
        as (n1 & n2 & Hn & _ & ->).
      destruct n1 as [|a n1]; [| destruct n1; discriminate].
      injection Hn as _ <-.
      intros ev' [<- | []]. exact Hps.
Qed.

End LoopOrder.

(** ** Records *)

Lemma dict_get_set (d : dict) (k : str) (v : pyval) (k' : str) :
  dict_get (dict_set d k v) k' = if Py.eqb k k' then Some v else dict_get d k'.
Proof.
  induction d as [|[k0 v0] d IH]; cbn [dict_get dict_set].
  - reflexivity.
  - destruct (Py.eqb k0 k) eqn:E; cbn [dict_get].
    + apply eqb_true in E. subst k0. destruct (Py.eqb k k'); reflexivity.
    + rewrite IH. destruct (Py.eqb k0 k') eqn:E'; [| reflexivity].
      apply eqb_true in E'. subst k0.
      destruct (Py.eqb k k') eqn:E2; [| reflexivity].
      apply eqb_true in E2. subst k'. rewrite eqb_refl in E. discriminate.
Qed.

(** Tagging a record touches the five provenance keys only. *)
Lemma tag_details_keeps (d : dict) (q cn source : str) (fa : bool) (bgg_source : str) :
  dict_get (tag_details d q cn source fa bgg_source) (u "bgg_failed")
  = dict_get d (u "bgg_failed")
  /\ dict_get (tag_details d q cn source fa bgg_source) (u "bgg_id")
     = dict_get d (u "bgg_id")
  /\ dict_get (tag_details d q cn source fa bgg_source) (u "avg_weight")
     = dict_get d (u "avg_weight")
  /\ dict_get (tag_details d q cn source fa bgg_source) (u "_bgg_source")
     = Some (PStr bgg_source).
Proof.
  unfold tag_details. rewrite !dict_get_set. eval_keys. repeat split.
Qed.

Section RecordProperties.
Context `{Unicode} `{Libs}.

(** A record of the scraping detail: where its average weight comes
    from, and the keys it has and lacks. *)
Lemma details_of_page_record (game_url search_name page : str) (d : dict) :
  details_of_page game_url search_name page = Some d ->
  (exists v, page_avgweight page = Some v
             /\ dict_get d (u "avg_weight") = Some (PStr (avgweight_str v)))
  /\ dict_get d (u "bgg_failed") = None
  /\ exists x, dict_get d (u "bgg_id") = Some x.
Proof.
  unfold details_of_page, page_avgweight. intros Hd.
  destruct (find_script_data (soup_scripts page)) as [sd |]; [| discriminate].
  cbn [mbind option_bind] in *.
  destruct (negb (is_true sd)); [discriminate |].
  destruct (py_get sd (u "item") (PDict [])) as [item |]; [| discriminate].
  cbn [mbind option_bind] in *.
  destruct (py_get item (u "stats") (PDict [])) as [stats |]; [| discriminate].
  cbn [mbind option_bind] in *.
  repeat (match type of Hd with
          | (match ?x with _ => _ end) = Some _ =>
              destruct x eqn:?; try discriminate
          | (?m ≫= _) = Some _ =>
              destruct m eqn:?; [| discriminate]; cbn [mbind option_bind] in Hd
          | (let '(_, _) := ?x in _) = Some _ => destruct x eqn:?
          end).
  injection Hd as <-. cbn [dict_get]. eval_keys. cbn iota.
  split; [| split]; eauto.
Qed.

Lemma details_of_outcome_page (game_url search_name : str)
    (r : outcome response) (d : dict) :
  details_of_outcome game_url search_name r = Some d ->
  exists resp, r = Return resp
               /\ details_of_page game_url search_name (text resp) = Some d.
Proof.
  unfold details_of_outcome. destruct r as [resp | e]; [| discriminate].
  destruct (status_raises (status_code resp)); [discriminate |].
  intros Hd. now exists resp.
Qed.

End RecordProperties.

(** ** C8: the average weight of a scraped page *)

Section AverageWeight.
Context `{Unicode} `{Libs} {W : Type} `{Services W}.

Lemma avgweight_str_cases (v : pyval) :
  (exists s f, v = PStr s /\ s <> [] /\ float_of_str s = Some f
               /\ avgweight_str v = format_2f f)
  \/ ((forall s, v = PStr s -> s = [] \/ float_of_str s = None)
      /\ avgweight_str v = u "N/A").
Proof.
  destruct v as [| b | z | f | s | l | d];
    try (right; split; [intros s [=] | reflexivity]).
  unfold avgweight_str. destruct s as [|c s].
  - right. split; [intros s' [= <-]; now left | reflexivity].
  - cbn [Py.truthy Py.is_empty negb].
    destruct (float_of_str (c :: s)) as [f |] eqn:E.
    + left. exists (c :: s), f. repeat split; [discriminate | exact E].
    + right. split; [intros s' [= <-]; now right | reflexivity].
Qed.

(** C8, as the code has it.  For every page the scraping detail makes
    a record of, the [avg_weight] of the record is the page's
    average-weight value formatted by [format(x, ".2f")] when that
    value is a non-empty string that [float] parses, and ["N/A"] in
    every other case: an empty or unparseable string, and any value
    that is not a string, a JSON number included. *)
Theorem avg_weight_formats_parseable_strings_only
    (game_url search_name : str) (w : W) (d : dict) :
  result_of (bgg_thing_details game_url search_name w) = Return (Some d) ->
  exists resp v,
    (client_get game_url [] w).1 = Return resp
    /\ page_avgweight (text resp) = Some v
    /\ ((exists s f, v = PStr s /\ s <> [] /\ float_of_str s = Some f
                     /\ dict_get d (u "avg_weight") = Some (PStr (format_2f f)))
        \/ ((forall s, v = PStr s -> s = [] \/ float_of_str s = None)
            /\ dict_get d (u "avg_weight") = Some (PStr (u "N/A")))).
Proof.
  rewrite bgg_thing_details_run. unfold result_of. cbn [fst].
  intros [= Hd]. apply details_of_outcome_page in Hd as (resp & Hr & Hd).
  apply details_of_page_record in Hd as ((v & Hv & Havg) & _).
  exists resp, v. split; [exact Hr |]. split; [exact Hv |].
  rewrite Havg.
  destruct (avgweight_str_cases v) as [(s & f & -> & Hs & Hf & ->) | [Hall ->]].
  - left. now exists s, f.
  - right. now split.
Qed.

End AverageWeight.

Lemma avg_weight_formats_parseable_strings_only_witness :
  exists resp v,
    (client_get GAME_URL [] (world_page (page_of JSON_WEIGHT_STRING))).1 = Return resp
    /\ page_avgweight (text resp) = Some v
    /\ ((exists s f, v = PStr s /\ s <> [] /\ float_of_str s = Some f
           /\ dict_get
                (default []
                   (details_of_page
                      GAME_URL (u "Catan") (page_of JSON_WEIGHT_STRING)))
                (u "avg_weight") = Some (PStr (format_2f f)))
        \/ ((forall s, v = PStr s -> s = [] \/ float_of_str s = None)
            /\ dict_get
                 (default []
                    (details_of_page
                       GAME_URL (u "Catan") (page_of JSON_WEIGHT_STRING)))
                 (u "avg_weight") = Some (PStr (u "N/A")))).
Proof.
  apply (avg_weight_formats_parseable_strings_only GAME_URL (u "Catan")
           (world_page (page_of JSON_WEIGHT_STRING))).
  vm_compute. reflexivity.
Defined.

(** A page whose average weight is the string ["2.5000"] gives
    ["2.50"]. *)
Example avg_weight_of_string :
  page_avgweight (page_of JSON_WEIGHT_STRING)
  = Some (PStr (u "2.5000"))
  /\ option_map (fun d => dict_get d (u "avg_weight"))
       (result_of_return
          (bgg_thing_details
             GAME_URL (u "Catan") (world_page (page_of JSON_WEIGHT_STRING))))
     = Some (Some (PStr (u "2.50"))).
Proof. vm_compute. repeat split. Qed.

(** C8 as stated fails: a page whose average weight is the JSON number
    [2.5] gives ["N/A"], where the two-decimal format of the number is
    ["2.50"]. *)
Lemma avg_weight_of_json_number_is_not_formatted :
  page_avgweight (page_of JSON_WEIGHT_NUMBER)
  = Some (PFloat 2.5%float)
  /\ claimed_avg_weight (PFloat 2.5%float) = u "2.50"
  /\ option_map (fun d => dict_get d (u "avg_weight"))
       (result_of_return
          (bgg_thing_details
             GAME_URL (u "Catan") (world_page (page_of JSON_WEIGHT_NUMBER))))
     = Some (Some (PStr (u "N/A"))).
Proof. vm_compute. repeat split. Qed.

(** *** C3 on a scenario *)

Lemma scraping_follows_api_and_stops_at_first_hit_witness :
  (exists w2 tr_api tr_miss,
     api_loop [u "Catan"; u "Settlers of Catan"] true (u "卡坦岛") world_scrape_hit_only
     = (Return None, w2, tr_api)
     /\ TRACE_BEFORE_HIT = [] ++ tr_api ++ tr_miss
     /\ (forall q, In q [u "Catan"; u "Settlers of Catan"] ->
         exists ev', In ev' tr_api /\ api_search_for q ev')
     /\ Forall missed tr_miss)
  /\ (forall ev', In ev' TRACE_AFTER_HIT -> is_api_call ev' = false)
  /\ (forall hit, scrape_hit HIT_EVENT = Some hit ->
      forall ev', In ev' TRACE_AFTER_HIT -> is_scrape_search ev' = false).
Proof.
  apply (scraping_follows_api_and_stops_at_first_hit
           (u "卡坦岛") world_scrape_hit_only
           [u "Catan"; u "Settlers of Catan"] true (u "卡坦岛")
           world_scrape_hit_only [] TRACE_BEFORE_HIT HIT_EVENT TRACE_AFTER_HIT).
  - vm_compute. reflexivity.
  - vm_compute. reflexivity.
  - vm_compute. reflexivity.
Defined.

(** ** C6: the results of the resolver *)

Section ResolverResults.
Context `{Unicode} `{Libs} {W : Type} `{Services W}.

Lemma failure_record_is_no_game_record (d : dict) :
  is_failure_record d -> ~ is_game_record d.
Proof. unfold is_failure_record, is_game_record. intros Hf [Hg _]. congruence. Qed.

Lemma game_record_is_no_failure_record (d : dict) :
  is_game_record d -> ~ is_failure_record d.
Proof. unfold is_failure_record, is_game_record. intros [Hg _] Hf. congruence. Qed.

Lemma failure_no_hit_record (c : str) (rest : list str) (ecn : str) (fa : bool) :
  is_failure_record (failure_no_hit (c :: rest) ecn fa)
  /\ record_name (failure_no_hit (c :: rest) ecn fa) = Some (PStr c).
Proof.
  unfold is_failure_record, record_name, failure_no_hit. cbn [dict_get].
  eval_keys. now split.
Qed.

Lemma failure_hit_only_record (hit : search_hit) (ecn : str) (fa : bool) :
  is_failure_record (failure_hit_only hit ecn fa)
  /\ record_name (failure_hit_only hit ecn fa) = Some (PStr (hit_name hit)).
Proof.
  unfold is_failure_record, record_name, failure_hit_only. cbn [dict_get].
  eval_keys. now split.
Qed.

Lemma tagged_thing_record_is_game_record (game_id : str) (f : thing_fields)
    (q ecn source : str) (fa : bool) :
  is_game_record (tag_details (thing_record game_id f) q ecn source fa (u "BGG_API")).
Proof.
  unfold is_game_record.
  destruct (tag_details_keeps (thing_record game_id f) q ecn source fa (u "BGG_API"))
    as (-> & -> & _ & ->).
  unfold thing_record. cbn [dict_get]. eval_keys. cbn iota.
  split; [reflexivity |]. split; [eauto | now left].
Qed.

Lemma tagged_page_record_is_game_record (game_url search_name page : str) (d0 : dict)
    (q ecn source : str) (fa : bool) :
  details_of_page game_url search_name page = Some d0 ->
  is_game_record (tag_details d0 q ecn source fa (u "网页抓取")).
Proof.
  intros Hd. apply details_of_page_record in Hd as (_ & Hfailed & Hid).
  unfold is_game_record.
  destruct (tag_details_keeps d0 q ecn source fa (u "网页抓取")) as (-> & -> & _ & ->).
  split; [exact Hfailed |]. split; [exact Hid | now right].
Qed.

(** The records of the resolver, by kind. *)
Lemma resolver_record_kinds (cn : str) (w : W) (d : dict) :
  result_of (resolve_boardgame_by_cn_name cn w) = Return (Some d) ->
  (is_failure_record d
   /\ exists ecn en,
        dict_get d (u "cn_name") = Some (PStr ecn)
        /\ record_name d = Some (PStr en))
  \/ is_game_record d.
Proof.
  unfold resolve_boardgame_by_cn_name, bind, result_of.
  destruct (extract_candidates_run cn w) as [_ Hc].
  destruct (extract_candidates cn w) as [[[[[cands fa] ecn] | e] w1] tr0];
    [| discriminate].
  destruct (Hc cands fa ecn w1 tr0 eq_refl) as [Hne _]. clear Hc.
  destruct (resolve_candidates_run cands fa ecn w1 Hne)
    as (d' & w2 & ta & tm & tt & -> & _ & _ & Hres & _).
  cbn [fst]. intros [= <-].
  inversion Hres; subst.
  - right. apply tagged_thing_record_is_game_record.
  - left. destruct cands as [|c rest]; [congruence |].
    destruct (failure_no_hit_record c rest ecn fa) as [Hf Hn].
    split; [exact Hf |]. exists ecn, c. split; [| exact Hn].
    unfold failure_no_hit. cbn [dict_get]. eval_keys. reflexivity.
  - right.
    match goal with
    | Hd : details_of_outcome _ _ _ = Some d0 |- _ =>
        apply details_of_outcome_page in Hd as (resp & _ & Hd);
        exact (tagged_page_record_is_game_record _ _ _ _ _ _ _ _ Hd)
    end.
  - left. destruct (failure_hit_only_record hit ecn fa) as [Hf Hn].
    split; [exact Hf |]. exists ecn, (hit_name hit). split; [| exact Hn].
    unfold failure_hit_only. cbn [dict_get]. eval_keys. reflexivity.
Qed.

Lemma extraction_call_gives_no_hit (tr : list event) :
  Forall (fun ev => is_extraction_call ev = true) tr ->
  Forall (fun ev => scrape_hit ev = None) tr.
Proof.
  intros Hx. eapply Forall_impl; [exact Hx |].
  intros [| | |url params r]; cbn [is_extraction_call scrape_hit];
    [reflexivity | reflexivity | reflexivity | discriminate].
Qed.

Lemma no_scrape_search_gives_no_hit (ev : event) :
  is_scrape_search ev = false -> scrape_hit ev = None.
Proof.
  destruct ev as [| | |url params r]; cbn [is_scrape_search scrape_hit];
    try reflexivity.
  now intros ->.
Qed.

Lemma api_call_gives_no_hit (tr : list event) :
  Forall (fun ev => is_api_call ev = true) tr ->
  Forall (fun ev => scrape_hit ev = None) tr.
Proof.
  intros Hx. eapply Forall_impl; [exact Hx |].
  intros ev Hapi. apply no_scrape_search_gives_no_hit.
  now apply api_call_is_no_scrape_search.
Qed.

Lemma missed_gives_no_hit (tr : list event) :
  Forall missed tr -> Forall (fun ev => scrape_hit ev = None) tr.
Proof.
  intros Hm. eapply Forall_impl; [exact Hm |]. now intros ev [_ Hnone].
Qed.

(** C6, as the code has it.  Every result the resolver returns is
    exactly one of: [None]; a failure record, which has
    [bgg_failed = True] and is no game record; or a game record, which
    has no [bgg_failed] key.  A failure record returned when no
    scraping search of the run gave a hit carries the first candidate
    as its name, which is not empty.  A failure record returned when a
    scraping search of the run gave a hit, the page of the hit having
    given nothing, carries the name of that hit, as the search derived
    it from the anchor. *)
Theorem resolver_returns_none_failure_or_game_record
    (cn : str) (w : W) (r : option dict) :
  result_of (resolve_boardgame_by_cn_name cn w) = Return r ->
  r = None
  \/ (exists d,
        r = Some d /\ is_failure_record d /\ ~ is_game_record d
        /\ ((forall ev,
               In ev (trace_of (resolve_boardgame_by_cn_name cn w)) ->
               scrape_hit ev = None) ->
            exists c rest fa ecn w1 tr0,
              extract_candidates cn w = (Return (c :: rest, fa, ecn), w1, tr0)
              /\ c <> [] /\ record_name d = Some (PStr c))
        /\ (forall hit ev,
              In ev (trace_of (resolve_boardgame_by_cn_name cn w)) ->
              scrape_hit ev = Some hit ->
              record_name d = Some (PStr (hit_name hit))))
  \/ (exists d, r = Some d /\ is_game_record d /\ ~ is_failure_record d).
Proof.
  unfold resolve_boardgame_by_cn_name, bind, result_of, trace_of.
  destruct (extract_candidates_run cn w) as [Hx Hc].
  destruct (extract_candidates cn w) as [[[[[cands fa] ecn] | e] w1] tr0];
    [| discriminate].
  unfold trace_of in Hx. cbn [snd] in Hx.
  apply extraction_call_gives_no_hit in Hx.
  destruct (Hc cands fa ecn w1 tr0 eq_refl) as [Hne Hnames].
  destruct (resolve_candidates_run cands fa ecn w1 Hne)
    as (d & w2 & ta & tm & tt & -> & Hapi & Hmiss & Hres & _).
  apply api_call_gives_no_hit in Hapi. apply missed_gives_no_hit in Hmiss.
  assert (Forall (fun ev => scrape_hit ev = None) (tr0 ++ ta ++ tm)) as Hhead.
  { apply Forall_app. split; [exact Hx |]. apply Forall_app. now split. }
  cbn [fst snd]. intros [= <-]. right.
  inversion Hres; subst.
  - right. eexists. split; [reflexivity |].
    pose proof (tagged_thing_record_is_game_record game_id f q ecn
                  (source_api fa) fa) as Hg.
    split; [exact Hg | now apply game_record_is_no_failure_record].
  - left. destruct cands as [|c rest]; [congruence |].
    destruct (failure_no_hit_record c rest ecn fa) as [Hf Hn].
    eexists. split; [reflexivity |]. split; [exact Hf |].
    split; [now apply failure_record_is_no_game_record |]. split.
    + intros _. exists c, rest, fa, ecn, w1, tr0. split; [reflexivity |].
      split; [| exact Hn]. now apply Forall_cons in Hnames as [Hcne _].
    + intros hit ev Hin Hhit. exfalso.
      rewrite app_nil_r in Hin. rewrite Forall_forall in Hhead.
      apply list_elem_of_In, Hhead in Hin. congruence.
  - right. eexists. split; [reflexivity |].
    match goal with Hd : details_of_outcome _ _ _ = Some _ |- _ =>
      apply details_of_outcome_page in Hd as (resp & _ & Hd);
      pose proof (tagged_page_record_is_game_record _ _ _ _ q ecn
                    (source_scraped fa) fa Hd) as Hg end.
    split; [exact Hg | now apply game_record_is_no_failure_record].
  - left. destruct (failure_hit_only_record hit ecn fa) as [Hf Hn].
    eexists. split; [reflexivity |]. split; [exact Hf |].
    split; [now apply failure_record_is_no_game_record |].
    match goal with Hfor : scrape_search_for _ (Some hit) ev |- _ =>
      destruct Hfor as (rh & -> & Hhit) end.
    destruct (search_event_is_scrape_search (web_search_params q) rh) as [_ Hsh].
    rewrite Hhit in Hsh.
    destruct (page_request_is_no_search rh hit rd Hhit) as [Hpage _].
    apply no_scrape_search_gives_no_hit in Hpage.
    split.
    + intros Hnone. exfalso.
      assert (scrape_hit (EvGet BGG_SEARCH_URL (web_search_params q) rh) = None) as Hn0.
      { apply Hnone. apply in_or_app. right. apply in_or_app. right.
        apply in_or_app. right. now left. }
      congruence.
    + intros hit' ev' Hin Hhit'.
      rewrite !app_assoc in Hin. apply in_app_or in Hin as [Hin | Hin].
      * exfalso. rewrite <- !app_assoc in Hin. rewrite Forall_forall in Hhead.
        apply list_elem_of_In, Hhead in Hin. congruence.
      * destruct Hin as [<- | [<- | []]]; [| congruence].
        rewrite Hsh in Hhit'. injection Hhit' as <-. exact Hn.
Qed.

End ResolverResults.

Lemma resolver_returns_none_failure_or_game_record_witness :
  Some (failure_hit_only BARE_HIT (u "卡坦岛") true) = None
  \/ (exists d,
        Some (failure_hit_only BARE_HIT (u "卡坦岛") true) = Some d
        /\ is_failure_record d /\ ~ is_game_record d
        /\ ((forall ev,
               In ev (trace_of (resolve_boardgame_by_cn_name (u "卡坦岛")
                                  world_scrape_hit_only)) ->
               scrape_hit ev = None) ->
            exists c rest fa ecn w1 tr0,
              extract_candidates (u "卡坦岛") world_scrape_hit_only
              = (Return (c :: rest, fa, ecn), w1, tr0)
              /\ c <> [] /\ record_name d = Some (PStr c))
        /\ (forall hit ev,
              In ev (trace_of (resolve_boardgame_by_cn_name (u "卡坦岛")
                                 world_scrape_hit_only)) ->
              scrape_hit ev = Some hit ->
              record_name d = Some (PStr (hit_name hit))))
  \/ (exists d,
        Some (failure_hit_only BARE_HIT (u "卡坦岛") true) = Some d
        /\ is_game_record d /\ ~ is_failure_record d).
Proof.
  apply (resolver_returns_none_failure_or_game_record
           (u "卡坦岛") world_scrape_hit_only
           (Some (failure_hit_only BARE_HIT (u "卡坦岛") true))).
  vm_compute. reflexivity.
Defined.

(** C6 as stated fails: the web search page holds one game anchor,
    without text and without a slug after the id; the page of the hit
    is unreachable; the resolver returns a failure record whose name
    is the empty string. *)
Lemma failure_record_of_bare_hit_has_empty_name :
  first_game_anchor (soup_anchors PAGE_HIT_BARE) = Some (u "13", [], u "/boardgame/13")
  /\ result_of (resolve_boardgame_by_cn_name (u "卡坦岛") world_scrape_hit_only)
     = Return (Some (failure_hit_only BARE_HIT (u "卡坦岛") true))
  /\ dict_get (failure_hit_only BARE_HIT (u "卡坦岛") true) (u "bgg_failed")
     = Some (PBool true)
  /\ record_name (failure_hit_only BARE_HIT (u "卡坦岛") true) = Some (PStr []).
Proof. vm_compute. repeat split. Qed.

(** The scenarios of the specification: a name of the dictionary
    resolved by the structured API is a game record tagged with both
    sources; an anchor with a slug gives the hit a name. *)
Example resolution_scenarios :
  result_of (resolve_boardgame_by_cn_name (u "卡坦岛") world_api)
  = Return (Some (tag_details (thing_record (u "13") CATAN_FIELDS) (u "Catan")
                    (u "卡坦岛") (u "词典→BGG_API") true (u "BGG_API")))
  /\ first_game_anchor [(u "/boardgame/13/ticket-to-ride", [])]
     = Some (u "13", u "Ticket To Ride", u "/boardgame/13/ticket-to-ride")
  /\ hit_of_page PAGE_HIT_NAMED
     = Some {| hit_id := u "13"; hit_name := u "Catan";
               hit_url := u "https://boardgamegeek.com/boardgame/13/catan" |}.
Proof. vm_compute. repeat split. Qed.

(** ** C2: extraction failures *)

Section ExtractionFailure.
Context `{Unicode} `{Libs} {W : Type} `{Services W}.

(** C2, as the code has it.  When the alias entry gives no candidate
    and extraction fails (the model call raises or reports failure,
    the answer is blank, or no candidate survives filtering), the error
    raised by the extractor is not caught: the resolver raises it to
    its caller, having called the search and language-model services
    only.  Whenever the resolver returns to its caller, what it
    returns is [None], a failure record or a game record. *)
Theorem extraction_failure_escapes_resolver (cn : str) (w : W)
    (results : list (str * str)) (w1 : W)
    (models : list (str * model_config)) (w2 : W) (cfg : model_config)
    (r : outcome (bool * str)) (w3 : W) :
  alias_candidates (alias_raw cn w) = [] ->
  ddgs_text ((cn ++ u " 桌游") ++ u "的英文名是什么") w = (Return results, w1) ->
  get_available_models w1 = (Return models, w2) ->
  models <> [] ->
  select_model models = Some cfg ->
  generate_with_model (build_prompt results) cfg w2 = (r, w3) ->
  match r with
  | Raised _ => True
  | Return a =>
      a.1 = false \/ strip a.2 = []
      \/ (parse_lines (response_lines a.2) [] []).2 = []
  end ->
  (exists e,
     result_of (fetch_english_candidates_from_ddg (cn ++ u " 桌游") w) = Raised e
     /\ result_of (resolve_boardgame_by_cn_name cn w) = Raised e)
  /\ Forall (fun ev => is_extraction_call ev = true)
            (trace_of (resolve_boardgame_by_cn_name cn w))
  /\ forall cn' w' r',
       result_of (resolve_boardgame_by_cn_name cn' w') = Return r' ->
       r' = None
       \/ (exists d, r' = Some d /\ is_failure_record d)
       \/ (exists d, r' = Some d /\ is_game_record d).
Proof.
  intros Halias Hddg Hmodels Hne Hsel Hgen Hfail.
  assert (exists e tr,
            fetch_english_candidates_from_ddg (cn ++ u " 桌游") w = (Raised e, w3, tr)
            /\ Forall (fun ev => is_extraction_call ev = true) tr) as (e & tr & Hfetch & Htr).
  { rewrite fetch_run. cbn zeta. rewrite Hddg, Hmodels.
    destruct models as [|m ms]; [congruence |]. rewrite Hsel, Hgen.
    destruct r as [a | e].
    - destruct (extract_from_response_raises a.1 a.2 Hfail) as [msg ->].
      eexists _, _. split; [reflexivity | repeat constructor].
    - eexists _, _. split; [reflexivity | repeat constructor]. }
  split; [| split].
  - exists e. split; [now rewrite Hfetch |].
    unfold resolve_boardgame_by_cn_name, bind.
    now rewrite (extract_candidates_ddg cn w Halias), Hfetch.
  - unfold resolve_boardgame_by_cn_name, bind.
    rewrite (extract_candidates_ddg cn w Halias), Hfetch. exact Htr.
  - intros cn' w' [d |] Hret; [right | now left].
    destruct (resolver_record_kinds cn' w' d Hret) as [(Hf & _) | Hg].
    + left. now exists d.
    + right. now exists d.
Qed.

End ExtractionFailure.

Lemma extraction_failure_escapes_resolver_witness :
  (exists e,
     result_of (fetch_english_candidates_from_ddg
                  (u "璀璨宝石" ++ u " 桌游")
                  (world_llm [(u "utils", 1)] (true, u "英文名：board game")))
     = Raised e
     /\ result_of (resolve_boardgame_by_cn_name
                     (u "璀璨宝石")
                     (world_llm [(u "utils", 1)] (true, u "英文名：board game")))
        = Raised e)
  /\ Forall (fun ev => is_extraction_call ev = true)
       (trace_of (resolve_boardgame_by_cn_name
                    (u "璀璨宝石")
                    (world_llm [(u "utils", 1)] (true, u "英文名：board game"))))
  /\ forall cn' (w' : scenario) r',
       result_of (resolve_boardgame_by_cn_name cn' w') = Return r' ->
       r' = None
       \/ (exists d, r' = Some d /\ is_failure_record d)
       \/ (exists d, r' = Some d /\ is_game_record d).
Proof.
  apply (extraction_failure_escapes_resolver
           (u "璀璨宝石")
           (world_llm [(u "utils", 1)] (true, u "英文名：board game"))
           [(u "卡坦岛 - 桌游", u "Catan (The Settlers of Catan)")]
           (world_llm [(u "utils", 1)] (true, u "英文名：board game"))
           [(u "utils", 1)]
           (world_llm [(u "utils", 1)] (true, u "英文名：board game"))
           1
           (Return (true, u "英文名：board game"))
           (world_llm [(u "utils", 1)] (true, u "英文名：board game"))).
  - vm_compute. reflexivity.
  - reflexivity.
  - reflexivity.
  - discriminate.
  - vm_compute. reflexivity.
  - reflexivity.
  - right. right. vm_compute. reflexivity.
Defined.

(** * Further properties *)

(** ** The score: bounds, and names without an edition suffix *)

(** Replacing a string that does not occur changes nothing. *)
Lemma replace_without_occurrence (s old new : str) :
  old <> [] -> contains s old = false -> replace s old new = s.
Proof.
  intros Hold. unfold replace. destruct old as [|o old']; [congruence |].
  induction s as [|c s IH]; intros Hc; [reflexivity |].
  change (contains (c :: s) (o :: old'))
    with (startswith (c :: s) (o :: old') || contains s (o :: old')) in Hc.
  apply orb_false_iff in Hc as [Hs Hc].
  cbn [replace_go]. rewrite Hs. f_equal. now apply IH.
Qed.

Lemma fold_replace_without_occurrence (sufs : list str) (n : str) :
  Forall (fun suf => suf <> [] /\ contains n suf = false) sufs ->
  fold_left (fun acc suf => replace acc suf []) sufs n = n.
Proof.
  induction 1 as [|suf sufs [Hne Hc] _ IH]; [reflexivity |].
  cbn [fold_left]. now rewrite replace_without_occurrence.
Qed.

Lemma edition_suffixes_nonempty : Forall (fun suf : str => suf <> []) EDITION_SUFFIXES.
Proof. repeat constructor; vm_compute; discriminate. Qed.

Section ScoreFurther.
Context `{Unicode}.

Lemma strip_editions_without_suffix (n : str) :
  (forall suf, In suf EDITION_SUFFIXES -> ~ occurs_in suf n) ->
  strip_editions n = n.
Proof.
  intros Hno. unfold strip_editions. apply fold_replace_without_occurrence.
  pose proof edition_suffixes_nonempty as Hne.
  rewrite Forall_forall in Hne |- *. intros suf Hin. split; [now apply Hne |].
  destruct (contains n suf) eqn:E; [| reflexivity].
  exfalso. apply (Hno suf); [now apply list_elem_of_In | now apply contains_spec].
Qed.

(** The score lies between -50 and 170. *)
Theorem score_bounds (name query : str) :
  (-50 <= is_likely_primary name query <= 170)%Z.
Proof.
  unfold is_likely_primary.
  destruct (Py.eqb (lower name) (lower query));
    [| destruct (startswith (lower name) (lower query))];
    destruct (existsb _ NON_PRIMARY_MARKERS);
    destruct (Py.eqb (strip_editions (lower name)) (lower query)
              || startswith (strip_editions (lower name)) (lower query));
    lia.
Qed.

(** For a name in which no edition suffix occurs, the edition bonus
    fires exactly when the match bonus does: an exact match scores 170,
    a proper prefix match 150, anything else 0, each less 50 when a
    marker occurs. *)
Theorem score_without_edition_suffix (name query : str) :
  (forall suf, In suf EDITION_SUFFIXES -> ~ occurs_in suf (lower name)) ->
  exists p : Z,
    marker_penalty (lower name) p
    /\ ((lower name = lower query /\ is_likely_primary name query = (170 + p)%Z)
        \/ (lower name <> lower query /\ is_prefix (lower query) (lower name)
            /\ is_likely_primary name query = (150 + p)%Z)
        \/ (~ is_prefix (lower query) (lower name)
            /\ is_likely_primary name query = p)).
Proof.
  intros Hno.
  exists (if existsb (fun x => contains (lower name) x) NON_PRIMARY_MARKERS
          then -50 else 0)%Z.
  split; [apply marker_penalty_of |].
  unfold is_likely_primary. rewrite (strip_editions_without_suffix _ Hno).
  destruct (Py.eqb (lower name) (lower query)) eqn:E.
  - left. apply eqb_true in E. split; [exact E |].
    cbn [orb]. destruct (existsb _ NON_PRIMARY_MARKERS); reflexivity.
  - apply eqb_false in E. destruct (startswith (lower name) (lower query)) eqn:P.
    + right. left. split; [exact E |]. split; [now apply startswith_spec |].
      cbn [orb]. destruct (existsb _ NON_PRIMARY_MARKERS); reflexivity.
    + right. right. split.
      * intros Hp. apply startswith_spec in Hp. congruence.
      * cbn [orb]. destruct (existsb _ NON_PRIMARY_MARKERS); reflexivity.
Qed.

End ScoreFurther.

Lemma score_without_edition_suffix_witness :
  exists p : Z,
    marker_penalty (lower (u "Catan: Seafarers")) p
    /\ ((lower (u "Catan: Seafarers") = lower (u "catan")
         /\ is_likely_primary (u "Catan: Seafarers") (u "catan") = (170 + p)%Z)
        \/ (lower (u "Catan: Seafarers") <> lower (u "catan")
            /\ is_prefix (lower (u "catan")) (lower (u "Catan: Seafarers"))
            /\ is_likely_primary (u "Catan: Seafarers") (u "catan") = (150 + p)%Z)
        \/ (~ is_prefix (lower (u "catan")) (lower (u "Catan: Seafarers"))
            /\ is_likely_primary (u "Catan: Seafarers") (u "catan") = p)).
Proof.
  apply (score_without_edition_suffix (u "Catan: Seafarers") (u "catan")).
  intros suf Hin Hocc. apply contains_spec in Hocc.
  vm_compute in Hin.
  repeat (destruct Hin as [<- | Hin]; [vm_compute in Hocc; discriminate |]).
  exact Hin.
Defined.

(** ** Collected search results *)

Section CollectFurther.
Context `{Unicode} `{Libs}.

(** The loop over the parsed items keeps the items with a non-empty id
    and a non-empty name, in their order. *)
Lemma collect_items_named (source query : str) (items : list (str * str)) :
  collect_items source query items
  = map (fun it => {| sc_id := it.1; sc_name := it.2;
                      sc_score := is_likely_primary it.2 query;
                      sc_source := source |})
        (filter (fun it => it.1 <> [] /\ it.2 <> []) items).
Proof.
  unfold collect_items. induction items as [|[it_id name] items IH];
    [reflexivity |].
  cbn [flat_map]. rewrite filter_cons, IH. cbn [fst snd].
  destruct it_id as [|a it_id], name as [|b name]; cbn [Py.truthy Py.is_empty negb andb];
    destruct (decide _) as [[Hid Hname] | Hno]; try congruence; try reflexivity.
  exfalso. apply Hno. split; discriminate.
Qed.

(** The candidates [collect_from_api2] and [collect_from_api1] give for
    the body of a search response are the boardgame items of the body
    that have a non-empty id and a non-empty primary name, in document
    order, each scored against the query and tagged with its tier,
    [V2] or [V1]; a body that does not parse gives none. *)
Theorem collected_candidates_are_the_named_items (body query : str) :
  collect_from_api2 body query
  = map (fun it => {| sc_id := it.1; sc_name := it.2;
                      sc_score := is_likely_primary it.2 query;
                      sc_source := u "V2" |})
        (filter (fun it => it.1 <> [] /\ it.2 <> []) (default [] (et_items_v2 body)))
  /\ collect_from_api1 body query
     = map (fun it => {| sc_id := it.1; sc_name := it.2;
                         sc_score := is_likely_primary it.2 query;
                         sc_source := u "V1" |})
           (filter (fun it => it.1 <> [] /\ it.2 <> []) (default [] (et_items_v1 body))).
Proof.
  unfold collect_from_api2, collect_from_api1. split.
  - destruct (et_items_v2 body) as [items |]; [| reflexivity].
    apply collect_items_named.
  - destruct (et_items_v1 body) as [items |]; [| reflexivity].
    apply collect_items_named.
Qed.

End CollectFurther.

(** ** The structured search *)

Section SearchFurther.
Context `{Unicode} `{Libs} {W : Type} `{Services W}.

Lemma collect_items_ids (source query : str) (items : list (str * str)) :
  Forall (fun c => sc_id c <> []) (collect_items source query items).
Proof.
  unfold collect_items. induction items as [|[it_id name] items IH];
    [constructor |].
  cbn [flat_map fst snd]. destruct it_id as [|a it_id]; [exact IH |].
  destruct name as [|b name]; [exact IH |].
  cbn [Py.truthy Py.is_empty negb andb app]. constructor; [discriminate | exact IH].
Qed.

(** An id the probing loop returns is the id of one of its candidates,
    whose detail request, recorded in the trace, gave a usable record. *)
Lemma probe_some (cands : list scored) (w : W) (game_id : str) w' tr :
  probe cands w = (Return (Some game_id), w', tr) ->
  exists cand r,
    In cand cands /\ game_id = sc_id cand
    /\ In (EvGet BGG_API_THING (thing_params game_id) r) tr
    /\ opt_dict_true (thing_of_outcome game_id r) = true.
Proof.
  intros Hrun. pose proof (probe_in_order cands w) as Hx.
  rewrite Hrun in Hx. unfold result_of, trace_of in Hx. cbn [fst snd] in Hx.
  destruct Hx as (failed & trf & _ & [(Hr & _) | (cand & rest & ev & -> & Hev & -> & Hr)]);
    [discriminate |].
  injection Hr as ->. destruct Hev as (r & -> & Hok).
  exists cand, r. split; [apply in_or_app; right; now left |].
  split; [reflexivity |]. split; [| exact Hok].
  apply in_or_app. right. now left.
Qed.

Lemma search_tier_some (url : str) (params : list (str * str))
    (collect : str -> list scored) (w : W) (game_id : str) w' tr :
  search_tier url params collect w = (Return (Some game_id), w', tr) ->
  exists resp cand r,
    (client_get url params w).1 = Return resp
    /\ status_code resp = 200%Z
    /\ In cand (collect (text resp)) /\ game_id = sc_id cand
    /\ In (EvGet BGG_API_THING (thing_params game_id) r) tr
    /\ opt_dict_true (thing_of_outcome game_id r) = true.
Proof.
  unfold search_tier, try_except, bind, get, call.
  destruct (client_get url params w) as [[resp | e] w1]; [| discriminate].
  cbn [fst]. destruct (status_code resp =? 200)%Z eqn:Est; [| discriminate].
  apply Z.eqb_eq in Est.
  destruct (collect (text resp)) as [|c cs] eqn:Ecol; [discriminate |].
  destruct (probe (sorted_by_score_desc (c :: cs)) w1) as [[pr w2] t2] eqn:Ep.
  destruct pr as [[gid |] | e]; try discriminate.
  intros [= -> <- <-].
  apply probe_some in Ep as (cand & r & Hin & -> & Hev & Hok).
  exists resp, cand, r. split; [reflexivity |]. split; [exact Est |].
  split.
  { rewrite Ecol. apply list_elem_of_In.
    rewrite (sorted_by_score_desc_perm (c :: cs)). now apply list_elem_of_In. }
  split; [reflexivity |]. split; [now right | exact Hok].
Qed.

(** An id the structured search returns is never empty, and a detail
    request for it that gave a usable record is in the trace of the
    search. *)
Theorem structured_search_returns_a_verified_id (q : str) (w : W) (game_id : str) :
  result_of (bgg_search_api_by_name q w) = Return (Some game_id) ->
  game_id <> []
  /\ exists r,
       In (EvGet BGG_API_THING (thing_params game_id) r)
          (trace_of (bgg_search_api_by_name q w))
       /\ opt_dict_true (thing_of_outcome game_id r) = true.
Proof.
  unfold bgg_search_api_by_name, bind, result_of, trace_of.
  destruct (search_tier BGG_API_SEARCH_V2 [(u "query", q); (u "type", u "boardgame")]
              (fun body => collect_from_api2 body q) w) as [[r2 w2] t2] eqn:E2.
  destruct r2 as [[gid |] | e].
  - unfold ret. cbn [fst snd]. intros [= ->].
    apply search_tier_some in E2 as (resp & cand & r & _ & _ & Hin & -> & Hev & Hok).
    split.
    + unfold collect_from_api2 in Hin.
      destruct (et_items_v2 (text resp)) as [items |]; [| destruct Hin].
      pose proof (collect_items_ids (u "V2") q items) as Hids.
      rewrite Forall_forall in Hids. now apply Hids, list_elem_of_In.
    + exists r. split; [| exact Hok]. apply in_or_app. now left.
  - destruct (search_tier BGG_API_SEARCH_V1 [(u "search", q)]
                (fun body => collect_from_api1 body q) w2) as [[r1 w1] t1] eqn:E1.
    destruct r1 as [[gid |] | e]; unfold ret; cbn [fst snd]; try discriminate.
    intros [= ->].
    apply search_tier_some in E1 as (resp & cand & r & _ & _ & Hin & -> & Hev & Hok).
    split.
    + unfold collect_from_api1 in Hin.
      destruct (et_items_v1 (text resp)) as [items |]; [| destruct Hin].
      pose proof (collect_items_ids (u "V1") q items) as Hids.
      rewrite Forall_forall in Hids. now apply Hids, list_elem_of_In.
    + exists r. split; [| exact Hok].
      apply in_or_app. right. apply in_or_app. now left.
  - cbn [fst]. discriminate.
Qed.

(** When the primary search fails in transport, answers with a status
    other than 200, or holds no item with an id and a name, the next
    request is the legacy search for the same query. *)
Theorem failed_primary_search_falls_back_to_legacy (q : str) (w : W) :
  match (client_get BGG_API_SEARCH_V2
           [(u "query", q); (u "type", u "boardgame")] w).1 with
  | Raised _ => True
  | Return resp =>
      status_code resp <> 200%Z \/ collect_from_api2 (text resp) q = []
  end ->
  exists r1 rest,
    trace_of (bgg_search_api_by_name q w)
    = EvGet BGG_API_SEARCH_V2 [(u "query", q); (u "type", u "boardgame")]
        (client_get BGG_API_SEARCH_V2
           [(u "query", q); (u "type", u "boardgame")] w).1
      :: EvGet BGG_API_SEARCH_V1 [(u "search", q)] r1 :: rest.
Proof.
  intros Hfail.
  assert (exists w2,
            search_tier BGG_API_SEARCH_V2 [(u "query", q); (u "type", u "boardgame")]
              (fun body => collect_from_api2 body q) w
            = (Return None, w2,
               [EvGet BGG_API_SEARCH_V2 [(u "query", q); (u "type", u "boardgame")]
                  (client_get BGG_API_SEARCH_V2
                     [(u "query", q); (u "type", u "boardgame")] w).1])) as [w2 E2].
  { unfold search_tier, try_except, bind, get, call.
    destruct (client_get BGG_API_SEARCH_V2 _ w) as [[resp | e] w1]; cbn [fst] in *.
    - destruct (status_code resp =? 200)%Z eqn:Est.
      + apply Z.eqb_eq in Est. destruct Hfail as [Hst | Hcol]; [congruence |].
        rewrite Hcol. now exists w1.
      + now exists w1.
    - now exists w1. }
  unfold bgg_search_api_by_name, bind, trace_of. rewrite E2.
  pose proof (search_tier_run BGG_API_SEARCH_V1 [(u "search", q)]
                (fun body => collect_from_api1 body q) w2) as Hx.
  destruct Hx as (res1 & w1 & r1 & rest1 & -> & _).
  exists r1, rest1. destruct res1; unfold ret; cbn [snd app];
    now rewrite app_nil_r.
Qed.

End SearchFurther.

Lemma structured_search_returns_a_verified_id_witness :
  u "13" <> []
  /\ exists r,
       In (EvGet BGG_API_THING (thing_params (u "13")) r)
          (trace_of (bgg_search_api_by_name (u "Catan") world_api))
       /\ opt_dict_true (thing_of_outcome (u "13") r) = true.
Proof.
  apply (structured_search_returns_a_verified_id (u "Catan") world_api (u "13")).
  vm_compute. reflexivity.
Defined.

Lemma failed_primary_search_falls_back_to_legacy_witness :
  exists r1 rest,
    trace_of (bgg_search_api_by_name (u "Catan") world_primary_500)
    = EvGet BGG_API_SEARCH_V2 [(u "query", u "Catan"); (u "type", u "boardgame")]
        (client_get BGG_API_SEARCH_V2
           [(u "query", u "Catan"); (u "type", u "boardgame")] world_primary_500).1
      :: EvGet BGG_API_SEARCH_V1 [(u "search", u "Catan")] r1 :: rest.
Proof.
  apply (failed_primary_search_falls_back_to_legacy (u "Catan") world_primary_500).
  vm_compute. left. discriminate.
Defined.

(** ** The scraping client *)

Section ScrapingFurther.
Context `{Unicode} `{Libs} {W : Type} `{Services W}.

Lemma first_game_anchor_some (anchors : list (str * str)) bgg_id game_name href :
  first_game_anchor anchors = Some (bgg_id, game_name, href) ->
  exists a_text,
    In (href, a_text) anchors
    /\ contains href (u "/boardgame/") = true
    /\ contains href (u "/boardgamegame") = false
    /\ contains href (u "/boardgameexpansion") = false
    /\ nth_error (split href (u "/")) 2 = Some bgg_id
    /\ isdigit bgg_id = true
    /\ (strip a_text <> [] -> game_name = strip a_text).
Proof.
  induction anchors as [|[href0 text0] rest IH]; [discriminate |].
  cbn [first_game_anchor].
  assert (first_game_anchor rest = Some (bgg_id, game_name, href) ->
          exists a_text,
            In (href, a_text) ((href0, text0) :: rest)
            /\ contains href (u "/boardgame/") = true
            /\ contains href (u "/boardgamegame") = false
            /\ contains href (u "/boardgameexpansion") = false
            /\ nth_error (split href (u "/")) 2 = Some bgg_id
            /\ isdigit bgg_id = true
            /\ (strip a_text <> [] -> game_name = strip a_text)) as Hrest.
  { intros Hr. destruct (IH Hr) as (a_text & Hin & Hrest).
    exists a_text. split; [now right | exact Hrest]. }
  destruct (contains href0 (u "/boardgame/")
            && negb (contains href0 (u "/boardgamegame"))
            && negb (contains href0 (u "/boardgameexpansion"))) eqn:E;
    [| exact Hrest].
  destruct (3 <=? Z.of_nat (length (split href0 (u "/"))))%Z; [| exact Hrest].
  unfold Py.index.
  destruct (nth_error (split href0 (u "/")) 2) as [pid |] eqn:Epid; [| exact Hrest].
  destruct (isdigit pid) eqn:Edig; [| exact Hrest].
  intros [= <- <- <-]. exists text0.
  apply andb_true_iff in E as [E E3]. apply andb_true_iff in E as [E1 E2].
  apply negb_true_iff in E2, E3.
  split; [now left |]. repeat split; try assumption.
  intros Hne. destruct (strip text0); [congruence | reflexivity].
Qed.

(** A hit of the scraping search comes from an anchor of the page
    whose href holds the game path and neither excluded path; its id
    is the third part of the href and is made of digits; its URL is
    the href, completed with the base URL when the href starts with a
    slash; and its name is the trimmed text of the anchor whenever
    that is not empty. *)
Theorem scraping_hit_is_a_numbered_game_anchor (page : str) (hit : search_hit) :
  hit_of_page page = Some hit ->
  exists href a_text,
    In (href, a_text) (soup_anchors page)
    /\ occurs_in (u "/boardgame/") href
    /\ ~ occurs_in (u "/boardgamegame") href
    /\ ~ occurs_in (u "/boardgameexpansion") href
    /\ nth_error (split href (u "/")) 2 = Some (hit_id hit)
    /\ isdigit (hit_id hit) = true
    /\ hit_url hit = (if startswith href (u "/") then BGG_BASE_URL ++ href else href)
    /\ (strip a_text <> [] -> hit_name hit = strip a_text).
Proof.
  unfold hit_of_page.
  destruct (first_game_anchor (soup_anchors page)) as [[[bgg_id game_name] href] |] eqn:E;
    [| discriminate].
  intros [= <-]. cbn [hit_id hit_name hit_url].
  apply first_game_anchor_some in E
    as (a_text & Hin & Hc1 & Hc2 & Hc3 & Hid & Hdig & Hname).
  exists href, a_text. split; [exact Hin |].
  split; [now apply contains_spec |].
  split; [intros Ho; apply contains_spec in Ho; congruence |].
  split; [intros Ho; apply contains_spec in Ho; congruence |].
  repeat split; assumption.
Qed.

(** The script data of a page is what [json.loads] makes of the text
    between the two markers of one of its scripts, a script that holds
    both marker names. *)
Theorem script_data_is_the_json_between_the_markers (scripts : list str) (v : pyval) :
  find_script_data scripts = Some v ->
  exists script_text,
    In script_text scripts
    /\ occurs_in (u "GEEK.geekitemPreload") script_text
    /\ occurs_in (u "GEEK.geekitemSettings") script_text
    /\ (let start := (find script_text (u "GEEK.geekitemPreload = ") + 23)%Z in
        let end_ := (find script_text (u "GEEK.geekitemSettings = ") - 3)%Z in
        (0 < start < end_)%Z
        /\ json_loads (slice script_text start end_) = Some v).
Proof.
  induction scripts as [|script_text rest IH]; [discriminate |].
  cbn [find_script_data].
  assert (find_script_data rest = Some v ->
          exists s,
            In s (script_text :: rest)
            /\ occurs_in (u "GEEK.geekitemPreload") s
            /\ occurs_in (u "GEEK.geekitemSettings") s
            /\ (let start := (find s (u "GEEK.geekitemPreload = ") + 23)%Z in
                let end_ := (find s (u "GEEK.geekitemSettings = ") - 3)%Z in
                (0 < start < end_)%Z
                /\ json_loads (slice s start end_) = Some v)) as Hrest.
  { intros Hr. destruct (IH Hr) as (s & Hin & Hs). exists s.
    split; [now right | exact Hs]. }
  destruct (contains script_text (u "GEEK.geekitemPreload")
            && contains script_text (u "GEEK.geekitemSettings")) eqn:E;
    [| exact Hrest].
  replace (len (u "GEEK.geekitemPreload = ")) with 23%Z by (vm_compute; reflexivity).
  destruct ((0 <? find script_text (u "GEEK.geekitemPreload = ") + 23)%Z
            && (find script_text (u "GEEK.geekitemPreload = ") + 23
                <? find script_text (u "GEEK.geekitemSettings = ") - 3)%Z) eqn:Eb;
    [| exact Hrest].
  destruct (json_loads _) as [v0 |] eqn:Ej; [| exact Hrest].
  intros [= <-]. exists script_text.
  apply andb_true_iff in E as [E1 E2]. apply andb_true_iff in Eb as [B1 B2].
  apply Z.ltb_lt in B1, B2.
  split; [now left |]. split; [now apply contains_spec |].
  split; [now apply contains_spec |]. cbn zeta. split; [lia | exact Ej].
Qed.

End ScrapingFurther.

Lemma scraping_hit_is_a_numbered_game_anchor_witness :
  exists href a_text,
    In (href, a_text) (soup_anchors PAGE_HIT_NAMED)
    /\ occurs_in (u "/boardgame/") href
    /\ ~ occurs_in (u "/boardgamegame") href
    /\ ~ occurs_in (u "/boardgameexpansion") href
    /\ nth_error (split href (u "/")) 2 = Some (u "13")
    /\ isdigit (u "13") = true
    /\ u "https://boardgamegeek.com/boardgame/13/catan"
       = (if startswith href (u "/") then BGG_BASE_URL ++ href else href)
    /\ (strip a_text <> [] -> u "Catan" = strip a_text).
Proof.
  apply (scraping_hit_is_a_numbered_game_anchor PAGE_HIT_NAMED
           {| hit_id := u "13"; hit_name := u "Catan";
              hit_url := u "https://boardgamegeek.com/boardgame/13/catan" |}).
  vm_compute. reflexivity.
Defined.

Lemma script_data_is_the_json_between_the_markers_witness :
  exists script_text,
    In script_text [u "var x = 1;"; script_of JSON_WEIGHT_STRING]
    /\ occurs_in (u "GEEK.geekitemPreload") script_text
    /\ occurs_in (u "GEEK.geekitemSettings") script_text
    /\ (let start := (find script_text (u "GEEK.geekitemPreload = ") + 23)%Z in
        let end_ := (find script_text (u "GEEK.geekitemSettings = ") - 3)%Z in
        (0 < start < end_)%Z
        /\ json_loads (slice script_text start end_)
           = Some (weight_json (PStr (u "2.5000")))).
Proof.
  apply (script_data_is_the_json_between_the_markers
           [u "var x = 1;"; script_of JSON_WEIGHT_STRING]
           (weight_json (PStr (u "2.5000")))).
  vm_compute. reflexivity.
Defined.

Section ScrapedRecord.
Context `{Unicode} `{Libs} {W : Type} `{Services W}.

(** A record of the scraping detail never carries ratings or poll
    results: the rating count and the average are ["0"], the best
    player count and the language dependence are empty, and its URL is
    the URL that was requested.  When the search gave the hit a name,
    the record has a name that is not empty. *)
Theorem scraped_record_has_sentinels_and_a_name
    (game_url search_name page : str) (d : dict) :
  details_of_page game_url search_name page = Some d ->
  dict_get d (u "users_rated") = Some (PStr (u "0"))
  /\ dict_get d (u "average") = Some (PStr (u "0"))
  /\ dict_get d (u "best_numplayers") = Some (PStr [])
  /\ dict_get d (u "language_dependence") = Some (PStr [])
  /\ dict_get d (u "bgg_url") = Some (PStr game_url)
  /\ (search_name <> [] ->
      exists v, dict_get d (u "name") = Some v /\ is_true v = true).
Proof.
  unfold details_of_page. intros Hd.
  repeat (match type of Hd with
          | (match ?x with _ => _ end) = Some _ =>
              destruct x eqn:?; try discriminate
          | (?m ≫= _) = Some _ =>
              destruct m eqn:?; [| discriminate]; cbn [mbind option_bind] in Hd
          | (let '(_, _) := ?x in _) = Some _ => destruct x eqn:?
          end).
  injection Hd as <-. cbn [dict_get]. eval_keys. cbn iota.
  repeat split.
  intros Hname. eexists. split; [reflexivity |].
  destruct search_name as [|c s]; [congruence |].
  match goal with |- is_true (if negb (is_true ?n) && _ then _ else _) = true =>
    destruct (is_true n) eqn:En; cbn [negb andb Py.truthy Py.is_empty is_true];
      [exact En | reflexivity] end.
Qed.

(** The three functions that make one request each never raise: they
    return, their trace is that one request, and a request that fails
    in transport gives [None]. *)
Theorem single_request_functions_absorb_failures
    (game_id q game_url search_name : str) (w : W) :
  (exists res r,
     result_of (bgg_thing_details_api game_id w) = Return res
     /\ trace_of (bgg_thing_details_api game_id w)
        = [EvGet BGG_API_THING [(u "id", game_id); (u "stats", u "1")] r]
     /\ (forall e, r = Raised e -> res = None)
     /\ (forall resp, r = Return resp -> status_code resp <> 200%Z -> res = None))
  /\ (exists res r,
        result_of (bgg_search_by_name q w) = Return res
        /\ trace_of (bgg_search_by_name q w)
           = [EvGet BGG_SEARCH_URL
                [(u "action", u "search"); (u "q", q); (u "objecttype", u "boardgame")] r]
        /\ (forall e, r = Raised e -> res = None)
        /\ (forall resp, r = Return resp ->
            status_raises (status_code resp) = true -> res = None))
  /\ (exists res r,
        result_of (bgg_thing_details game_url search_name w) = Return res
        /\ trace_of (bgg_thing_details game_url search_name w) = [EvGet game_url [] r]
        /\ (forall e, r = Raised e -> res = None)
        /\ (forall resp, r = Return resp ->
            status_raises (status_code resp) = true -> res = None)).
Proof.
  split; [| split].
  - rewrite bgg_thing_details_api_run. eexists _, _.
    split; [reflexivity |]. split; [reflexivity |]. split.
    + intros e ->. reflexivity.
    + intros resp -> Hst. unfold thing_of_outcome, thing_of_response.
      apply Z.eqb_neq in Hst. now rewrite Hst.
  - rewrite bgg_search_by_name_run. eexists _, _.
    split; [reflexivity |]. split; [reflexivity |]. split.
    + intros e ->. reflexivity.
    + intros resp -> Hst. unfold hit_of_outcome. now rewrite Hst.
  - rewrite bgg_thing_details_run. eexists _, _.
    split; [reflexivity |]. split; [reflexivity |]. split.
    + intros e ->. reflexivity.
    + intros resp -> Hst. unfold details_of_outcome. now rewrite Hst.
Qed.

End ScrapedRecord.

Lemma scraped_record_has_sentinels_and_a_name_witness :
  dict_get (default [] (details_of_page GAME_URL (u "Catan") (page_of JSON_WEIGHT_STRING)))
    (u "users_rated") = Some (PStr (u "0"))
  /\ dict_get (default [] (details_of_page GAME_URL (u "Catan") (page_of JSON_WEIGHT_STRING)))
       (u "average") = Some (PStr (u "0"))
  /\ dict_get (default [] (details_of_page GAME_URL (u "Catan") (page_of JSON_WEIGHT_STRING)))
       (u "best_numplayers") = Some (PStr [])
  /\ dict_get (default [] (details_of_page GAME_URL (u "Catan") (page_of JSON_WEIGHT_STRING)))
       (u "language_dependence") = Some (PStr [])
  /\ dict_get (default [] (details_of_page GAME_URL (u "Catan") (page_of JSON_WEIGHT_STRING)))
       (u "bgg_url") = Some (PStr GAME_URL)
  /\ (u "Catan" <> [] ->
      exists v,
        dict_get (default [] (details_of_page GAME_URL (u "Catan")
                                (page_of JSON_WEIGHT_STRING)))
          (u "name") = Some v
        /\ is_true v = true).
Proof.
  apply (scraped_record_has_sentinels_and_a_name GAME_URL (u "Catan")
           (page_of JSON_WEIGHT_STRING)).
  vm_compute. reflexivity.
Defined.

(** ** The extractor *)

Lemma existsb_eqb_In (name : str) (seen : list str) :
  existsb (Py.eqb name) seen = true <-> In name seen.
Proof.
  rewrite existsb_exists. split.
  - intros (x & Hin & Hx). apply eqb_true in Hx. now subst.
  - intros Hin. exists name. split; [exact Hin | apply eqb_refl].
Qed.

Lemma unique_go_spec (seen names : list str) :
  NoDup (unique_go seen names)
  /\ (forall x, In x (unique_go seen names) <-> In x names /\ ~ In x seen)
  /\ sublist (unique_go seen names) names.
Proof.
  revert seen. induction names as [|name rest IH]; intros seen.
  - split; [constructor |]. split; [| constructor].
    intros x. split; [intros [] | intros [[] _]].
  - cbn [unique_go]. destruct (existsb (Py.eqb name) seen) eqn:E.
    + apply existsb_eqb_In in E. destruct (IH seen) as (Hnd & Hmem & Hsub).
      split; [exact Hnd |]. split; [| now apply sublist_cons].
      intros x. rewrite Hmem. split.
      * intros [Hin Hns]. split; [now right | exact Hns].
      * intros [[<- | Hin] Hns]; [contradiction | now split].
    + assert (~ In name seen) as Hns.
      { intros Hin. apply existsb_eqb_In in Hin. congruence. }
      destruct (IH (name :: seen)) as (Hnd & Hmem & Hsub).
      split; [| split; [| now apply sublist_skip]].
      * apply NoDup_cons. split; [| exact Hnd].
        intros Hin. apply list_elem_of_In, Hmem in Hin as [_ Hn]. apply Hn. now left.
      * intros x. split.
        -- intros [<- | Hin]; [split; [now left | exact Hns] |].
           apply Hmem in Hin as [Hin Hn]. split; [now right |].
           intros Hs. apply Hn. now right.
        -- intros [[<- | Hin] Hs]; [now left |].
           destruct (decide (name = x)) as [-> | Hne]; [now left |].
           right. apply Hmem. split; [exact Hin |].
           intros [Heq | Hs']; [congruence | contradiction].
Qed.

(** Where two names stand in the output of the loop: one before the
    other exactly when neither was seen and the first occurrence of
    the one precedes the first occurrence of the other. *)
Lemma unique_go_order (seen names : list str) (x y : str) :
  (exists l1 l2 l3, unique_go seen names = l1 ++ x :: l2 ++ y :: l3)
  <-> (exists n1 n2 n3,
         names = n1 ++ x :: n2 ++ y :: n3
         /\ ~ In x n1 /\ ~ In x seen
         /\ ~ In y (n1 ++ x :: n2) /\ ~ In y seen).
Proof.
  revert seen. induction names as [|a rest IH]; intros seen.
  - split.
    + intros (l1 & l2 & l3 & Hout). now destruct l1.
    + intros (n1 & n2 & n3 & Hn & _). now destruct n1.
  - cbn [unique_go]. destruct (existsb (Py.eqb a) seen) eqn:Eseen.
    + apply existsb_eqb_In in Eseen. rewrite IH. split.
      * intros (n1 & n2 & n3 & -> & Hx1 & Hxs & Hy1 & Hys).
        exists (a :: n1), n2, n3. split; [reflexivity |].
        split; [intros [-> | Hin]; contradiction |]. split; [exact Hxs |].
        split; [| exact Hys].
        cbn [app]. intros [-> | Hin]; contradiction.
      * intros (n1 & n2 & n3 & Hn & Hx1 & Hxs & Hy1 & Hys).
        destruct n1 as [|b n1]; cbn [app] in Hn; injection Hn as <- ->;
          [contradiction |].
        exists n1, n2, n3. split; [reflexivity |].
        split; [intros Hin; apply Hx1; now right |]. split; [exact Hxs |].
        split; [| exact Hys]. intros Hin. apply Hy1. now right.
    + assert (~ In a seen) as Hns.
      { intros Hin. apply existsb_eqb_In in Hin. congruence. }
      destruct (unique_go_spec (a :: seen) rest) as (_ & Hmem & _).
      split.
      * intros (l1 & l2 & l3 & Hout). destruct l1 as [|b l1]; cbn [app] in Hout.
        -- injection Hout as <- Hout.
           assert (In y (unique_go (a :: seen) rest)) as Hy.
           { rewrite Hout. apply in_or_app. right. now left. }
           apply Hmem in Hy as [Hyr Hys].
           apply list_elem_of_In, list_elem_of_split_l in Hyr
             as (n2 & n3 & -> & Hy2).
           exists [], n2, n3. split; [reflexivity |].
           split; [intros [] |]. split; [exact Hns |].
           split; [| intros Hin; apply Hys; now right].
           cbn [app]. intros [-> | Hin]; [apply Hys; now left |].
           apply Hy2. now apply list_elem_of_In.
        -- injection Hout as <- Hout.
           destruct (proj1 (IH (a :: seen)) (ex_intro _ l1 (ex_intro _ l2
                       (ex_intro _ l3 Hout))))
             as (n1 & n2 & n3 & -> & Hx1 & Hxs & Hy1 & Hys).
           exists (a :: n1), n2, n3. split; [reflexivity |].
           split; [intros [-> | Hin]; [apply Hxs; now left | contradiction] |].
           split; [intros Hin; apply Hxs; now right |].
           split; [| intros Hin; apply Hys; now right].
           cbn [app]. intros [-> | Hin]; [apply Hys; now left | contradiction].
      * intros (n1 & n2 & n3 & Hn & Hx1 & Hxs & Hy1 & Hys).
        destruct n1 as [|b n1]; cbn [app] in Hn; injection Hn as <- ->.
        -- assert (In y (unique_go (a :: seen) (n2 ++ y :: n3))) as Hy.
           { apply Hmem. split; [apply in_or_app; right; now left |].
             intros [-> | Hin]; [apply Hy1; now left | contradiction]. }
           apply in_split in Hy as (l2 & l3 & ->). now exists [], l2, l3.
        -- destruct (proj2 (IH (a :: seen))) as (l1 & l2 & l3 & ->).
           { exists n1, n2, n3. split; [reflexivity |].
             split; [intros Hin; apply Hx1; now right |].
             split; [intros [-> | Hin]; [apply Hx1; now left | contradiction] |].
             split; [intros Hin; apply Hy1; now right |].
             intros [-> | Hin]; [apply Hy1; now left | contradiction]. }
           now exists (a :: l1), l2, l3.
Qed.

(** De-duplication keeps exactly the names of its input, each once,
    in the order of their first occurrence: of two names of the
    output, one stands before the other exactly when its first
    occurrence in the input precedes the first occurrence of the
    other. *)
Theorem deduplication_keeps_first_occurrences (names : list str) :
  NoDup (unique_go [] names)
  /\ (forall x, In x (unique_go [] names) <-> In x names)
  /\ (forall x y,
        (exists l1 l2 l3, unique_go [] names = l1 ++ x :: l2 ++ y :: l3)
        <-> (exists n1 n2 n3,
               names = n1 ++ x :: n2 ++ y :: n3
               /\ ~ In x n1 /\ ~ In y (n1 ++ x :: n2))).
Proof.
  destruct (unique_go_spec [] names) as (Hnd & Hmem & _).
  split; [exact Hnd |]. split.
  - intros x. rewrite Hmem. split; [now intros [Hin _] | intros Hin; split; auto].
  - intros x y. rewrite unique_go_order. split.
    + intros (n1 & n2 & n3 & Hn & Hx1 & _ & Hy1 & _). now exists n1, n2, n3.
    + intros (n1 & n2 & n3 & Hn & Hx1 & Hy1). exists n1, n2, n3.
      repeat split; auto.
Qed.

Section ExtractorFurther.
Context `{Unicode}.

(** A line carries one of the two labels at most. *)
Lemma labels_clash (line : str) :
  startswith line (u "中文名：") = true -> startswith line (u "英文名：") = false.
Proof.
  destruct (u "中文名：") as [|a p] eqn:Ea; [vm_compute in Ea; discriminate |].
  destruct (u "英文名：") as [|b q] eqn:Eb; [vm_compute in Eb; discriminate |].
  vm_compute in Ea, Eb. injection Ea as <- _. injection Eb as <- _.
  destruct line as [|d l]; [discriminate |]. cbn [startswith].
  destruct (N.eqb_spec 20013%N d) as [<- |]; [| discriminate]. reflexivity.
Qed.

(** The loop over the lines appends, line by line, the names that pass
    the filter. *)
Lemma parse_lines_names (lines : list str) (cn : str) (acc : list str) :
  (parse_lines lines cn acc).2
  = acc ++ flat_map (fun line =>
             if startswith line (u "英文名：")
                && Py.truthy (strip (replace line (u "英文名：") []))
                && keep_en_name (strip (replace line (u "英文名：") []))
             then [strip (replace line (u "英文名：") [])] else []) lines.
Proof.
  revert cn acc. induction lines as [|line rest IH]; intros cn acc.
  - cbn [parse_lines flat_map snd]. now rewrite app_nil_r.
  - cbn [parse_lines flat_map].
    destruct (startswith line (u "中文名：")) eqn:Ecn.
    + rewrite (labels_clash line Ecn). cbn [andb app]. apply IH.
    + destruct (startswith line (u "英文名：")); cbn [andb app]; [| apply IH].
      destruct (Py.truthy (strip (replace line (u "英文名：") []))
                && keep_en_name (strip (replace line (u "英文名：") [])));
        [| apply IH].
      rewrite IH. now rewrite <- app_assoc.
Qed.

(** The name kept by the loop is the one of the last line that carries
    the Chinese-name label. *)
Lemma parse_lines_cn_name (lines : list str) (cn : str) (acc : list str) :
  (parse_lines lines cn acc).1
  = match last (filter (fun line => startswith line (u "中文名：") = true) lines) with
    | Some line => strip (replace line (u "中文名：") [])
    | None => cn
    end.
Proof.
  revert cn acc. induction lines as [|line rest IH]; intros cn acc.
  - reflexivity.
  - cbn [parse_lines]. rewrite filter_cons.
    destruct (startswith line (u "中文名：")) eqn:Ecn.
    + destruct (decide (true = true)) as [_ |]; [| congruence].
      rewrite IH. rewrite last_cons.
      destruct (last (filter (fun l => startswith l (u "中文名：") = true) rest));
        reflexivity.
    + destruct (decide (false = true)) as [|_]; [congruence |].
      destruct (startswith line (u "英文名：")); [| apply IH].
      destruct (Py.truthy (strip (replace line (u "英文名：") []))
                && keep_en_name (strip (replace line (u "英文名：") []))); apply IH.
Qed.

(** The candidates the extractor reads off an answer of the model are
    exactly the names that follow the English-name label on a line of
    the answer, have at least three characters, are, lowercased and
    trimmed, none of the generic terms and do not start with [http];
    none is returned twice.  The Chinese name returned with them is the
    one of the last line with the Chinese-name label, or empty. *)
Theorem extracted_candidates_are_the_filtered_names
    (success : bool) (llm_response : str) (cands : list str) (cn : str) :
  extract_from_response success llm_response = Return (Pair cands cn) ->
  NoDup cands
  /\ (forall c,
        In c cands <->
        exists line,
          In line (response_lines llm_response)
          /\ is_prefix (u "英文名：") line
          /\ c = strip (replace line (u "英文名：") [])
          /\ (3 <= len c)%Z
          /\ ~ In (strip (lower c)) COMMON_TERMS_TO_FILTER
          /\ ~ is_prefix (u "http") (strip (lower c)))
  /\ cn = match last (filter (fun line => startswith line (u "中文名：") = true)
                        (response_lines llm_response)) with
          | Some line => strip (replace line (u "中文名：") [])
          | None => []
          end.
Proof.
  unfold extract_from_response.
  destruct (negb success || negb (Py.truthy llm_response)
            || negb (Py.truthy (strip llm_response))); [discriminate |].
  pose proof (parse_lines_names (response_lines llm_response) [] []) as Hnames.
  pose proof (parse_lines_cn_name (response_lines llm_response) [] []) as Hcn.
  destruct (parse_lines (response_lines llm_response) [] []) as [cn0 ens].
  cbn [fst snd app] in Hnames, Hcn.
  pose proof (unique_go_spec [] ens) as (Hnd & Hmem & _).
  enough (forall c,
            In c ens <->
            exists line,
              In line (response_lines llm_response)
              /\ is_prefix (u "英文名：") line
              /\ c = strip (replace line (u "英文名：") [])
              /\ (3 <= len c)%Z
              /\ ~ In (strip (lower c)) COMMON_TERMS_TO_FILTER
              /\ ~ is_prefix (u "http") (strip (lower c))) as Hens.
  { destruct ens as [|e0 es] eqn:Eens; [discriminate |]. rewrite <- Eens in *.
    intros [= <- <-]. split; [exact Hnd |]. split; [| exact Hcn].
    intros c. rewrite <- Hens, Hmem. split; [now intros [Hin _] | intros Hin; split; auto]. }
  intros c. rewrite Hnames, in_flat_map. split.
  - intros (line & Hin & Hc).
    destruct (startswith line (u "英文名：")) eqn:Een; [| destruct Hc].
    destruct (Py.truthy (strip (replace line (u "英文名：") []))); [| destruct Hc].
    cbn [andb] in Hc. unfold keep_en_name in Hc.
    destruct (existsb _ COMMON_TERMS_TO_FILTER) eqn:Eterm; [destruct Hc |].
    destruct (3 <=? len (strip (replace line (u "英文名：") [])))%Z eqn:Elen;
      [| destruct Hc].
    destruct (startswith _ (u "http")) eqn:Ehttp; [destruct Hc |].
    cbn [negb andb] in Hc. destruct Hc as [<- | []].
    exists line. split; [exact Hin |]. split; [now apply startswith_spec |].
    split; [reflexivity |]. split; [now apply Z.leb_le |]. split.
    + intros Hin'. apply existsb_eqb_In in Hin'. congruence.
    + intros Hp. apply startswith_spec in Hp. congruence.
  - intros (line & Hin & Hpre & -> & Hlen & Hterm & Hhttp).
    exists line. split; [exact Hin |].
    apply startswith_spec in Hpre. rewrite Hpre.
    assert (Py.truthy (strip (replace line (u "英文名：") [])) = true) as ->.
    { unfold len in Hlen.
      destruct (strip (replace line (u "英文名：") [])); [cbn in Hlen; lia | reflexivity]. }
    cbn [andb]. unfold keep_en_name.
    assert (existsb (Py.eqb (strip (lower (strip (replace line (u "英文名：") [])))))
              COMMON_TERMS_TO_FILTER = false) as ->.
    { destruct (existsb _ COMMON_TERMS_TO_FILTER) eqn:E; [| reflexivity].
      apply existsb_eqb_In in E. contradiction. }
    apply Z.leb_le in Hlen. rewrite Hlen.
    assert (startswith (strip (lower (strip (replace line (u "英文名：") []))))
              (u "http") = false) as ->.
    { destruct (startswith _ (u "http")) eqn:E; [| reflexivity].
      apply startswith_spec in E. contradiction. }
    now left.
Qed.

End ExtractorFurther.

Lemma extracted_candidates_are_the_filtered_names_witness :
  extract_from_response true LLM_ANSWER = Return (Pair [u "Catan"] (u "卡坦岛"))
  /\ NoDup [u "Catan"]
  /\ u "卡坦岛"
     = match last (filter (fun line => startswith line (u "中文名：") = true)
                     (response_lines LLM_ANSWER)) with
       | Some line => strip (replace line (u "中文名：") [])
       | None => []
       end.
Proof.
  assert (extract_from_response true LLM_ANSWER
          = Return (Pair [u "Catan"] (u "卡坦岛"))) as E by (vm_compute; reflexivity).
  split; [exact E |].
  pose proof (extracted_candidates_are_the_filtered_names true LLM_ANSWER _ _ E)
    as (Hnd & _ & Hcn).
  split; assumption.
Defined.

Section ExtractorCalls.
Context `{Unicode} {W : Type} `{Services W}.

(** The extractor makes one web search, for the keyword followed by
    the question, then lists the models at most once, then asks the
    selected model at most once, with the prompt built from the search
    results; a call is made only if the one before it returned, and
    nothing is retried.  It returns candidates only after all three
    calls returned and the model reported success. *)
Theorem extractor_calls_each_service_at_most_once (keyword : str) (w : W) :
  exists r tail,
    trace_of (fetch_english_candidates_from_ddg keyword w)
    = EvDdgs (keyword ++ u "的英文名是什么") r :: tail
    /\ (tail = []
        \/ exists results ms,
             r = Return results
             /\ (tail = [EvModels ms]
                 \/ exists models cfg a,
                      ms = Return models /\ select_model models = Some cfg
                      /\ tail = [EvModels ms; EvGenerate (build_prompt results) cfg a]))
    /\ (forall cands cn,
          result_of (fetch_english_candidates_from_ddg keyword w)
          = Return (Pair cands cn) ->
          exists results models cfg ok_answer,
            r = Return results
            /\ tail = [EvModels (Return models);
                       EvGenerate (build_prompt results) cfg (Return ok_answer)]
            /\ ok_answer.1 = true).
Proof.
  rewrite fetch_run. cbn zeta. unfold trace_of, result_of.
  destruct (ddgs_text _ w) as [[results | e] w1]; cbn [fst snd].
  2: { eexists _, []. split; [reflexivity |]. split; [now left | discriminate]. }
  destruct (get_available_models w1) as [[models | e] w2]; cbn [fst snd].
  2: { eexists _, _. split; [reflexivity |]. split; [| discriminate].
       right. eexists _, _. split; [reflexivity | now left]. }
  destruct models as [|m ms]; cbn [fst snd].
  { eexists _, _. split; [reflexivity |]. split; [| discriminate].
    right. eexists _, _. split; [reflexivity | now left]. }
  destruct (select_model (m :: ms)) as [cfg |] eqn:Esel; cbn [fst snd].
  2: { eexists _, _. split; [reflexivity |]. split; [| discriminate].
       right. eexists _, _. split; [reflexivity | now left]. }
  destruct (generate_with_model (build_prompt results) cfg w2) as [[a | e] w3];
    cbn [fst snd].
  2: { eexists _, _. split; [reflexivity |]. split; [| discriminate].
       right. eexists _, _. split; [reflexivity |]. right.
       eexists _, _, _. split; [reflexivity |]. split; [exact Esel | reflexivity]. }
  eexists _, _. split; [reflexivity |]. split.
  - right. eexists _, _. split; [reflexivity |]. right.
    eexists _, _, _. split; [reflexivity |]. split; [exact Esel | reflexivity].
  - intros cands cn Hret. exists results, (m :: ms), cfg, a.
    split; [reflexivity |]. split; [reflexivity |].
    unfold extract_from_response in Hret.
    destruct a.1; [reflexivity | discriminate].
Qed.

End ExtractorCalls.

(** ** The records of the resolver *)

Lemma tag_details_tags (d : dict) (q cn source : str) (fa : bool) (bgg_source : str) :
  dict_get (tag_details d q cn source fa bgg_source) (u "_final_query") = Some (PStr q)
  /\ dict_get (tag_details d q cn source fa bgg_source) (u "cn_name") = Some (PStr cn)
  /\ dict_get (tag_details d q cn source fa bgg_source) (u "_source")
     = Some (PStr source)
  /\ dict_get (tag_details d q cn source fa bgg_source) (u "_name_source")
     = Some (PStr (name_source fa)).
Proof.
  unfold tag_details. rewrite !dict_get_set. eval_keys. repeat split.
Qed.

Lemma source_labels (fa : bool) :
  source_api fa = name_source fa ++ u "→" ++ u "BGG_API"
  /\ source_scraped fa = name_source fa ++ u "→" ++ u "网页抓取"
  /\ source_web_search fa = name_source fa ++ u "→" ++ u "网页搜索"
  /\ source_llm_only fa = name_source fa ++ u "→" ++ u "仅LLM".
Proof. destruct fa; vm_compute; repeat split. Qed.

Section ResolverFurther.
Context `{Unicode} `{Libs} {W : Type} `{Services W}.

(** The flag of the dictionary is set by a non-blank alias entry,
    whether or not the entry holds a candidate. *)
Lemma extract_candidates_flag (cn : str) (w : W) cands fa ecn w1 tr0 :
  extract_candidates cn w = (Return (cands, fa, ecn), w1, tr0) ->
  fa = Py.truthy (alias_raw cn w).
Proof.
  destruct (alias_candidates (alias_raw cn w)) as [|c0 cs] eqn:E.
  - rewrite (extract_candidates_ddg cn w E).
    destruct (fetch_english_candidates_from_ddg (cn ++ u " 桌游") w)
      as [[[[| cands' ecn'] | e] w'] tr]; try discriminate.
    now intros [= _ <- _ _ _].
  - assert (alias_candidates (alias_raw cn w) <> []) as Hne by (rewrite E; discriminate).
    rewrite (extract_candidates_alias cn w Hne). intros [= _ <- _ _ _].
    destruct (alias_raw cn w); [now rewrite alias_candidates_nil in E | reflexivity].
Qed.

(** Every record the resolver returns names its sources: [cn_name] is
    the Chinese name extraction gave; [_name_source] is the dictionary
    exactly when the alias entry of the name is not blank; [_source]
    is [_name_source], an arrow, and [_bgg_source].  A record of the
    structured API or of a scraped page has no [bgg_failed] key and
    carries in [_final_query] one of the candidates; a record of a web
    search alone or of the model alone has [bgg_failed = True] and no
    [_final_query]. *)
Theorem returned_record_names_its_sources (cn : str) (w : W) (d : dict) :
  result_of (resolve_boardgame_by_cn_name cn w) = Return (Some d) ->
  exists cands ecn w1 tr0 bgg_source,
    extract_candidates cn w
    = (Return (cands, Py.truthy (alias_raw cn w), ecn), w1, tr0)
    /\ dict_get d (u "cn_name") = Some (PStr ecn)
    /\ dict_get d (u "_name_source")
       = Some (PStr (name_source (Py.truthy (alias_raw cn w))))
    /\ dict_get d (u "_bgg_source") = Some (PStr bgg_source)
    /\ dict_get d (u "_source")
       = Some (PStr (name_source (Py.truthy (alias_raw cn w)) ++ u "→" ++ bgg_source))
    /\ (((bgg_source = u "BGG_API" \/ bgg_source = u "网页抓取")
         /\ dict_get d (u "bgg_failed") = None
         /\ exists q, In q cands /\ dict_get d (u "_final_query") = Some (PStr q))
        \/ ((bgg_source = u "网页搜索" \/ bgg_source = u "仅LLM")
            /\ dict_get d (u "bgg_failed") = Some (PBool true)
            /\ dict_get d (u "_final_query") = None)).
Proof.
  unfold resolve_boardgame_by_cn_name, bind, result_of.
  destruct (extract_candidates_run cn w) as [_ Hc].
  pose proof (extract_candidates_flag cn w) as Hflag.
  destruct (extract_candidates cn w) as [[[[[cands fa] ecn] | e] w1] tr0];
    [| discriminate].
  destruct (Hc cands fa ecn w1 tr0 eq_refl) as [Hne _].
  pose proof (Hflag cands fa ecn w1 tr0 eq_refl) as Hfa. rewrite <- Hfa.
  clear Hfa Hflag Hc.
  destruct (resolve_candidates_run cands fa ecn w1 Hne)
    as (d' & w2 & ta & tm & tt & -> & _ & _ & Hres & _).
  cbn [fst]. intros [= <-].
  destruct (source_labels fa) as (Eapi & Escr & Eweb & Ellm).
  inversion Hres; subst.
  - exists cands, ecn, w1, tr0, (u "BGG_API").
    destruct (tag_details_tags (thing_record game_id f) q ecn (source_api fa) fa
                (u "BGG_API")) as (Hq & Hcn & Hsrc & Hns).
    destruct (tag_details_keeps (thing_record game_id f) q ecn (source_api fa) fa
                (u "BGG_API")) as (Hfail & _ & _ & Hbs).
    split; [reflexivity |]. split; [exact Hcn |]. split; [exact Hns |].
    split; [exact Hbs |]. split; [now rewrite Hsrc, Eapi |].
    left. split; [now left |]. split; [| now exists q].
    rewrite Hfail. unfold thing_record. cbn [dict_get]. eval_keys. reflexivity.
  - exists cands, ecn, w1, tr0, (u "仅LLM").
    split; [reflexivity |]. unfold failure_no_hit. cbn [dict_get]. eval_keys.
    cbn iota. rewrite Ellm. repeat split. right. repeat split. now right.
  - exists cands, ecn, w1, tr0, (u "网页抓取").
    destruct (tag_details_tags d0 q ecn (source_scraped fa) fa
                (u "网页抓取")) as (Hq & Hcn & Hsrc & Hns).
    destruct (tag_details_keeps d0 q ecn (source_scraped fa) fa
                (u "网页抓取")) as (Hfail & _ & _ & Hbs).
    split; [reflexivity |]. split; [exact Hcn |]. split; [exact Hns |].
    split; [exact Hbs |]. split; [now rewrite Hsrc, Escr |].
    left. split; [now right |]. split; [| now exists q].
    rewrite Hfail.
    match goal with
    | Hd : details_of_outcome _ _ _ = Some d0 |- _ =>
        apply details_of_outcome_page in Hd as (resp & _ & Hd);
        apply details_of_page_record in Hd as (_ & Hd & _); exact Hd
    end.
  - exists cands, ecn, w1, tr0, (u "网页搜索").
    split; [reflexivity |]. unfold failure_hit_only. cbn [dict_get]. eval_keys.
    cbn iota. rewrite Eweb. repeat split. right. repeat split. now left.
Qed.

End ResolverFurther.

Lemma returned_record_names_its_sources_witness :
  exists cands ecn w1 tr0 bgg_source,
    extract_candidates (u "卡坦岛") world_api
    = (Return (cands, Py.truthy (alias_raw (u "卡坦岛") world_api), ecn), w1, tr0)
    /\ dict_get (tag_details (thing_record (u "13") CATAN_FIELDS) (u "Catan")
                   (u "卡坦岛") (u "词典→BGG_API") true (u "BGG_API")) (u "cn_name")
       = Some (PStr ecn)
    /\ dict_get (tag_details (thing_record (u "13") CATAN_FIELDS) (u "Catan")
                   (u "卡坦岛") (u "词典→BGG_API") true (u "BGG_API")) (u "_bgg_source")
       = Some (PStr bgg_source).
Proof.
  destruct (returned_record_names_its_sources (u "卡坦岛") world_api
              (tag_details (thing_record (u "13") CATAN_FIELDS) (u "Catan")
                 (u "卡坦岛") (u "词典→BGG_API") true (u "BGG_API")))
    as (cands & ecn & w1 & tr0 & bs & He & Hcn & _ & Hbs & _).
  - vm_compute. reflexivity.
  - exists cands, ecn, w1, tr0, bs. repeat split; assumption.
Defined.

(** ** The registration command: deletion, rejection, success *)

Section RegisterFurther.
Context `{Unicode}.

(** A deletion that reports success removes the one alias of the name
    from the dictionary the file held, and keeps every other alias. *)
Theorem delete_removes_exactly_one_alias
    (io : io_env) (cn_group en_group : str) (f : alias_file) :
  cr_return (execute io cn_group en_group f) = Returns (true, u "删除成功", true) ->
  exists d,
    f = FileDict d
    /\ is_Some (d !! strip cn_group)
    /\ cr_file (execute io cn_group en_group f) = FileDict (delete (strip cn_group) d)
    /\ exists d',
         load_alias_from_file (cr_file (execute io cn_group en_group f)) = LoadedDict d'
         /\ d' !! strip cn_group = None
         /\ forall k, k <> strip cn_group -> d' !! k = d !! k.
Proof.
  unfold execute.
  destruct (Py.eqb (strip cn_group) (u "清空")).
  { destruct (clear_alias_file io f) as [[|] f']; no_such_report. }
  destruct (existsb (Py.eqb (lower (strip en_group))) DELETE_WORDS).
  - destruct (negb (Py.truthy (strip cn_group))); [no_such_report |].
    destruct (load_alias_from_file f) as [d | v] eqn:Eload.
    2: { destruct (other_contains v (strip cn_group)) as [[|] |];
           [destruct v | |]; no_such_report. }
    destruct (d !! strip cn_group) as [en |] eqn:Eold; [| no_such_report].
    unfold save_alias. destruct (io_write io); [| no_such_report | no_such_report].
    run_sends; intros Hret; [discriminate Hret |].
    destruct f as [| |d0|v0]; cbn [load_alias_from_file] in Eload;
      try discriminate Eload; injection Eload as <-;
      try (rewrite lookup_empty in Eold; discriminate Eold).
    exists d0. split; [reflexivity |]. split; [now exists en |].
    split; [reflexivity |]. cbn [load_alias_from_file]. eexists.
    split; [reflexivity |]. split; [apply lookup_delete_eq |].
    intros k Hk. now apply lookup_delete_ne.
  - destruct (negb (Py.truthy (strip cn_group))); [no_such_report |].
    destruct (negb (Py.truthy (strip en_group))); [no_such_report |].
    destruct (negb (existsb isalnum_char (strip en_group))); [no_such_report |].
    destruct (load_alias_from_file f) as [d | v]; [| no_such_report].
    destruct (d !! strip cn_group) as [[|e0 en] |];
      unfold save_alias; try destruct (io_write io); no_such_report.
Qed.

(** A command that is rejected, or that finds nothing to do, leaves
    the alias file as it was. *)
Theorem rejected_command_leaves_file_unchanged
    (io : io_env) (cn_group en_group : str) (f : alias_file)
    (a b : bool) (msg : str) :
  cr_return (execute io cn_group en_group f) = Returns (a, msg, b) ->
  In msg [u "格式错误"; u "删除格式错误"; u "英文名格式错误";
          u "记录已存在"; u "记录不存在"; u "清空失败"] ->
  cr_file (execute io cn_group en_group f) = f.
Proof.
  assert (forall r : command_result,
            (cr_file r = f
             \/ (exists e, cr_return r = Raises e)
             \/ (exists x y m,
                   cr_return r = Returns (x, m, y)
                   /\ In m [u "数据已清空"; u "删除成功"; u "删除失败"; u "成功登记";
                            u "保存失败"; u "内部错误"])) ->
            cr_return r = Returns (a, msg, b) ->
            In msg [u "格式错误"; u "删除格式错误"; u "英文名格式错误";
                    u "记录已存在"; u "记录不存在"; u "清空失败"] ->
            cr_file r = f) as Hcases.
  { intros r [Hsame | [(e & He) | (x & y & m & Hm & Hin)]] Hret Hmsg.
    - exact Hsame.
    - congruence.
    - exfalso. rewrite Hm in Hret. injection Hret as -> -> ->.
      vm_compute in Hin, Hmsg.
      repeat match goal with
             | Hd : _ \/ _ |- _ => destruct Hd as [Hd | Hd]
             end;
        try contradiction; subst; discriminate. }
  apply Hcases. clear Hcases. unfold execute.
  assert (forall n sent text t f0,
            cr_file (send_then_return io n sent text t f0) = f0) as Hsend
    by reflexivity.
  assert (forall text t f0, cr_file (send_in_try io text t f0) = f0) as Htry.
  { intros text t f0. unfold send_in_try. now destruct (io_send io 0). }
  assert (forall n sent text x m y f0,
            In m [u "数据已清空"; u "删除成功"; u "删除失败"; u "成功登记";
                  u "保存失败"; u "内部错误"] ->
            (exists e, cr_return (send_then_return io n sent text (x, m, y) f0)
                       = Raises e)
            \/ (exists x' y' m',
                  cr_return (send_then_return io n sent text (x, m, y) f0)
                  = Returns (x', m', y')
                  /\ In m' [u "数据已清空"; u "删除成功"; u "删除失败"; u "成功登记";
                            u "保存失败"; u "内部错误"])) as Hrep.
  { intros n sent text x m y f0 Hin. unfold send_then_return. cbn [cr_return].
    destruct (io_send io n) as [e |]; [left; eauto | right; eauto 6]. }
  assert (forall text x m y f0,
            In m [u "数据已清空"; u "删除成功"; u "删除失败"; u "成功登记";
                  u "保存失败"; u "内部错误"] ->
            (exists e, cr_return (send_in_try io text (x, m, y) f0) = Raises e)
            \/ (exists x' y' m',
                  cr_return (send_in_try io text (x, m, y) f0) = Returns (x', m', y')
                  /\ In m' [u "数据已清空"; u "删除成功"; u "删除失败"; u "成功登记";
                            u "保存失败"; u "内部错误"])) as Hreptry.
  { intros text x m y f0 Hin. unfold send_in_try.
    destruct (io_send io 0) as [e |]; [| right; eauto 6].
    apply Hrep. cbn. tauto. }
  destruct (Py.eqb (strip cn_group) (u "清空")).
  { unfold clear_alias_file.
    destruct f as [| |d|v]; [left; apply Hsend | | |];
      (destruct (io_remove_fails io); [left; apply Hsend |]);
      right; apply Hrep; cbn; tauto. }
  destruct (existsb (Py.eqb (lower (strip en_group))) DELETE_WORDS).
  - destruct (negb (Py.truthy (strip cn_group))); [left; apply Hsend |].
    destruct (load_alias_from_file f) as [d | v].
    + destruct (d !! strip cn_group) as [en |]; [| left; apply Hsend].
      unfold save_alias. destruct (io_write io);
        [right; apply Hrep; cbn; tauto | left; apply Hsend
        | right; apply Hrep; cbn; tauto].
    + destruct (other_contains v (strip cn_group)) as [[|] |];
        [destruct v | |]; left; reflexivity.
  - destruct (negb (Py.truthy (strip cn_group))); [left; apply Hsend |].
    destruct (negb (Py.truthy (strip en_group))); [left; apply Hsend |].
    destruct (negb (existsb isalnum_char (strip en_group))); [left; apply Hsend |].
    destruct (load_alias_from_file f) as [d | v]; [| left; reflexivity].
    destruct (d !! strip cn_group) as [[|e0 en] |]; [| left; apply Htry |];
      (unfold save_alias; destruct (io_write io);
       [right; apply Hreptry; cbn; tauto | left; apply Htry
       | right; apply Hreptry; cbn; tauto]).
Qed.


End RegisterFurther.

Lemma delete_removes_exactly_one_alias_witness :
  exists d,
    FileDict ALIASES = FileDict d
    /\ is_Some (d !! strip (u " 卡坦岛 "))
    /\ cr_file (execute IO_OK (u " 卡坦岛 ") (u " Delete ") (FileDict ALIASES))
       = FileDict (delete (strip (u " 卡坦岛 ")) d).
Proof.
  destruct (delete_removes_exactly_one_alias IO_OK
              (u " 卡坦岛 ") (u " Delete ") (FileDict ALIASES))
    as (d & Hf & Hsome & Hfile & _).
  - vm_compute. reflexivity.
  - exists d. repeat split; assumption.
Defined.

Lemma rejected_command_leaves_file_unchanged_witness :
  cr_file (execute IO_OK (u "卡坦岛") (u "Settlers") (FileDict ALIASES))
  = FileDict ALIASES.
Proof.
  apply (rejected_command_leaves_file_unchanged IO_OK
           (u "卡坦岛") (u "Settlers") (FileDict ALIASES) true false (u "记录已存在")).
  - vm_compute. reflexivity.
  - vm_compute. right. right. right. left. reflexivity.
Defined.

(** A send that raises inside the [try] of the registration is caught:
    the command reports an internal error although the file was
    written.  Outside the [try] it escapes, here after the deletion was
    saved.  On a file that holds a JSON list, the lookup of the name
    raises before anything is sent. *)
Example registration_paths_that_raise :
  cr_return (execute IO_SEND_FAILS (u "璀璨宝石") (u "Splendor") (FileDict ALIASES))
  = Returns (true, u "内部错误", false)
  /\ cr_file (execute IO_SEND_FAILS (u "璀璨宝石") (u "Splendor") (FileDict ALIASES))
     = FileDict {[ u "璀璨宝石" := u "Splendor" ]}
  /\ cr_return (execute IO_SEND_FAILS (u "卡坦岛") (u "删除") (FileDict ALIASES))
     = Raises (SendError (ServiceError (u "send failed")))
  /\ cr_file (execute IO_SEND_FAILS (u "卡坦岛") (u "删除") (FileDict ALIASES))
     = FileDict (delete (u "卡坦岛") ALIASES)
  /\ execute IO_OK (u "璀璨宝石") (u "Splendor") (FileOther (OtherList []))
     = escapes AttributeError (FileOther (OtherList []))
  /\ execute IO_OK (u "璀璨宝石") (u "删除") (FileOther (OtherList [PStr (u "璀璨宝石")]))
     = escapes TypeError (FileOther (OtherList [PStr (u "璀璨宝石")])).
Proof. vm_compute. repeat split. Qed.

(** ** The player-count poll *)

Section PollFurther.
Variable int_of_str : str -> option Z.

Lemma best_loop_run (nodes : list results_node) (bv : Z) (bp : str) (bv' : Z) (bp' : str) :
  best_loop int_of_str nodes bv bp = Some (bv', bp') ->
  (bv' = bv /\ bp' = bp
   /\ forall node v, In node nodes -> best_votes_of int_of_str node = Some v -> (v <= bv)%Z)
  \/ exists pre node post,
       nodes = pre ++ node :: post
       /\ best_votes_of int_of_str node = Some bv'
       /\ (bv < bv')%Z
       /\ bp' = rn_numplayers node
       /\ (forall n v, In n pre -> best_votes_of int_of_str n = Some v -> (v < bv')%Z)
       /\ (forall n v, In n post -> best_votes_of int_of_str n = Some v -> (v <= bv')%Z).
Proof.
  revert bv bp. induction nodes as [|node rest IH]; intros bv bp.
  - intros [= <- <-]. left. split; [reflexivity |]. split; [reflexivity |].
    intros node v [].
  - cbn [best_loop]. unfold best_votes_of in *.
    destruct (rn_best_numvotes node) as [attr |] eqn:Eattr.
    + destruct (numvotes_of int_of_str attr) as [nv |] eqn:Env; [| discriminate].
      destruct (nv >? bv)%Z eqn:Egt.
      * apply Z.gtb_lt in Egt. intros Hrun.
        apply IH in Hrun as [(-> & -> & Hall)
                            | (pre & n0 & post & -> & Hv & Hlt & -> & Hpre & Hpost)].
        -- right. exists [], node, rest. split; [reflexivity |].
           rewrite Eattr. split; [exact Env |]. split; [exact Egt |].
           split; [reflexivity |]. split; [intros n v [] | exact Hall].
        -- right. exists (node :: pre), n0, post. split; [reflexivity |].
           split; [exact Hv |]. split; [lia |]. split; [reflexivity |].
           split; [| exact Hpost].
           intros n v [<- | Hin] Hn; [| now apply (Hpre n)].
           rewrite Eattr, Env in Hn. injection Hn as <-. exact Hlt.
      * rewrite Z.gtb_ltb in Egt. apply Z.ltb_ge in Egt. intros Hrun.
        apply IH in Hrun as [(-> & -> & Hall)
                            | (pre & n0 & post & -> & Hv & Hlt & -> & Hpre & Hpost)].
        -- left. split; [reflexivity |]. split; [reflexivity |].
           intros n v [<- | Hin] Hn; [| now apply (Hall n)].
           rewrite Eattr, Env in Hn. injection Hn as <-. exact Egt.
        -- right. exists (node :: pre), n0, post. split; [reflexivity |].
           split; [exact Hv |]. split; [exact Hlt |]. split; [reflexivity |].
           split; [| exact Hpost].
           intros n v [<- | Hin] Hn; [| now apply (Hpre n)].
           rewrite Eattr, Env in Hn. injection Hn as <-. lia.
    + intros Hrun.
      apply IH in Hrun as [(-> & -> & Hall)
                          | (pre & n0 & post & -> & Hv & Hlt & -> & Hpre & Hpost)].
      * left. split; [reflexivity |]. split; [reflexivity |].
        intros n v [<- | Hin] Hn; [| now apply (Hall n)].
        rewrite Eattr in Hn. discriminate.
      * right. exists (node :: pre), n0, post. split; [reflexivity |].
        split; [exact Hv |]. split; [exact Hlt |]. split; [reflexivity |].
        split; [| exact Hpost].
        intros n v [<- | Hin] Hn; [| now apply (Hpre n)].
        rewrite Eattr in Hn. discriminate.
Qed.

(** The best player count of a poll is the [numplayers] of the first
    node whose Best votes are the greatest of the poll, provided they
    are positive: every node before it has fewer Best votes, none
    after it has more.  When no node has a positive number of Best
    votes, it is the empty string. *)
Theorem best_numplayers_is_the_first_node_with_most_votes
    (nodes : list results_node) (best : str) :
  best_numplayers_of int_of_str (Some nodes) = Some best ->
  (best = []
   /\ forall node v, In node nodes -> best_votes_of int_of_str node = Some v -> (v <= 0)%Z)
  \/ exists pre node post votes,
       nodes = pre ++ node :: post
       /\ best_votes_of int_of_str node = Some votes
       /\ (0 < votes)%Z
       /\ best = rn_numplayers node
       /\ (forall n v, In n pre -> best_votes_of int_of_str n = Some v -> (v < votes)%Z)
       /\ (forall n v, In n post -> best_votes_of int_of_str n = Some v -> (v <= votes)%Z).
Proof.
  unfold best_numplayers_of.
  destruct (best_loop int_of_str nodes 0 []) as [[bv bp] |] eqn:Erun; [| discriminate].
  cbn [option_map snd]. intros [= <-].
  apply best_loop_run in Erun as [(-> & -> & Hall)
                                 | (pre & node & post & -> & Hv & Hlt & -> & Hpre & Hpost)].
  - left. now split.
  - right. exists pre, node, post, bv. repeat split; assumption.
Qed.

End PollFurther.

Lemma best_numplayers_is_the_first_node_with_most_votes_witness :
  best_numplayers_of int_of_digits (Some POLL_CATAN) = Some (u "3")
  /\ ((u "3" = []
       /\ forall node v,
            In node POLL_CATAN -> best_votes_of int_of_digits node = Some v -> (v <= 0)%Z)
      \/ exists pre node post votes,
           POLL_CATAN = pre ++ node :: post
           /\ best_votes_of int_of_digits node = Some votes
           /\ (0 < votes)%Z
           /\ u "3" = rn_numplayers node
           /\ (forall n v,
                 In n pre -> best_votes_of int_of_digits n = Some v -> (v < votes)%Z)
           /\ (forall n v,
                 In n post -> best_votes_of int_of_digits n = Some v -> (v <= votes)%Z)).
Proof.
  assert (best_numplayers_of int_of_digits (Some POLL_CATAN) = Some (u "3")) as E
    by (vm_compute; reflexivity).
  split; [exact E |].
  exact (best_numplayers_is_the_first_node_with_most_votes int_of_digits POLL_CATAN
           (u "3") E).
Defined.

(** ** The query tool *)

Section QueryToolFurther.
Context `{Unicode} `{Libs} {W : Type} `{Services W}.
Variable game_answer : str -> dict -> outcome tool_answer.

(** The query tool answers a blank query at once, awaiting nothing.
    On any other query it runs the resolver on the trimmed query and
    awaits nothing else.  What the resolver raises, the tool raises: no
    handler surrounds the call.  A failure record is answered with the
    sentence that names its Chinese and English names; a game record is
    handed to the formatting part.  The answer that nothing was found
    is given in no run. *)
Theorem query_tool_reports_or_raises (query_arg : str) (w : W) :
  (strip query_arg = []
   /\ tool_execute game_answer query_arg w
      = (Return {| ta_content := u "查询失败：未提供桌游名称。"; ta_data := None |},
         w, []))
  \/ (strip query_arg <> []
      /\ trace_of (tool_execute game_answer query_arg w)
         = trace_of (resolve_boardgame_by_cn_name (strip query_arg) w)
      /\ ((exists e,
             result_of (resolve_boardgame_by_cn_name (strip query_arg) w) = Raised e
             /\ result_of (tool_execute game_answer query_arg w) = Raised e)
          \/ exists d,
               result_of (resolve_boardgame_by_cn_name (strip query_arg) w)
               = Return (Some d)
               /\ ((is_failure_record d
                    /\ exists ecn en,
                         dict_get d (u "cn_name") = Some (PStr ecn)
                         /\ record_name d = Some (PStr en)
                         /\ result_of (tool_execute game_answer query_arg w)
                            = Return
                                {| ta_content :=
                                     u "找到了桌游「" ++ py_str (PStr ecn)
                                     ++ u "」（英文名：" ++ py_str (PStr en) ++ u "），"
                                     ++ u "但暂时无法从 BGG 获取详细信息（评分、排名、人数等）。";
                                   ta_data := None |})
                   \/ (is_game_record d
                       /\ result_of (tool_execute game_answer query_arg w)
                          = game_answer (strip query_arg) d)))).
Proof.
  unfold tool_execute. cbn zeta.
  destruct (strip query_arg) as [|c0 q] eqn:Eq.
  { left. split; reflexivity. }
  right. split; [discriminate |]. cbn [Py.truthy Py.is_empty negb].
  pose proof (resolver_outcome (c0 :: q) w) as Hout.
  pose proof (resolver_record_kinds (c0 :: q) w) as Hkinds.
  unfold bind, trace_of, result_of in *.
  destruct (resolve_boardgame_by_cn_name (c0 :: q) w) as [[[r | e] w1] tr].
  2: { cbn [fst snd]. split; [reflexivity |]. left. now exists e. }
  cbn [fst snd] in *.
  destruct Hout as [(d & [= ->]) | (e & _ & He & _)]; [| discriminate].
  destruct (Hkinds d eq_refl) as [(Hf & ecn & en & Hcn & Hen) | Hg].
  - assert (d <> []) as Hd by (intros ->; discriminate).
    destruct d as [|kv d]; [congruence |].
    unfold dict_get_default. unfold is_failure_record in Hf.
    unfold record_name in Hen. rewrite Hf, Hcn, Hen. cbn [is_true].
    unfold ret. cbn [fst snd]. rewrite app_nil_r. split; [reflexivity |].
    right. exists (kv :: d). split; [reflexivity |]. left.
    split; [exact Hf |]. exists ecn, en. repeat split; assumption.
  - pose proof Hg as (Hnone & (x & Hid) & _).
    assert (d <> []) as Hd by (intros ->; discriminate).
    destruct d as [|kv d]; [congruence |].
    unfold dict_get_default. rewrite Hnone. cbn [is_true].
    cbn [fst snd]. rewrite app_nil_r. split; [reflexivity |].
    right. exists (kv :: d). split; [reflexivity |]. right.
    split; [exact Hg | reflexivity].
Qed.

End QueryToolFurther.

(** The registration of a name the dictionary holds is refused with a
    message that quotes the whole alias on file. *)
Example existing_alias_is_reported_whole :
  cr_sent (execute IO_OK (u "卡坦岛") (u "Settlers") (FileDict ALIASES))
  = [u "⚠️ 该游戏「" ++ u "卡坦岛" ++ u "」已在词典中，现有英文名为："
     ++ u " Catan | Settlers of Catan " ++ nl
     ++ u "请发送 `/桌游登记 " ++ u "卡坦岛" ++ u "/删除`"
     ++ u "删除现有记录后再重新录入"].
Proof. vm_compute. reflexivity. Qed.
